(** * The plugin execution runtime: sessions, archives and the manager

    A shallow embedding of the subprocess backend ([sdxRunner], [sdxSession]),
    of the registry operations of the WebAssembly backend ([wazeroRunner]) and
    of the manager's reconciliation ([Manager.SetActiveState]), together with
    the properties of the design that they satisfy or miss.

    Go values are modelled as follows: a [string] is a [string] (a sequence of
    8-bit characters), a [[]byte] is a [list byte], an [error] is a value of
    [error] below ([None] of [option error] is Go's [nil]), a file mode is an
    [N] with its bits, a concurrent [xsync.Map] is a [gmap].  Functions that
    belong to Go's standard library or to third-party packages (the zip
    reader, the JSON decoder, the identifier parser, the operating system)
    are the environment: the decoders are fields of the class [Libs], the
    file system is the finite map [fsys] with the operations of [os] written
    out, and everything the scheduler or the child process decides is an
    explicit argument. *)

From Stdlib Require Import Ascii String NArith.
From Stdlib.Strings Require Import Byte.
From stdpp Require Import base option list strings pretty gmap fin_maps.

Abbreviation bytes := (list byte).

(** ** Errors (package [fault]) *)

(** Error numbers, and [fs.ErrExist], which [MkdirTemp] uses for its own error. *)
Inductive errno := EEXIST | ENOENT | ENOTDIR | EISDIR | EIO | ErrExist.

Inductive error :=
| New (msg : string)                        (* fault.New(msg) *)
| Wrap (inner : error) (msg : string)       (* fault.Wrap(err, fmsg.With(msg)) *)
| WrapCtx (inner : error)                   (* fault.Wrap(err, fctx.With(ctx)) *)
| PathError (op path : string) (e : errno)  (* *fs.PathError of package os *)
| Foreign (msg : string).                   (* any other library error *)

Definition errnoText (e : errno) : string :=
  match e with
  | EEXIST => "file exists"
  | ENOENT => "no such file or directory"
  | ENOTDIR => "not a directory"
  | EISDIR => "is a directory"
  | EIO => "input/output error"
  | ErrExist => "file already exists"
  end.

(** The messages of a [fault] chain, outermost first.  The chain is walked
    with [errors.Unwrap] and every error on it gives its text: a
    [*fs.PathError] gives its own text, which ends with the text of the
    error number, and the error number it wraps gives that text again. *)
Fixpoint chainText (e : error) : string :=
  match e with
  | New msg => msg
  | Wrap inner msg => msg +:+ ": " +:+ chainText inner
  | WrapCtx inner => chainText inner
  | PathError op path e =>
      op +:+ " " +:+ path +:+ ": " +:+ errnoText e +:+ ": " +:+ errnoText e
  | Foreign msg => msg
  end.

(** [err.Error()]: the text of the chain for an error made by [fault], the
    error's own text otherwise. *)
Definition Error (e : error) : string :=
  match e with
  | PathError op path e => op +:+ " " +:+ path +:+ ": " +:+ errnoText e
  | _ => chainText e
  end.

Definition result (A : Type) : Type := error + A.
Abbreviation OK := inr.
Abbreviation Err := inl.

Definition context_Canceled : error := Foreign "context canceled".

(** ** Package [strings] *)

Module strings.

(** [strings.HasPrefix(s, prefix)] *)
Fixpoint HasPrefix (s prefix : string) {struct prefix} : bool :=
  match prefix with
  | EmptyString => true
  | String a p =>
      match s with
      | EmptyString => false
      | String b s' => Ascii.eqb a b && HasPrefix s' p
      end
  end.

End strings.

(** ** Package [path/filepath] on a Unix target

    Lexical processing only, as the package documents it: a path is split at
    its separators, [Clean] drops empty and [.] elements, lets every [..]
    remove the element before it (a [..] at the root of a rooted path is
    dropped, leading [..] elements of a relative path stay) and joins what is
    left with single separators. *)

Module filepath.

Definition isSep (c : ascii) : bool := Ascii.eqb c "/".

(** [strings.Split(s, "/")] *)
Fixpoint split (s : string) : list string :=
  match s with
  | EmptyString => [""]
  | String c s' =>
      if isSep c then "" :: split s'
      else match split s' with
           | h :: t => String c h :: t
           | [] => [String c ""]
           end
  end.

(** [strings.Join(cs, "/")] *)
Fixpoint join (cs : list string) : string :=
  match cs with
  | [] => ""
  | [c] => c
  | c :: cs' => c +:+ "/" +:+ join cs'
  end.

Definition rooted (s : string) : bool :=
  match s with String c _ => isSep c | EmptyString => false end.

(** One element read by [Clean]; [out] is the output so far, last element
    first.  An element [..] backtracks when the output holds an element that
    is not itself a kept [..]; otherwise it is kept (relative path) or
    dropped (rooted path). *)
Definition cleanStep (r : bool) (out : list string) (c : string) : list string :=
  if String.eqb c "" || String.eqb c "." then out
  else if String.eqb c ".." then
    match out with
    | top :: out' =>
        if String.eqb top ".." then (if r then out else ".." :: out) else out'
    | [] => if r then [] else [".."]
    end
  else c :: out.

Definition render (r : bool) (cs : list string) : string :=
  if r then "/" +:+ join cs
  else match cs with [] => "." | _ => join cs end.

Definition Clean (path : string) : string :=
  match path with
  | EmptyString => "."
  | _ => render (rooted path)
           (reverse (fold_left (cleanStep (rooted path)) (split path) []))
  end.

(** [Base]: the last element, trailing separators removed first; ["."] for
    the empty path and ["/"] for a path of separators only. *)
Definition Base (path : string) : string :=
  match path with
  | EmptyString => "."
  | _ => match last (filter (λ c, c ≠ "") (split path)) with
         | Some c => c
         | None => "/"
         end
  end.

(** [path[:i+1]] for the index [i] of the last separator. *)
Fixpoint dirPrefix (s : string) : string :=
  match s with
  | EmptyString => ""
  | String c s' =>
      match dirPrefix s' with
      | EmptyString => if isSep c then String c "" else ""
      | r => String c r
      end
  end.

Definition Dir (path : string) : string := Clean (dirPrefix path).

(** [Join(a, b)]: empty elements are ignored, the rest is joined and cleaned. *)
Definition Join (a b : string) : string :=
  match a, b with
  | EmptyString, EmptyString => ""
  | EmptyString, _ => Clean b
  | _, _ => Clean (a +:+ "/" +:+ b)
  end.

End filepath.

(** ** The file system (package [os])

    A lexical model without symbolic links: a finite map from cleaned paths
    to nodes.  Every operation cleans the name it is given. The directories
    ["/"], ["."] and the pure [..] chains always exist.  Failures that the
    model cannot foresee (permissions, a full disk) are injected by the
    environment, see [osEnv].  A node holds the mode bits it was created
    with, the umask of the process applied; permissions are recorded and
    not enforced. *)

Inductive node :=
| DirNode (perm : N)
| FileNode (perm : N) (data : bytes).

Abbreviation fsys := (gmap string node).

Definition ModePerm : N := 511.              (* fs.ModePerm, 0o777 *)

Inductive osOp := OpMkdirAll | OpOpenFile | OpWrite.

(** What the environment decides during one extraction. *)
Record osEnv := {
  TempDir : string;                        (* os.TempDir() *)
  nextRandom : nat → N;                    (* the i-th random number of MkdirTemp *)
  mkdirTempFault : option errno;           (* MkdirTemp fails for an outside reason *)
  umask : N;                               (* the file mode creation mask of the process *)
  fault : nat → osOp → bool;               (* the operation fails at the i-th entry *)
  shortWrite : nat → nat;                  (* bytes written before a failing write *)
}.

Module os.

Definition rootLike (k : string) : bool :=
  String.eqb k "/" || String.eqb k "." || forallb (String.eqb "..") (filepath.split k).

Definition lookupKey (fs : fsys) (k : string) : option node :=
  if rootLike k then Some (DirNode 493) else fs !! k.

(** [syscallMode]: the bits of a [FileMode] that are passed to the kernel,
    the nine permission bits and the set-user-ID (bit 23), set-group-ID
    (bit 22) and sticky (bit 20) bits. *)
Definition syscallMode (mode : N) : N :=
  N.lor (N.land mode ModePerm)
    (N.lor (if N.testbit mode 23 then 2048 else 0)
       (N.lor (if N.testbit mode 22 then 1024 else 0)
              (if N.testbit mode 20 then 512 else 0))).

(** The mode of a file created with [mode]: the kernel clears the
    permission bits that are set in the umask. *)
Definition created (env : osEnv) (mode : N) : N :=
  N.ldiff (syscallMode mode) (N.land (umask env) ModePerm).

(** The mode of a directory made with [perm]: its permission bits less
    those of the umask.  (What becomes of the other bits depends on the
    system; the runtime passes [0o755] and [0o700].) *)
Definition createdDir (env : osEnv) (perm : N) : N :=
  N.ldiff (N.land perm ModePerm) (N.land (umask env) ModePerm).

(** [os.Stat(name)] *)
Definition Stat (fs : fsys) (name : string) : option node :=
  lookupKey fs (filepath.Clean name).

(** Creating the directory at the key [k]. *)
Definition mkdirKey (fs : fsys) (k : string) (perm : N) : fsys * option error :=
  match lookupKey fs k with
  | Some _ => (fs, Some (PathError "mkdir" k EEXIST))
  | None =>
      match lookupKey fs (filepath.Dir k) with
      | Some (DirNode _) => (<[k := DirNode perm]> fs, None)
      | Some (FileNode _ _) => (fs, Some (PathError "mkdir" k ENOTDIR))
      | None => (fs, Some (PathError "mkdir" k ENOENT))
      end
  end.

(** [os.Mkdir(name, perm)] *)
Definition Mkdir (env : osEnv) (fs : fsys) (name : string) (perm : N)
  : fsys * option error :=
  mkdirKey fs (filepath.Clean name) (createdDir env perm).

(** The prefixes of [s] that end just before a separator, shortest first
    (the empty prefix included). *)
Fixpoint cuts0 (s : string) : list string :=
  match s with
  | EmptyString => []
  | String c s' =>
      (if filepath.isSep c then [""] else []) ++ map (String c) (cuts0 s')
  end.

(** The parent directories of a path, nearest first. *)
Definition parents (k : string) : list string :=
  match k with
  | EmptyString => []
  | String c s' => reverse (map (String c) (cuts0 s'))
  end.

(** [MkdirAll] on the cleaned path and its parents, nearest first: they are
    looked up until one exists; the missing ones are created on the way
    back. *)
Fixpoint mkdirChain (fs : fsys) (chain : list string) (perm : N) : fsys * option error :=
  match chain with
  | [] => (fs, None)
  | p :: rest =>
      match lookupKey fs p with
      | Some (DirNode _) => (fs, None)
      | Some (FileNode _ _) => (fs, Some (PathError "mkdir" p ENOTDIR))
      | None =>
          match mkdirChain fs rest perm with
          | (fs1, Some e) => (fs1, Some e)
          | (fs1, None) => mkdirKey fs1 p perm
          end
      end
  end.

Definition MkdirAll (env : osEnv) (i : nat) (fs : fsys) (path : string) (perm : N)
  : fsys * option error :=
  if fault env i OpMkdirAll then (fs, Some (PathError "mkdir" path EIO))
  else let k := filepath.Clean path in mkdirChain fs (k :: parents k) (createdDir env perm).

(** [os.OpenFile(name, O_WRONLY|O_CREATE|O_TRUNC, mode)]; the handle returned
    is the key of the file. *)
Definition OpenFile (env : osEnv) (i : nat) (fs : fsys) (name : string) (mode : N)
  : fsys * result string :=
  if fault env i OpOpenFile then (fs, Err (PathError "open" name EIO))
  else
    let k := filepath.Clean name in
    match lookupKey fs k with
    | Some (DirNode _) => (fs, Err (PathError "open" name EISDIR))
    | Some (FileNode perm _) => (<[k := FileNode perm []]> fs, OK k)
    | None =>
        match lookupKey fs (filepath.Dir k) with
        | Some (DirNode _) => (<[k := FileNode (created env mode) []]> fs, OK k)
        | Some (FileNode _ _) => (fs, Err (PathError "open" name ENOTDIR))
        | None => (fs, Err (PathError "open" name ENOENT))
        end
    end.

(** Writing [data] through the handle [k]. *)
Definition write (fs : fsys) (k : string) (data : bytes) : fsys :=
  match fs !! k with
  | Some (FileNode perm old) => <[k := FileNode perm (old ++ data)]> fs
  | _ => fs
  end.

Definition joinPath (dir name : string) : string :=
  match last (list_ascii_of_string dir) with
  | Some c => if filepath.isSep c then dir +:+ name else dir +:+ "/" +:+ name
  | None => dir +:+ "/" +:+ name
  end.

(** [os.MkdirTemp("", pattern)] for a pattern without [*] and without
    separator: the names [TempDir/pattern<random>] are tried with [Mkdir],
    up to 10000 of them while the name exists; when [Mkdir] finds no parent
    and the directory itself is missing, the error is that of [Stat]. *)
Definition mkdirTempTries : nat := 100 * 100.

Fixpoint mkdirTempTry (env : osEnv) (tries : nat) (i : nat) (fs : fsys) (dir prefix : string)
  : fsys * result string :=
  match tries with
  | 0 => (fs, Err (PathError "mkdirtemp" (dir +:+ "/" +:+ prefix +:+ "*") ErrExist))
  | S tries' =>
      let name := prefix +:+ pretty (nextRandom env i) in
      match Mkdir env fs name 448 with
      | (fs1, None) => (fs1, OK name)
      | (fs1, Some (PathError _ _ EEXIST)) => mkdirTempTry env tries' (S i) fs1 dir prefix
      | (fs1, Some (PathError op path ENOENT)) =>
          match Stat fs1 dir with
          | None => (fs1, Err (PathError "stat" dir ENOENT))
          | Some _ => (fs1, Err (PathError op path ENOENT))
          end
      | (fs1, Some err) => (fs1, Err err)
      end
  end.

(** A failure for an outside reason is one of the first [Mkdir]. *)
Definition MkdirTemp (env : osEnv) (fs : fsys) (pattern : string) : fsys * result string :=
  let dir := TempDir env in
  let prefix := joinPath dir pattern in
  match mkdirTempFault env with
  | Some e => (fs, Err (PathError "mkdir" (prefix +:+ pretty (nextRandom env 0)) e))
  | None => mkdirTempTry env mkdirTempTries 0 fs dir prefix
  end.

(** [os.RemoveAll(path)]: the path and everything below it. *)
Definition RemoveAll (fs : fsys) (path : string) : fsys :=
  let k := filepath.Clean path in
  filter (λ kv, ¬ (kv.1 = k ∨ strings.HasPrefix kv.1 (k +:+ "/") = true)) fs.

End os.

(** ** Archives, manifests and the decoders the runtime calls *)

(** What [file.Open()] returns: the bytes the reader yields and the error,
    if any, that ends the stream instead of [io.EOF]. *)
Record zipReader := { rcData : bytes; rcErr : option error }.

(** One [*zip.File]: its stored name, [FileInfo().Mode()] and [Open()]. *)
Record zipFile := {
  Name : string;
  Mode : N;
  Open : result zipReader;
}.

Definition IsDir (f : zipFile) : bool := N.testbit (Mode f) 31.

(** [plugin.ID], by its canonical text. *)
Abbreviation pluginID := string.

(** [xid.ID]: twelve bytes, as a number. *)
Abbreviation xidID := N.

(** [plugin.Manifest]; the runtime reads the identifier only. *)
Record Manifest := { ID : pluginID; manifestRest : string }.

Record RPCRequest := { Method : string; Params : string }.
Record RPCResponse := { responseID : string; responseRest : string }.

(** The decoders of the libraries, as functions of their input. *)
Class Libs := {
  zip_NewReader : bytes → result (list zipFile);
  json_Unmarshal_Manifest : bytes → result Manifest;
  json_Unmarshal_RPCResponse : bytes → result RPCResponse;
  xid_FromString : string → result xidID;
}.

(** [io.ReadAll(rc)] *)
Definition io_ReadAll (rc : zipReader) : result bytes :=
  match rcErr rc with
  | Some e => Err e
  | None => OK (rcData rc)
  end.

Section Archive.
Context `{Libs}.

(** *** Validation *)

Fixpoint findManifest (files : list zipFile) : result bytes :=
  match files with
  | [] => Err (New "manifest.json not found in plugin archive")
  | file :: rest =>
      if negb (String.eqb (filepath.Base (Name file)) "manifest.json")
      then findManifest rest
      else
        match Open file with
        | inl err => Err (Wrap err "failed to open manifest")
        | inr rc =>
            match io_ReadAll rc with
            | inl err => Err (Wrap err "failed to read manifest")
            | inr data => OK data
            end
        end
  end.

Definition readSDXManifest (bin : bytes) : result bytes :=
  match zip_NewReader bin with
  | inl err => Err (Wrap err "failed to open archive")
  | inr files => findManifest files
  end.

Definition isExecutableName (name : string) : bool :=
  let base := filepath.Base name in
  String.eqb base "main" || String.eqb base "main.exe".

Definition ensureExecutablePresent (bin : bytes) : option error :=
  match zip_NewReader bin with
  | inl err => Some (Wrap err "failed to open archive")
  | inr files =>
      if existsb (λ file, isExecutableName (Name file)) files then None
      else Some (New "plugin archive missing main executable")
  end.

(** [sdxRunner.Validate] *)
Definition Validate (bin : bytes) : result Manifest :=
  match readSDXManifest bin with
  | inl err => Err (Wrap err "failed to read manifest")
  | inr manifestBytes =>
      match json_Unmarshal_Manifest manifestBytes with
      | inl err => Err (Wrap err "failed to decode manifest")
      | inr m =>
          match ensureExecutablePresent bin with
          | Some err => Err (Wrap err "plugin binary missing")
          | None => OK m
          end
      end
  end.

(** *** Extraction *)

Definition joinWithin (base name : string) : result string :=
  let clean := filepath.Join base name in
  if negb (strings.HasPrefix clean (base +:+ "/")) && negb (String.eqb clean base)
  then Err (New "archive entry escapes extraction directory")
  else OK clean.

(** The mode an entry is created with: an executable entry without any
    execute bit gets [0o755] added. *)
Definition extractedMode (file : zipFile) : N :=
  if N.eqb (N.land (Mode file) 73) 0 && isExecutableName (Name file)
  then N.lor (Mode file) 493
  else Mode file.

(** [io.Copy(out, rc)]: the reader's bytes are written to the file; a failing
    write leaves a part of them. *)
Definition io_Copy (env : osEnv) (i : nat) (fs : fsys) (out : string) (rc : zipReader)
  : fsys * option error :=
  if fault env i OpWrite
  then (os.write fs out (take (shortWrite env i) (rcData rc)),
        Some (PathError "write" out EIO))
  else (os.write fs out (rcData rc), rcErr rc).

(** One pass of the loop over [zr.File]: the file system after it and either
    the error returned or the value of [binaryPath]. *)
Definition extractEntry (env : osEnv) (i : nat) (fs : fsys) (workdir : string)
    (file : zipFile) (binaryPath : string) : fsys * result string :=
  match joinWithin workdir (Name file) with
  | inl err => (fs, Err err)
  | inr targetPath =>
      if IsDir file then
        match os.MkdirAll env i fs targetPath 493 with
        | (fs1, Some err) => (fs1, Err (Wrap err "failed to create dir"))
        | (fs1, None) => (fs1, OK binaryPath)
        end
      else
        match os.MkdirAll env i fs (filepath.Dir targetPath) 493 with
        | (fs1, Some err) => (fs1, Err (Wrap err "failed to create parent dir"))
        | (fs1, None) =>
            match Open file with
            | inl err => (fs1, Err (Wrap err "failed to open file in archive"))
            | inr rc =>
                match os.OpenFile env i fs1 targetPath (extractedMode file) with
                | (fs2, inl err) => (fs2, Err (Wrap err "failed to create extracted file"))
                | (fs2, inr out) =>
                    match io_Copy env i fs2 out rc with
                    | (fs3, Some err) =>
                        (fs3, Err (Wrap err "failed to copy archive contents"))
                    | (fs3, None) =>
                        (fs3, OK (if isExecutableName (Name file)
                                  then targetPath else binaryPath))
                    end
                end
            end
        end
  end.

Fixpoint extractEntries (env : osEnv) (i : nat) (fs : fsys) (workdir : string)
    (files : list zipFile) (binaryPath : string) : fsys * result string :=
  match files with
  | [] => (fs, OK binaryPath)
  | file :: rest =>
      match extractEntry env i fs workdir file binaryPath with
      | (fs1, inl err) => (fs1, Err err)
      | (fs1, inr binaryPath') => extractEntries env (S i) fs1 workdir rest binaryPath'
      end
  end.

(** [extractSDXArchive]: the file system afterwards and [(workdir, binaryPath)]
    or the error. *)
Definition extractSDXArchive (env : osEnv) (fs : fsys) (bin : bytes)
  : fsys * result (string * string) :=
  match zip_NewReader bin with
  | inl err => (fs, Err (Wrap err "failed to open archive"))
  | inr files =>
      match os.MkdirTemp env fs "storyden-sdx-" with
      | (fs1, inl err) => (fs1, Err (Wrap err "failed to create temp dir"))
      | (fs1, inr workdir) =>
          match extractEntries env 0 fs1 workdir files "" with
          | (fs2, inl err) => (fs2, Err err)
          | (fs2, inr binaryPath) =>
              if String.eqb binaryPath ""
              then (fs2, Err (New "extracted archive missing main executable"))
              else (fs2, OK (workdir, binaryPath))
          end
      end
  end.

End Archive.

(** ** Sessions *)

Inductive ReportedState :=
| ReportedStateActive        (* "active" *)
| ReportedStateInactive      (* "inactive" *)
| ReportedStateError.        (* "errored" *)

(** [plugin.ActiveState]: the desired state, a wrapped string. *)
Record ActiveState := { activeStateValue : string }.
Definition ActiveStateActive : ActiveState := {| activeStateValue := "active" |}.
Definition ActiveStateInactive : ActiveState := {| activeStateValue := "inactive" |}.

Inductive RunType := RunTypeBackground | RunTypeOther.

(** A pending command: the request and its private response channel, a
    channel being known by its address. *)
Record pendingCommand := { request : RPCRequest; respch : nat }.

(** [PluginSession], the fields the subprocess backend reads and writes.
    [ctx] is the execution context of the current run: [None] before the
    first run, [Some true] once cancelled. *)
Record PluginSession := {
  id : pluginID;
  runType : RunType;
  reportedState : ReportedState;
  statusMessage : string;
  bin : bytes;
  manifest : Manifest;
  pendingCommands : gmap xidID pendingCommand;
  ctx : option bool;
}.

(** [*exec.Cmd]: the program, its directory and whether [Wait] has seen it
    exit. *)
Record Cmd := { cmdPath : string; cmdDir : string; exited : bool }.

(** [sdxSession]; [stdin] is [Some true] while the pipe is open. *)
Record sdxSession := {
  session : PluginSession;
  workdir : string;
  cmd : option Cmd;
  stdin : option bool;
  stopping : bool;
}.

Definition withSession (f : PluginSession → PluginSession) (s : sdxSession) : sdxSession :=
  {| session := f (session s); workdir := workdir s; cmd := cmd s;
     stdin := stdin s; stopping := stopping s |}.

(** Modelled from the spec: [PluginSession.setState] is not part of the
    sources at hand.  "Observed lifecycle state: one of inactive, active,
    errored (with an associated error note when errored)": the call stores
    the state and the note. *)
Definition setState (st : ReportedState) (message : string) (s : PluginSession)
  : PluginSession :=
  {| id := id s; runType := runType s; reportedState := st; statusMessage := message;
     bin := bin s; manifest := manifest s; pendingCommands := pendingCommands s;
     ctx := ctx s |}.

Definition setCtx (c : option bool) (s : PluginSession) : PluginSession :=
  {| id := id s; runType := runType s; reportedState := reportedState s;
     statusMessage := statusMessage s; bin := bin s; manifest := manifest s;
     pendingCommands := pendingCommands s; ctx := c |}.

Definition setPending (m : gmap xidID pendingCommand) (s : PluginSession) : PluginSession :=
  {| id := id s; runType := runType s; reportedState := reportedState s;
     statusMessage := statusMessage s; bin := bin s; manifest := manifest s;
     pendingCommands := m; ctx := ctx s |}.

(** [cancel()] of the session's context. *)
Definition cancel (s : PluginSession) : PluginSession :=
  match ctx s with
  | Some _ => setCtx (Some true) s
  | None => s
  end.

(** Modelled from the spec: [PluginSession.stop] is not part of the sources
    at hand.  "the dispatch loop's own execution context cancellation is the
    final backstop": stopping cancels the execution context of the run, if
    there is one. *)
Definition stop (s : PluginSession) : PluginSession := cancel s.

Definition ctxDone (s : PluginSession) : bool :=
  match ctx s with Some true => true | _ => false end.

(** The session [Load] creates. *)
Definition newSession (bin : bytes) (m : Manifest) : PluginSession :=
  {| id := ID m; runType := RunTypeBackground;
     reportedState := ReportedStateInactive; statusMessage := "";
     bin := bin; manifest := m; pendingCommands := ∅; ctx := None |}.

Definition newSDXSession (sess : PluginSession) : sdxSession :=
  {| session := sess; workdir := ""; cmd := None; stdin := None; stopping := false |}.

(** ** Logging (package [slog])

    The lines of level [Info], [Warn] and [Error] are recorded; those of
    level [Debug] are not. *)

Inductive level := LevelDebug | LevelInfo | LevelWarn | LevelError.
Record logLine := { logLevel : level; logMsg : string; logAttr : string }.

(** ** One run of a session: [sdxSession.runProcess] *)

(** What the environment decides when the process is set up. *)
Record procEnv := {
  extractEnv : osEnv;
  stdoutPipeErr : option error;
  stderrPipeErr : option error;
  stdinPipeErr : option error;
  startErr : option error;
}.

(** The state of a run that has reached the dispatch loop: the session, the
    file system, the buffered error channel [errCh] (capacity one), the
    responses delivered to response channels, the lines printed, the log and
    whether the pump of the process's standard error has returned. *)
Record loopState := {
  lsSession : sdxSession;
  lsFiles : fsys;
  errCh : option (option error);
  delivered : list (nat * RPCResponse);
  printed : list string;
  lsLogs : list logLine;
  stderrDone : bool;
}.

Definition withLS (f : sdxSession → sdxSession) (st : loopState) : loopState :=
  {| lsSession := f (lsSession st); lsFiles := lsFiles st; errCh := errCh st;
     delivered := delivered st; printed := printed st; lsLogs := lsLogs st;
     stderrDone := stderrDone st |}.

Definition withErrCh (c : option (option error)) (st : loopState) : loopState :=
  {| lsSession := lsSession st; lsFiles := lsFiles st; errCh := c;
     delivered := delivered st; printed := printed st; lsLogs := lsLogs st;
     stderrDone := stderrDone st |}.

Definition logLS (l : logLine) (st : loopState) : loopState :=
  {| lsSession := lsSession st; lsFiles := lsFiles st; errCh := errCh st;
     delivered := delivered st; printed := printed st; lsLogs := lsLogs st ++ [l];
     stderrDone := stderrDone st |}.

Definition printLS (line : string) (st : loopState) : loopState :=
  {| lsSession := lsSession st; lsFiles := lsFiles st; errCh := errCh st;
     delivered := delivered st; printed := printed st ++ [line]; lsLogs := lsLogs st;
     stderrDone := stderrDone st |}.

Definition deliverLS (ch : nat) (r : RPCResponse) (st : loopState) : loopState :=
  {| lsSession := lsSession st; lsFiles := lsFiles st; errCh := errCh st;
     delivered := delivered st ++ [(ch, r)]; printed := printed st; lsLogs := lsLogs st;
     stderrDone := stderrDone st |}.

(** [sendErr]: a send that never blocks; the error is dropped when the
    channel is full. *)
Definition sendErr (err : option error) (st : loopState) : loopState :=
  match errCh st with
  | None => withErrCh (Some err) st
  | Some _ => st
  end.

(** [handleError] *)
Definition handleError (err : error) (st : loopState) : loopState :=
  withLS (withSession (setState ReportedStateError (Error err)))
    (logLS {| logLevel := LevelError; logMsg := "plugin error"; logAttr := Error err |} st).

(** The exit watcher, once [cmd.Wait()] has returned [waitErr]. *)
Definition exitWatcher (waitErr : option error) (st : loopState) : loopState :=
  if stopping (lsSession st) then sendErr None st
  else match waitErr with
       | Some e => sendErr (Some (Wrap e "process exited")) st
       | None => sendErr (Some (New "plugin exited unexpectedly")) st
       end.

(** The writer pump when a write to the process fails, and the output pump
    when its scanner fails. *)
Definition writerFailed (err : error) (st : loopState) : loopState :=
  if ctxDone (session (lsSession st)) then st
  else sendErr (Some (Wrap err "failed to write command")) st.

Definition readerFailed (err : error) (st : loopState) : loopState :=
  if ctxDone (session (lsSession st)) then st
  else sendErr (Some (Wrap err "failed to read stdout")) st.

(** The pump of the process's standard error.  A line it reads is logged,
    unless the context is cancelled: then the pump returns.  When its
    scanner stops, an error other than the end of the stream is logged,
    cancelled or not, and the pump returns. *)
Definition endStderr (st : loopState) : loopState :=
  {| lsSession := lsSession st; lsFiles := lsFiles st; errCh := errCh st;
     delivered := delivered st; printed := printed st; lsLogs := lsLogs st;
     stderrDone := true |}.

Definition stderrLine (line : string) (st : loopState) : loopState :=
  if stderrDone st then st
  else if ctxDone (session (lsSession st)) then endStderr st
  else logLS {| logLevel := LevelWarn; logMsg := "plugin stderr"; logAttr := line |} st.

Definition stderrEnded (err : option error) (st : loopState) : loopState :=
  if stderrDone st then st
  else match err with
       | Some e =>
           endStderr (logLS {| logLevel := LevelError; logMsg := "stderr read error";
                               logAttr := Error e |} st)
       | None => endStderr st
       end.

(** The case the [select] of the dispatch loop takes, and the case the
    [select] around the delivery takes. *)
Inductive selected :=
| SelCtxDone
| SelErrCh
| SelOutchan (output : option bytes).      (* [None]: the channel is closed *)

Inductive respSelected := SelRespch | SelRespCtxDone.

Definition bytes_to_string (b : bytes) : string := string_of_list_byte b.

Section Run.
Context `{Libs}.

(** A line received from [outchan]. The loop goes on after every line. *)
Definition handleOutput (output : bytes) (rsel : respSelected) (st : loopState)
  : option loopState :=
  match output with
  | [] => Some st
  | b :: _ =>
      if negb (Byte.eqb b "{"%byte) then Some (printLS ("LOG: " +:+ bytes_to_string output) st)
      else
        match json_Unmarshal_RPCResponse output with
        | inl err => Some (handleError (Wrap err "failed to decode response") st)
        | inr response =>
            match xid_FromString (responseID response) with
            | inl err => Some (handleError (Wrap err "failed to parse response ID") st)
            | inr ident =>
                let s := session (lsSession st) in
                match pendingCommands s !! ident with
                | None =>
                    Some (handleError (New "received response for unknown command") st)
                | Some pending =>
                    let st1 :=
                      withLS (withSession (setPending (delete ident (pendingCommands s)))) st in
                    match rsel with
                    | SelRespch => Some (deliverLS (respch pending) response st1)
                    | SelRespCtxDone => if ctxDone s then Some st1 else None
                    end
                end
            end
        end
  end.

(** One turn of the dispatch loop.  The outer [None]: the chosen case is not
    ready.  Otherwise the state afterwards and [None] to go on or
    [Some err] for [return err]. *)
Definition dispatch (sel : selected) (rsel : respSelected) (st : loopState)
  : option (loopState * option (option error)) :=
  match sel with
  | SelCtxDone =>
      if ctxDone (session (lsSession st)) then
        Some (withLS (withSession (setState ReportedStateInactive "")) st,
              Some (Some context_Canceled))
      else None
  | SelErrCh =>
      match errCh st with
      | None => None
      | Some None =>
          Some (withLS (withSession (setState ReportedStateInactive ""))
                  (logLS {| logLevel := LevelInfo; logMsg := "plugin stopped";
                            logAttr := id (session (lsSession st)) |}
                     (withErrCh None st)),
                Some None)
      | Some (Some err) => Some (handleError err (withErrCh None st), Some (Some err))
      end
  | SelOutchan None => Some (st, Some None)
  | SelOutchan (Some output) =>
      match handleOutput output rsel st with
      | Some st' => Some (st', None)
      | None => None
      end
  end.

(** The set-up of [runProcess] up to [setState(active)]: the file system and
    the session afterwards, and the error returned, if any. *)
Definition startProcess (penv : procEnv) (fs : fsys) (s : sdxSession)
  : fsys * sdxSession * option error :=
  match reportedState (session s) with
  | ReportedStateActive => (fs, s, Some (New "plugin is already running"))
  | _ =>
      match runType (session s) with
      | RunTypeOther => (fs, s, Some (New "only background plugins can be started"))
      | RunTypeBackground =>
          let s1 := withSession (setCtx (Some false)) s in
          let failed (fs' : fsys) (err : error) (msg : string) :=
            (fs', withSession cancel s1, Some (Wrap err msg)) in
          match extractSDXArchive (extractEnv penv) fs (bin (session s)) with
          | (fs1, inl err) => failed fs1 err "failed to extract plugin"
          | (fs1, inr (wd, binaryPath)) =>
              match stdoutPipeErr penv with
              | Some err => failed fs1 err "failed to get stdout"
              | None =>
              match stderrPipeErr penv with
              | Some err => failed fs1 err "failed to get stderr"
              | None =>
              match stdinPipeErr penv with
              | Some err => failed fs1 err "failed to get stdin"
              | None =>
              match startErr penv with
              | Some err => failed fs1 err "failed to start process"
              | None =>
                  let command := {| cmdPath := binaryPath;
                                    cmdDir := filepath.Dir binaryPath;
                                    exited := false |} in
                  let s2 := {| session := setState ReportedStateActive "" (session s1);
                               workdir := wd; cmd := Some command;
                               stdin := Some true; stopping := false |} in
                  (fs1, s2, None)
              end end end end
          end
      end
  end.

(** The deferred clean-up of a run that reached the loop. *)
Definition cleanup (st : loopState) : loopState :=
  let s := lsSession st in
  {| lsSession := {| session := cancel (session s); workdir := "";
                     cmd := None; stdin := None; stopping := stopping s |};
     lsFiles := if String.eqb (workdir s) "" then lsFiles st
                else os.RemoveAll (lsFiles st) (workdir s);
     errCh := errCh st; delivered := delivered st; printed := printed st;
     lsLogs := lsLogs st; stderrDone := stderrDone st |}.

(** What happens around the dispatch loop while it runs. *)
Inductive event :=
| ProcessExited (waitErr : option error)      (* the exit watcher fires *)
| WriteFailed (err : error)                   (* the writer pump fails *)
| ReadFailed (err : error)                    (* the output pump fails *)
| StopRequested                               (* StopPlugin: stopping = true, stdin closed *)
| ContextCancelled                            (* stop(): the context is cancelled *)
| Selected (sel : selected) (rsel : respSelected)
| StderrLine (line : string)                  (* the stderr pump reads a line *)
| StderrEnded (err : option error).           (* its scanner stops, [None] at the end *)

Definition markStopping (s : sdxSession) : sdxSession :=
  {| session := session s; workdir := workdir s; cmd := cmd s;
     stdin := match stdin s with Some _ => Some false | None => None end;
     stopping := true |}.

Definition markExited (s : sdxSession) : sdxSession :=
  {| session := session s; workdir := workdir s;
     cmd := match cmd s with
            | Some c => Some {| cmdPath := cmdPath c; cmdDir := cmdDir c; exited := true |}
            | None => None
            end;
     stdin := stdin s; stopping := stopping s |}.

Definition react (ev : event) (st : loopState)
  : option (loopState * option (option error)) :=
  match ev with
  | ProcessExited waitErr => Some (exitWatcher waitErr (withLS markExited st), None)
  | WriteFailed err => Some (writerFailed err st, None)
  | ReadFailed err => Some (readerFailed err st, None)
  | StopRequested => Some (withLS markStopping st, None)
  | ContextCancelled => Some (withLS (withSession stop) st, None)
  | Selected sel rsel => dispatch sel rsel st
  | StderrLine line => Some (stderrLine line st, None)
  | StderrEnded err => Some (stderrEnded err st, None)
  end.

Inductive outcome := Returned (err : option error) | StillRunning.

(** The stderr pump can outlive the loop: what it does with the rest of the
    schedule once the loop has returned.  (The order of what it logs then
    and of what the caller of [runProcess] logs is not fixed; the log of a
    run has the former first.) *)
Fixpoint drain (evs : list event) (st : loopState) : loopState :=
  match evs with
  | [] => st
  | StderrLine line :: rest => drain rest (stderrLine line st)
  | StderrEnded err :: rest => drain rest (stderrEnded err st)
  | _ :: rest => drain rest st
  end.

(** The loop under a schedule; an event that is not ready is skipped. *)
Fixpoint runLoop (evs : list event) (st : loopState) : loopState * outcome :=
  match evs with
  | [] => (st, StillRunning)
  | ev :: rest =>
      match react ev st with
      | None => runLoop rest st
      | Some (st', None) => runLoop rest st'
      | Some (st', Some err) => (drain rest (cleanup st'), Returned err)
      end
  end.

Definition enterLoop (fs : fsys) (s : sdxSession) : loopState :=
  {| lsSession := s; lsFiles := fs; errCh := None; delivered := [];
     printed := []; lsLogs := []; stderrDone := false |}.

(** [sdxSession.runProcess] *)
Definition runProcess (penv : procEnv) (evs : list event) (fs : fsys) (s : sdxSession)
  : loopState * outcome :=
  match startProcess penv fs s with
  | (fs1, s1, Some err) => (enterLoop fs1 s1, Returned (Some err))
  | (fs1, s1, None) => runLoop evs (enterLoop fs1 s1)
  end.

End Run.

(** ** The subprocess runner: [sdxRunner]

    The runner's registry holds pointers: [heap] maps the address of every
    session object to its state and [sessions] maps a plugin identifier to
    an address.  [goroutines] are the runs [StartPlugin] has started and the
    scheduler has not run yet. *)

Record World := {
  files : fsys;
  heap : gmap nat sdxSession;
  brk : nat;                                 (* next free address *)
  sessions : gmap pluginID nat;
  goroutines : list (pluginID * nat);
  logs : list logLine;
}.

Definition setFiles (fs : fsys) (w : World) : World :=
  {| files := fs; heap := heap w; brk := brk w; sessions := sessions w;
     goroutines := goroutines w; logs := logs w |}.

Definition setObject (p : nat) (s : sdxSession) (w : World) : World :=
  {| files := files w; heap := <[p := s]> (heap w); brk := brk w;
     sessions := sessions w; goroutines := goroutines w; logs := logs w |}.

Definition setSessions (m : gmap pluginID nat) (w : World) : World :=
  {| files := files w; heap := heap w; brk := brk w; sessions := m;
     goroutines := goroutines w; logs := logs w |}.

Definition setGoroutines (g : list (pluginID * nat)) (w : World) : World :=
  {| files := files w; heap := heap w; brk := brk w; sessions := sessions w;
     goroutines := g; logs := logs w |}.

Definition logWorld (l : list logLine) (w : World) : World :=
  {| files := files w; heap := heap w; brk := brk w; sessions := sessions w;
     goroutines := goroutines w; logs := logs w ++ l |}.

(** What the environment decides during [StopPlugin]: the error of
    [Process.Kill], when it is not [os.ErrProcessDone], and whether the wait
    at the end is ended by the caller's context. *)
Record stopEnv := { killErr : option error; callerDone : bool }.

Module sdxRunner.
Section Runner.
Context `{Libs}.

Definition notFound : error := New "plugin session not found".

Definition Load (w : World) (bin : bytes) : World * result nat :=
  match Validate bin with
  | inl err => (w, Err (WrapCtx err))
  | inr m =>
      let p := brk w in
      let sdxSess := newSDXSession (newSession bin m) in
      ({| files := files w; heap := <[p := sdxSess]> (heap w); brk := S p;
          sessions := <[ID m := p]> (sessions w);
          goroutines := goroutines w; logs := logs w |},
       OK p)
  end.

Definition GetSession (w : World) (id : pluginID) : result nat :=
  match sessions w !! id with
  | None => Err notFound
  | Some p => OK p
  end.

Definition GetSessions (w : World) : list nat :=
  (map_to_list (sessions w)).*2.

(** [StartPlugin]: the run is started in a goroutine of its own and [nil] is
    returned at once. *)
Definition StartPlugin (w : World) (id : pluginID) : World * option error :=
  match sessions w !! id with
  | None => (w, Some notFound)
  | Some p => (setGoroutines (goroutines w ++ [(id, p)]) w, None)
  end.

(** The goroutine of [StartPlugin], run under a schedule: an error of
    [runProcess] is logged. *)
Definition runGoroutine (penv : procEnv) (evs : list event) (w : World) : World :=
  match goroutines w with
  | [] => w
  | (id, p) :: rest =>
      let w := setGoroutines rest w in
      match heap w !! p with
      | None => w
      | Some s =>
          let '(st, out) := runProcess penv evs (files w) s in
          let w1 := logWorld (lsLogs st) (setObject p (lsSession st) (setFiles (lsFiles st) w)) in
          match out with
          | Returned (Some err) =>
              logWorld [{| logLevel := LevelError; logMsg := "plugin start failed";
                           logAttr := Error err |}] w1
          | _ => w1
          end
      end
  end.

(** [StopPlugin], on the session object at [p]. *)
Definition stopSession (senv : stopEnv) (s : sdxSession) : sdxSession * option error :=
  match cmd s with
  | None => (withSession stop s, None)
  | Some c =>
      let s1 := markStopping s in
      match (if exited c then None else killErr senv) with
      | Some err => (s1, Some (Wrap err "failed to stop plugin process"))
      | None =>
          let s2 := withSession stop s1 in
          match ctx (session s2) with
          | Some _ => (s2, if callerDone senv then Some context_Canceled else None)
          | None => (s2, None)
          end
      end
  end.

Definition StopPlugin (senv : stopEnv) (w : World) (id : pluginID) : World * option error :=
  match sessions w !! id with
  | None => (w, Some notFound)
  | Some p =>
      match heap w !! p with
      | None => (w, None)
      | Some s => let '(s', err) := stopSession senv s in (setObject p s' w, err)
      end
  end.

Definition clearWorkdir (s : sdxSession) : sdxSession :=
  {| session := session s; workdir := ""; cmd := cmd s; stdin := stdin s;
     stopping := stopping s |}.

Definition Unload (senv : stopEnv) (w : World) (id : pluginID) : World * option error :=
  match sessions w !! id with
  | None => (w, Some notFound)
  | Some p =>
      let '(w1, err) := StopPlugin senv w id in
      let w2 := match err with
                | Some e => logWorld [{| logLevel := LevelWarn;
                                         logMsg := "failed to stop plugin during unload";
                                         logAttr := Error e |}] w1
                | None => w1
                end in
      let w3 := setSessions (delete id (sessions w2)) w2 in
      match heap w3 !! p with
      | None => (w3, None)
      | Some s =>
          if String.eqb (workdir s) "" then (w3, None)
          else (setObject p (clearWorkdir s) (setFiles (os.RemoveAll (files w3) (workdir s)) w3),
                None)
      end
  end.

End Runner.
End sdxRunner.

(** ** The registry of the WebAssembly runner: [wazeroRunner] *)

Record WazeroWorld := {
  wheap : gmap nat PluginSession;
  wsessions : gmap pluginID nat;
}.

Module wazeroRunner.

Definition notFound : error := New "plugin session not found".

Definition Unload (w : WazeroWorld) (id : pluginID) : WazeroWorld * option error :=
  match wsessions w !! id with
  | None => (w, Some notFound)
  | Some p =>
      ({| wheap := alter stop p (wheap w); wsessions := delete id (wsessions w) |}, None)
  end.

Definition GetSession (w : WazeroWorld) (id : pluginID) : result nat :=
  match wsessions w !! id with
  | None => Err notFound
  | Some p => OK p
  end.

End wazeroRunner.

(** ** The manager: [Manager.SetActiveState]

    The manager talks to two interfaces, the record store ([pluginQuerier])
    and the [Runner].  Its code is embedded as a program over the calls to
    them, so that a property can speak of the calls made, whatever the
    implementations answer. *)

(** [plugin.Record]: the identifier of the record and the manifest. *)
Record pluginRecord := { recordID : pluginID; recordManifest : Manifest }.

Inductive call :=
| QuerierGet (id : pluginID)
| QuerierLoadBinary (id : pluginID)
| RunnerGetSession (id : pluginID)
| RunnerLoad (bin : bytes)
| RunnerStartPlugin (id : pluginID)
| RunnerStopPlugin (id : pluginID).

Definition answer (c : call) : Type :=
  match c with
  | QuerierGet _ => result pluginRecord
  | QuerierLoadBinary _ => result bytes
  | RunnerGetSession _ => result nat
  | RunnerLoad _ => result nat
  | RunnerStartPlugin _ => option error
  | RunnerStopPlugin _ => option error
  end.

Inductive prog (A : Type) : Type :=
| Ret (a : A)
| Call (c : call) (k : answer c → prog A).
Arguments Ret {A} a.
Arguments Call {A} c k.

Definition isRunnerCall (c : call) : bool :=
  match c with
  | QuerierGet _ | QuerierLoadBinary _ => false
  | _ => true
  end.

(** An implementation of the two interfaces over a state [W]. *)
Definition handler (W : Type) : Type := ∀ c : call, W → answer c * W.

(** Running a program: its value, the state afterwards and the calls made,
    in order. *)
Fixpoint run {W A} (h : handler W) (m : prog A) (w : W) : A * W * list call :=
  match m with
  | Ret a => (a, w, [])
  | Call c k =>
      let '(r, w1) := h c w in
      let '(a, w2, t) := run h (k r) w1 in
      (a, w2, c :: t)
  end.

Fixpoint bind {A B} (m : prog A) (f : A → prog B) : prog B :=
  match m with
  | Ret a => f a
  | Call c k => Call c (λ r, bind (k r) f)
  end.

Global Instance prog_ret : MRet prog := @Ret.
Global Instance prog_bind : MBind prog := λ A B f m, bind m f.

Definition perform (c : call) : prog (answer c) := Call c Ret.

Module Manager.

Definition activatePlugin (rec : pluginRecord) : prog (option error) :=
  sess ← perform (RunnerGetSession (ID (recordManifest rec)));
  loaded ← match sess with
           | inl _ =>
               bin ← perform (QuerierLoadBinary (recordID rec));
               match bin with
               | inl err => mret (Some (WrapCtx err))
               | inr bin =>
                   r ← perform (RunnerLoad bin);
                   match r with
                   | inl err => mret (Some (WrapCtx err))
                   | inr _ => mret None
                   end
               end
           | inr _ => mret None
           end;
  match loaded with
  | Some err => mret (Some err)
  | None =>
      err ← perform (RunnerStartPlugin (ID (recordManifest rec)));
      match err with
      | Some e => mret (Some (WrapCtx e))
      | None => mret None
      end
  end.

Definition deactivatePlugin (rec : pluginRecord) : prog (option error) :=
  err ← perform (RunnerStopPlugin (ID (recordManifest rec)));
  match err with
  | Some e => mret (Some (WrapCtx e))
  | None => mret None
  end.

Definition SetActiveState (id : pluginID) (desiredState : ActiveState)
  : prog (option error) :=
  got ← perform (QuerierGet id);
  match got with
  | inl err => mret (Some (WrapCtx err))
  | inr rec =>
      if String.eqb (activeStateValue desiredState) "active" then
        err ← activatePlugin rec;
        match err with
        | Some e => mret (Some (WrapCtx e))
        | None => mret None
        end
      else if String.eqb (activeStateValue desiredState) "inactive" then
        err ← deactivatePlugin rec;
        match err with
        | Some e => mret (Some (WrapCtx e))
        | None => mret None
        end
      else mret (Some (New "unknown desired state"))
  end.

End Manager.

(** The subprocess runner and a record store as an implementation of the
    manager's interfaces. *)
Record Store := {
  records : gmap pluginID pluginRecord;
  binaries : gmap pluginID bytes;
}.

Definition sdxHandler `{Libs} (senv : stopEnv) (db : Store) : handler World :=
  λ c w,
    match c return answer c * World with
    | QuerierGet id =>
        (match records db !! id with
         | Some rec => OK rec
         | None => Err (New "plugin not found")
         end, w)
    | QuerierLoadBinary id =>
        (match binaries db !! id with
         | Some b => OK b
         | None => Err (New "plugin binary not found")
         end, w)
    | RunnerGetSession id => (sdxRunner.GetSession w id, w)
    | RunnerLoad b => let '(w', r) := sdxRunner.Load w b in (r, w')
    | RunnerStartPlugin id => let '(w', r) := sdxRunner.StartPlugin w id in (r, w')
    | RunnerStopPlugin id => let '(w', r) := sdxRunner.StopPlugin senv w id in (r, w')
    end.

(** ** Shapes of cleaned paths (used by the proofs) *)

Fixpoint hasSep (s : string) : bool :=
  match s with
  | EmptyString => false
  | String c s' => filepath.isSep c || hasSep s'
  end.

(** An element that [Clean] copies. *)
Definition normal (c : string) : Prop :=
  c ≠ "" ∧ c ≠ "." ∧ c ≠ ".." ∧ hasSep c = false.

(** An output of [cleanStep], last element first: elements that are not
    [..] on top of kept [..] elements, none of them in a rooted path. *)
Definition nfS (r : bool) (out : list string) : Prop :=
  ∃ n rest, out = rest ++ replicate n ".." ∧ Forall normal rest ∧ (r = true → n = 0).


(** ** Comparing file systems (used by the proofs) *)

(** [confined B fs fs']: every path that does not start with [B] is in [fs']
    what it is in [fs]. *)
Definition confined (B : string) (fs fs' : fsys) : Prop :=
  ∀ k, strings.HasPrefix k B = false → fs' !! k = fs !! k.

Definition isDirAt (fs : fsys) (k : string) : Prop :=
  ∃ p, os.lookupKey fs k = Some (DirNode p).

(** [dirsKept fs fs']: what is a directory stays one. *)
Definition dirsKept (fs fs' : fsys) : Prop :=
  ∀ k, isDirAt fs k → isDirAt fs' k.

(** The directory the entries are extracted into exists, and so does the
    directory it lies in. *)
Definition anchored (fs : fsys) (base : string) : Prop :=
  isDirAt fs (filepath.Clean base) ∧ isDirAt fs (filepath.Dir (filepath.Clean base)).


(** An entry name that resolves outside the directory [base]: joined to
    [base] it gives neither [base] nor a path below it. *)
Definition escapes (base name : string) : Prop :=
  filepath.Join base name ≠ base
  ∧ strings.HasPrefix (filepath.Join base name) (base +:+ "/") = false.

(** ** What an archive contains (used by the statements) *)

(** [file] is the first entry of [files] whose base name is
    [manifest.json]. *)
Definition firstManifest (files : list zipFile) (file : zipFile) : Prop :=
  ∃ pre post, files = pre ++ file :: post
    ∧ Forall (λ f, filepath.Base (Name f) ≠ "manifest.json") pre
    ∧ filepath.Base (Name file) = "manifest.json".

(** The entry opens and is read to its end, giving [data]. *)
Definition readsAs (file : zipFile) (data : bytes) : Prop :=
  ∃ rc, Open file = OK rc ∧ rcErr rc = None ∧ rcData rc = data.

Definition hasExecutable (files : list zipFile) : Prop :=
  ∃ f, f ∈ files
    ∧ (filepath.Base (Name f) = "main" ∨ filepath.Base (Name f) = "main.exe").

(** ** Reading a run (used by the statements) *)

Definition stateOf (st : loopState) : ReportedState :=
  reportedState (session (lsSession st)).
Definition noteOf (st : loopState) : string :=
  statusMessage (session (lsSession st)).
Definition pendingOf (st : loopState) : gmap xidID pendingCommand :=
  pendingCommands (session (lsSession st)).

(** The error the exit watcher reports for an exit nobody asked for. *)
Definition exitError (waitErr : option error) : error :=
  match waitErr with
  | Some e => Wrap e "process exited"
  | None => New "plugin exited unexpectedly"
  end.

(** The calls a program makes on the [Runner], in order. *)
Definition runnerCalls {W A} (h : handler W) (m : prog A) (w : W) : list call :=
  List.filter isRunnerCall (run h m w).2.

Definition resultOf {W A} (h : handler W) (m : prog A) (w : W) : A := (run h m w).1.1.

(** ** A small instance of the libraries (used to run the definitions)

    An archive is one byte that names a list of entries; a manifest is the
    text of its identifier; a response frame is [{] followed by its
    correlation identifier; an identifier has twenty characters. *)

Definition ascii_bytes (s : string) : bytes := list_byte_of_string s.

Definition demoEntry (name : string) (mode : N) (data : string) : zipFile :=
  {| Name := name; Mode := mode; Open := OK {| rcData := ascii_bytes data; rcErr := None |} |}.

Definition demoFiles (tag : byte) : result (list zipFile) :=
  match tag with
  | x01 => OK [demoEntry "plugin/manifest.json" 420 "p1"; demoEntry "plugin/main" 420 "ELF"]
  | x02 => OK [demoEntry "manifest.json" 420 "p1"]
  | x03 => OK [demoEntry "manifest.json" 420 "p1"; demoEntry "../evil" 420 "x";
               demoEntry "main" 493 "ELF"]
  | x04 => OK [demoEntry "main" 493 "ELF"]
  | x05 => OK [demoEntry "manifest.json" 420 "p1"; demoEntry "main" 493 "ELF";
               demoEntry "main/data" 420 "x"]
  | _ => Err (Foreign "zip: not a valid zip file")
  end.

Definition demoXid (s : string) : result xidID :=
  if Nat.eqb (String.length s) 20 then OK (Npos (encode s))
  else Err (Foreign "xid: invalid ID").

Global Instance demoLibs : Libs := {|
  zip_NewReader bin :=
    match bin with
    | [tag] => demoFiles tag
    | _ => Err (Foreign "zip: not a valid zip file")
    end;
  json_Unmarshal_Manifest data :=
    match data with
    | [] => Err (Foreign "unexpected end of JSON input")
    | _ => OK {| ID := string_of_list_byte data; manifestRest := "" |}
    end;
  json_Unmarshal_RPCResponse data :=
    match data with
    | _ :: (_ :: _) as rest =>
        OK {| responseID := string_of_list_byte rest; responseRest := "" |}
    | _ => Err (Foreign "unexpected end of JSON input")
    end;
  xid_FromString := demoXid;
|}.

Definition demoEnv : osEnv :=
  {| TempDir := "/tmp"; nextRandom := λ _, 42%N; mkdirTempFault := None;
     umask := 18; fault := λ _ _, false; shortWrite := λ _, 0 |}.

Definition demoFS : fsys := {[ "/tmp" := DirNode 511 ]}.

Definition demoProcEnv : procEnv :=
  {| extractEnv := demoEnv; stdoutPipeErr := None; stderrPipeErr := None;
     stdinPipeErr := None; startErr := None |}.

Definition emptyWorld : World :=
  {| files := demoFS; heap := ∅; brk := 0; sessions := ∅; goroutines := []; logs := [] |}.

(** The archive with a manifest and an executable, loaded; then started;
    then running. *)
Definition loadedWorld : World := (sdxRunner.Load emptyWorld [x01]).1.
Definition startedWorld : World := (sdxRunner.StartPlugin loadedWorld "p1").1.
Definition activeWorld : World := sdxRunner.runGoroutine demoProcEnv [] startedWorld.

(** The reported state of the session registered for [id]. *)
Definition reportedStateOf (w : World) (id : pluginID) : option ReportedState :=
  p ← sessions w !! id;
  s ← heap w !! p;
  Some (reportedState (session s)).

Definition sessionAt (w : World) (p : nat) : sdxSession :=
  default (newSDXSession (newSession [] {| ID := ""; manifestRest := "" |})) (heap w !! p).

(** A run in its dispatch loop with one command pending on channel 7. *)
Definition demoIdent : string := "9m4e2mr0ui3e8a215n4g".
Definition demoXidValue : xidID := Npos (encode demoIdent).

Definition demoPending : pendingCommand :=
  {| request := {| Method := "ping"; Params := "" |}; respch := 7 |}.

Definition demoLoop : loopState :=
  let s := sessionAt activeWorld 0 in
  enterLoop (files activeWorld)
    (withSession (setPending {[ demoXidValue := demoPending ]}) s).

Definition demoFrame (ident : string) : bytes := ascii_bytes ("{" +:+ ident).

(** The archive with an entry that escapes, loaded and started. *)
Definition escapingWorld : World :=
  sdxRunner.runGoroutine demoProcEnv []
    (sdxRunner.StartPlugin (sdxRunner.Load emptyWorld [x03]).1 "p1").1.

Definition demoStopEnv : stopEnv := {| killErr := None; callerDone := false |}.
Definition failingStopEnv : stopEnv :=
  {| killErr := Some (Foreign "operation not permitted"); callerDone := false |}.

Definition demoStore : Store :=
  {| records := {[ "p1" := {| recordID := "r1";
                              recordManifest := {| ID := "p1"; manifestRest := "" |} |} ]};
     binaries := {[ "r1" := [x01] ]} |}.

Definition demoWazero : WazeroWorld :=
  {| wheap := {[ 0 := setCtx (Some false) (newSession [] {| ID := "w1"; manifestRest := "" |}) ]};
     wsessions := {[ "w1" := 0 ]} |}.
(** ** Further vocabulary of the statements *)

(** A regular file at the key [k]. *)
Definition isFileAt (fs : fsys) (k : string) : Prop :=
  os.rootLike k = false ∧ ∃ p d, fs !! k = Some (FileNode p d).

(** [filesKept fs fs']: what is a regular file stays one. *)
Definition filesKept (fs fs' : fsys) : Prop :=
  ∀ k, isFileAt fs k → isFileAt fs' k.

(** The paths [os.RemoveAll(dir)] removes. *)
Definition atOrBelow (dir k : string) : Prop :=
  k = filepath.Clean dir ∨ strings.HasPrefix k (filepath.Clean dir +:+ "/") = true.

(** The messages of the errors the loop over the entries wraps. *)
Definition extractionMessages : list string :=
  ["failed to create dir"; "failed to create parent dir";
   "failed to open file in archive"; "failed to create extracted file";
   "failed to copy archive contents"].

(** Membership in a list written out. *)
Ltac in_list := repeat (apply elem_of_cons; first [left; reflexivity | right]).

(** *** The runner as a whole *)

(** [newSDXRunner]: no session yet. *)
Definition newSDXRunner (fs : fsys) : World :=
  {| files := fs; heap := ∅; brk := 0; sessions := ∅; goroutines := []; logs := [] |}.

(** What can happen to a runner: the calls of its interface and the
    scheduler running the oldest goroutine. *)
Inductive runnerOp :=
| OpLoad (bin : bytes)
| OpStartPlugin (id : pluginID)
| OpStopPlugin (senv : stopEnv) (id : pluginID)
| OpUnload (senv : stopEnv) (id : pluginID)
| OpSchedule (penv : procEnv) (evs : list event).

Definition runOp `{Libs} (w : World) (op : runnerOp) : World :=
  match op with
  | OpLoad bin => (sdxRunner.Load w bin).1
  | OpStartPlugin id => (sdxRunner.StartPlugin w id).1
  | OpStopPlugin senv id => (sdxRunner.StopPlugin senv w id).1
  | OpUnload senv id => (sdxRunner.Unload senv w id).1
  | OpSchedule penv evs => sdxRunner.runGoroutine penv evs w
  end.

(** The fields [Load] sets and nothing writes afterwards. *)
Definition sameIdentity (s s' : PluginSession) : Prop :=
  id s' = id s ∧ bin s' = bin s ∧ manifest s' = manifest s ∧ runType s' = runType s.

(** A session as [Load] makes it: its archive validates to its manifest, it
    is known by the identifier of the manifest and it runs in the
    background. *)
Definition wellLoaded `{Libs} (s : PluginSession) : Prop :=
  Validate (bin s) = OK (manifest s) ∧ id s = ID (manifest s)
  ∧ runType s = RunTypeBackground.

(** The registry and the goroutines point at session objects that exist and
    carry the identifier they are filed under. *)
Definition consistent `{Libs} (w : World) : Prop :=
  (∀ p s, heap w !! p = Some s → p < brk w ∧ wellLoaded (session s))
  ∧ (∀ i p, sessions w !! i = Some p → ∃ s, heap w !! p = Some s ∧ id (session s) = i)
  ∧ (∀ i p, (i, p) ∈ goroutines w → ∃ s, heap w !! p = Some s ∧ id (session s) = i).

(** *** The dispatch loop *)

(** An event after which the loop is still running: every event but the
    three cases of the [select] that return. *)
Definition quiet (ev : event) : bool :=
  match ev with
  | Selected (SelOutchan (Some _)) _ => true
  | Selected _ _ => false
  | _ => true
  end.

(** A failure of the writer pump or of the output pump. *)
Definition pumpFailure (ev : event) : bool :=
  match ev with
  | WriteFailed _ | ReadFailed _ => true
  | _ => false
  end.

(** A quiet event that neither sends on the error channel nor cancels the
    context: a stop request, a line of output, the stderr pump. *)
Definition silent (ev : event) : bool :=
  match ev with
  | ProcessExited _ | WriteFailed _ | ReadFailed _ | ContextCancelled => false
  | _ => quiet ev
  end.

(** Lines of output, each with the case its delivery would take. *)
Definition outputs (lines : list (bytes * respSelected)) : list event :=
  map (λ l, Selected (SelOutchan (Some l.1)) l.2) lines.

Definition isSelected (ev : event) : bool :=
  match ev with Selected _ _ => true | _ => false end.

(** *** More of the small instance *)

(** A decoder of archives that yields the given entries; the other
    decoders are those of [demoLibs]. *)
Definition archiveOf (files : list zipFile) : Libs :=
  {| zip_NewReader := λ _, OK files;
     json_Unmarshal_Manifest := @json_Unmarshal_Manifest demoLibs;
     json_Unmarshal_RPCResponse := @json_Unmarshal_RPCResponse demoLibs;
     xid_FromString := @xid_FromString demoLibs |}.

(** A directory entry ([fs.ModeDir] is bit 31) and an entry whose stream
    breaks. *)
Definition demoDirEntry (name : string) : zipFile :=
  {| Name := name; Mode := N.lor (N.shiftl 1 31) 493;
     Open := OK {| rcData := []; rcErr := None |} |}.

Definition demoBrokenEntry (name : string) : zipFile :=
  {| Name := name; Mode := 420;
     Open := OK {| rcData := []; rcErr := Some (Foreign "zip: checksum error") |} |}.

Definition demoWorkdir : string := "/tmp/storyden-sdx-42".
Definition demoExtractFS : fsys := (os.MkdirTemp demoEnv demoFS "storyden-sdx-").1.

Definition demoManifest : Manifest := {| ID := "p1"; manifestRest := "" |}.

(** The process of the running session of [activeWorld]. *)
Definition demoCmd : Cmd :=
  {| cmdPath := "/tmp/storyden-sdx-42/plugin/main"; cmdDir := "/tmp/storyden-sdx-42/plugin";
     exited := false |}.

(** The process exits and the loop takes the exit watcher's message. *)
Definition demoExit : list event := [ProcessExited None; Selected SelErrCh SelRespch].


(** * Properties *)

(** ** The path functions on the examples of their documentation *)

Example Clean_examples :
  map filepath.Clean
    ["abc"; "abc/def"; "."; ".."; "../../abc"; "/abc"; "/"; ""; "abc/"; "a/b/c/"; "./";
     "../"; "/abc/"; "abc//def//ghi"; "//abc"; "abc/./def"; "/./abc/def"; "abc/.";
     "abc/def/ghi/../jkl"; "abc/def/../ghi/../jkl"; "abc/def/.."; "abc/def/../..";
     "/abc/def/../.."; "abc/def/../../.."; "/abc/def/../../..";
     "abc/def/../../../ghi/jkl/../../../mno"; "/../abc"; "abc/./../def";
     "abc/../../././../def"]
  = ["abc"; "abc/def"; "."; ".."; "../../abc"; "/abc"; "/"; "."; "abc"; "a/b/c"; ".";
     ".."; "/abc"; "abc/def/ghi"; "/abc"; "abc/def"; "/abc/def"; "abc";
     "abc/def/jkl"; "abc/jkl"; "abc"; "."; "/"; ".."; "/"; "../../mno"; "/abc"; "def";
     "../../def"].
Proof. reflexivity. Qed.

Example Base_examples :
  map filepath.Base [""; "."; "/."; "/"; "////"; "x/"; "abc"; "abc/def"; "a/b/.x"; "a/b/c.x"]
  = ["."; "."; "."; "/"; "/"; "x"; "abc"; "def"; ".x"; "c.x"].
Proof. reflexivity. Qed.

Example Dir_examples :
  map filepath.Dir [""; "."; "/."; "/"; "/foo"; "x/"; "abc"; "abc/def"; "a/b/.x"; "////"]
  = ["."; "."; "/"; "/"; "/"; "x"; "."; "abc"; "a/b"; "/"].
Proof. reflexivity. Qed.

Example Join_examples :
  map (filepath.Join "/tmp/w") ["main"; "a/../b"; "../evil"; "../w-evil/x"; "/etc/passwd"; ""]
  = ["/tmp/w/main"; "/tmp/w/b"; "/tmp/evil"; "/tmp/w-evil/x"; "/tmp/w/etc/passwd"; "/tmp/w"].
Proof. reflexivity. Qed.

(** A name with [..] that leaves the directory is refused, also when the
    path it resolves to starts with the characters of the directory; an
    absolute name is joined below the directory like any other name. *)
Example joinWithin_examples :
  map (joinWithin "/tmp/w") ["../evil"; "../w-evil/x"; "a/../../../etc/passwd"]
  = replicate 3 (Err (New "archive entry escapes extraction directory"))
  ∧ map (joinWithin "/tmp/w") ["main"; "a/../b"; "/etc/passwd"; "."]
    = [OK "/tmp/w/main"; OK "/tmp/w/b"; OK "/tmp/w/etc/passwd"; OK "/tmp/w"].
Proof. split; reflexivity. Qed.

(** The archive with [plugin/manifest.json] and [plugin/main] validates,
    extracts below a fresh directory and comes up [active]. *)
Example demo_run :
  Validate [x01] = OK {| ID := "p1"; manifestRest := "" |}
  ∧ (extractSDXArchive demoEnv demoFS [x01]).2
    = OK ("/tmp/storyden-sdx-42", "/tmp/storyden-sdx-42/plugin/main")
  ∧ (extractSDXArchive demoEnv demoFS [x01]).1 !! "/tmp/storyden-sdx-42/plugin/main"
    = Some (FileNode 493 (ascii_bytes "ELF"))
  ∧ reportedStateOf activeWorld "p1" = Some ReportedStateActive.
Proof. split_and!; vm_compute; reflexivity. Qed.

(** What [Validate] answers for an archive without executable, one without
    manifest and one that is no zip file. *)
Example Validate_examples :
  Validate [x02]
  = Err (Wrap (New "plugin archive missing main executable") "plugin binary missing")
  ∧ Validate [x04]
    = Err (Wrap (New "manifest.json not found in plugin archive") "failed to read manifest")
  ∧ Validate [x00]
    = Err (Wrap (Wrap (Foreign "zip: not a valid zip file") "failed to open archive")
             "failed to read manifest").
Proof. split_and!; reflexivity. Qed.

(** An entry below an entry that is a file: the file system refuses the
    directory and extraction stops there. *)
Example extract_file_in_the_way :
  (extractSDXArchive demoEnv demoFS [x05]).2
  = Err (Wrap (PathError "mkdir" "/tmp/storyden-sdx-42/main" ENOTDIR)
           "failed to create parent dir").
Proof. vm_compute. reflexivity. Qed.

(** A requested stop of the running demo session: the flag is set, the
    process is killed, and the loop ends [inactive] without an error. *)
Example stop_then_exit :
  let '(st, out) :=
    runLoop [StopRequested; ProcessExited (Some (Foreign "signal: killed"));
             ContextCancelled; Selected SelErrCh SelRespch] demoLoop in
  out = Returned None ∧ stateOf st = ReportedStateInactive
  ∧ workdir (lsSession st) = "" ∧ lsFiles st = demoFS.
Proof. vm_compute. split_and!; reflexivity. Qed.

(** The text of an error: a [*fs.PathError] inside a [fault] chain is
    followed by the text of the error number it wraps. *)
Example Error_examples :
  Error (PathError "mkdir" "/tmp/storyden-sdx-42/main" ENOTDIR)
  = "mkdir /tmp/storyden-sdx-42/main: not a directory"
  ∧ Error (Wrap (Wrap (PathError "mkdir" "/tmp/storyden-sdx-42/main" ENOTDIR)
                   "failed to create parent dir") "failed to extract plugin")
    = "failed to extract plugin: failed to create parent dir: "
      +:+ "mkdir /tmp/storyden-sdx-42/main: not a directory: not a directory"
  ∧ Error (WrapCtx (Wrap (New "plugin session not found") "failed to stop"))
    = "failed to stop: plugin session not found".
Proof. split_and!; reflexivity. Qed.

(** New files and directories under the umask [0o022]: for a file,
    [0o666] gives [0o644], [0o777] gives [0o755] and the set-user-ID bit is
    passed on; the directories made with [0o755] and [0o700] keep these
    bits, one made with [0o777] gets [0o755]. *)
Example created_examples :
  map (os.created demoEnv) [438; 511; N.lor (N.shiftl 1 23) 493]%N
  = [420; 493; 2048 + 493]%N
  ∧ map (os.createdDir demoEnv) [493; 448; 511]%N = [493; 448; 493]%N.
Proof. split; reflexivity. Qed.

(** [MkdirTemp] when the temporary directory is missing, and when all the
    names it tries are taken. *)
Example MkdirTemp_examples :
  os.MkdirTemp demoEnv ∅ "storyden-sdx-" = (∅, Err (PathError "stat" "/tmp" ENOENT))
  ∧ (os.MkdirTemp demoEnv (<["/tmp/storyden-sdx-42" := FileNode 420 []]> demoFS)
       "storyden-sdx-").2
    = Err (PathError "mkdirtemp" "/tmp//tmp/storyden-sdx-*" ErrExist).
Proof. split; vm_compute; reflexivity. Qed.

(** ** Cleaned paths

    Every result of [Clean] is the rendering of a list of elements without
    separators in which [..] occurs only in front (and not at all in a
    rooted path); [Clean] is the identity on such renderings. *)

Section Paths.
Import filepath strings.

Lemma split_nonnil s : split s ≠ [].
Proof. destruct s as [|c s]; simpl; [done|]. destruct (isSep c); [done|]. by destruct (split s). Qed.

Lemma split_cons s c : isSep c = false → ∃ h t, split s = h :: t ∧ split (String c s) = String c h :: t.
Proof.
  intros Hc. destruct (split s) as [|h t] eqn:E; [by apply split_nonnil in E|].
  exists h, t. split; [done|]. simpl. by rewrite Hc, E.
Qed.

Lemma split_hasSep s : Forall (λ c, hasSep c = false) (split s).
Proof.
  induction s as [|c s IH]; simpl; [by repeat constructor|].
  destruct (isSep c) eqn:Hc; [by constructor|].
  destruct (split s) as [|h t]; [by repeat constructor; simpl; rewrite Hc|].
  inversion IH; subst. constructor; [simpl; by rewrite Hc|done].
Qed.

Lemma split_app_sep a b : split (a +:+ "/" +:+ b) = split a ++ split b.
Proof.
  induction a as [|c a IH]; [done|].
  change (String c a +:+ "/" +:+ b) with (String c (a +:+ "/" +:+ b)).
  simpl. rewrite IH. destruct (isSep c); [done|].
  destruct (split a) as [|h t] eqn:E; [by apply split_nonnil in E|done].
Qed.

Lemma split_noSep c : hasSep c = false → split c = [c].
Proof.
  induction c as [|a c IH]; simpl; [done|].
  intros [Ha Hc]%orb_false_iff. rewrite Ha, (IH Hc). done.
Qed.

Lemma join_cons c cs : cs ≠ [] → join (c :: cs) = c +:+ "/" +:+ join cs.
Proof. by destruct cs. Qed.

Lemma split_join cs : cs ≠ [] → Forall (λ c, hasSep c = false) cs → split (join cs) = cs.
Proof.
  induction cs as [|c cs IH]; [done|]. intros _ Hall. inversion Hall; subst.
  destruct cs as [|c' cs]; [by apply split_noSep|].
  rewrite join_cons by done. rewrite split_app_sep, split_noSep by done.
  rewrite IH by done. done.
Qed.

Lemma join_split s : join (split s) = s.
Proof.
  induction s as [|c s IH]; [done|]. simpl.
  destruct (isSep c) eqn:Hc.
  - rewrite join_cons by apply split_nonnil. rewrite IH.
    unfold isSep in Hc. apply Ascii.eqb_eq in Hc. by subst.
  - destruct (split s) as [|h t] eqn:E; [by apply split_nonnil in E|].
    destruct t as [|h' t]; simpl in *; [by subst|].
    by rewrite <- IH.
Qed.

Lemma HasPrefix_spec s p : HasPrefix s p = true ↔ ∃ r, s = p +:+ r.
Proof.
  revert s. induction p as [|a p IH]; intros s; simpl.
  - split; [intros _; by exists s|done].
  - destruct s as [|b s]; [split; [done|by intros [r Hr]]|].
    rewrite andb_true_iff, Ascii.eqb_eq, IH. split.
    + intros [-> [r ->]]. by exists r.
    + intros [r Hr]. injection Hr as -> ->. eauto.
Qed.

Lemma app_assoc' (a b c : string) : (a +:+ b) +:+ c = a +:+ b +:+ c.
Proof. induction a; simpl; [done|]. unfold String.app in *. simpl. by f_equal. Qed.

Lemma normal_noSep c : normal c → hasSep c = false.
Proof. by intros (_&_&_&?). Qed.

Lemma cleanStep_normal r out c : normal c → cleanStep r out c = c :: out.
Proof.
  intros (H1&H2&H3&_). unfold cleanStep.
  apply String.eqb_neq in H1, H2, H3. by rewrite H1, H2, H3.
Qed.

Lemma nfS_nil r : nfS r [].
Proof. exists 0, []. by repeat split. Qed.

Lemma nfS_tail r x out : nfS r (x :: out) → nfS r out.
Proof.
  intros (n & rest & E & Hn & Hr). destruct rest as [|y rest]; simpl in E.
  - destruct n as [|n]; [done|]. simpl in E. injection E as _ ->.
    exists n, []. repeat split; [done|]. intros Hr'. by specialize (Hr Hr').
  - injection E as _ ->. inversion Hn; subst. by exists n, rest.
Qed.

Lemma nfS_suffix r o2 o1 : nfS r (o2 ++ o1) → nfS r o1.
Proof. induction o2; simpl; [done|]. intros H%nfS_tail. auto. Qed.

Lemma nfS_push r out c : nfS r out → normal c → nfS r (c :: out).
Proof.
  intros (n & rest & -> & Hn & Hr) Hc. exists n, (c :: rest). repeat split; auto.
Qed.

Lemma cleanStep_nf r out c : nfS r out → hasSep c = false → nfS r (cleanStep r out c).
Proof.
  intros Hnf Hc. unfold cleanStep.
  destruct (String.eqb c "") eqn:E1; [done|].
  destruct (String.eqb c ".") eqn:E2; [done|]. simpl.
  destruct (String.eqb c "..") eqn:E3.
  - destruct out as [|top out'].
    + destruct r; [apply nfS_nil|]. exists 1, []. by repeat split.
    + destruct (String.eqb top "..") eqn:E4.
      * destruct r; [done|]. apply String.eqb_eq in E4 as ->.
        destruct Hnf as (n & rest & E & Hn & Hr).
        destruct rest as [|y rest]; simpl in E.
        -- exists (S n), []. simpl. rewrite <- E. by repeat split.
        -- injection E as <- _. inversion Hn as [|?? (_&_&?&_) _]; by subst.
      * by apply nfS_tail in Hnf.
  - apply nfS_push; [done|]. apply String.eqb_neq in E1, E2, E3. by repeat split.
Qed.

Lemma fold_cleanStep_nf r cs out :
  nfS r out → Forall (λ c, hasSep c = false) cs → nfS r (fold_left (cleanStep r) cs out).
Proof.
  revert out. induction cs as [|c cs IH]; intros out Hnf Hall; simpl; [done|].
  inversion Hall; subst. apply IH; [|done]. by apply cleanStep_nf.
Qed.

(** the canonical shape of every cleaned path *)
Lemma Clean_shape s : ∃ r out, nfS r out ∧ Clean s = render r (reverse out).
Proof.
  destruct s as [|a s].
  - exists false, []. split; [apply nfS_nil|done].
  - eexists _, _. split; [|reflexivity].
    apply fold_cleanStep_nf; [apply nfS_nil|apply split_hasSep].
Qed.

Lemma fold_cleanStep_normal r cs out :
  Forall normal cs → fold_left (cleanStep r) cs out = reverse cs ++ out.
Proof.
  revert out. induction cs as [|c cs IH]; intros out Hall; simpl; [done|].
  inversion Hall; subst. rewrite IH, cleanStep_normal by done.
  by rewrite reverse_cons, <- app_assoc.
Qed.

Lemma fold_cleanStep_dotdots n m :
  fold_left (cleanStep false) (replicate n "..") (replicate m "..") = replicate (n + m) "..".
Proof.
  revert m. induction n as [|n IH]; intros m; [done|].
  cbn [replicate fold_left].
  replace (cleanStep false (replicate m "..") "..") with (replicate (S m) "..")
    by (by destruct m).
  rewrite IH. f_equal. lia.
Qed.

(** folding the components of a normal form rebuilds its stack *)
Lemma fold_cleanStep_reverse r out :
  nfS r out → fold_left (cleanStep r) (reverse out) [] = out.
Proof.
  intros (n & rest & -> & Hn & Hr).
  rewrite reverse_app, reverse_replicate, fold_left_app.
  destruct r.
  - rewrite (Hr eq_refl). simpl. rewrite fold_cleanStep_normal.
    + by rewrite reverse_involutive.
    + by apply Forall_reverse.
  - change (@nil string) with (replicate 0 "..") at 1.
    rewrite fold_cleanStep_dotdots, fold_cleanStep_normal.
    + rewrite reverse_involutive. f_equal. f_equal. lia.
    + by apply Forall_reverse.
Qed.

Lemma nfS_hasSep r out : nfS r out → Forall (λ c, hasSep c = false) out.
Proof.
  intros (n & rest & -> & Hn & _). apply Forall_app. split.
  - eapply Forall_impl; [exact Hn|]. intros c. apply normal_noSep.
  - apply Forall_forall. intros x Hx%elem_of_replicate. by destruct Hx as [-> _].
Qed.

Lemma nfS_nonempty r out c : nfS r out → c ∈ out → c ≠ "".
Proof.
  intros (n & rest & -> & Hn & _) [Hc|Hc]%elem_of_app.
  - rewrite Forall_forall in Hn. by destruct (Hn _ Hc).
  - apply elem_of_replicate in Hc as [-> _]. done.
Qed.

Lemma nfS_head_char r out c cs :
  nfS r out → reverse out = c :: cs → ∃ a s, c = String a s ∧ isSep a = false.
Proof.
  intros Hnf E.
  assert (c ∈ out) as Hc.
  { apply elem_of_reverse. rewrite E. by left. }
  pose proof (nfS_nonempty _ _ _ Hnf Hc) as Hne.
  pose proof (nfS_hasSep _ _ Hnf) as Hall. rewrite Forall_forall in Hall.
  specialize (Hall _ Hc). destruct c as [|a c]; [done|].
  simpl in Hall. apply orb_false_iff in Hall as [Ha _]. eauto.
Qed.

Lemma join_head a s cs : join (String a s :: cs) = String a (join (s :: cs)).
Proof. by destruct cs. Qed.

Lemma Clean_render r out :
  nfS r out → Clean (render r (reverse out)) = render r (reverse out).
Proof.
  intros Hnf. pose proof (fold_cleanStep_reverse _ _ Hnf) as Hfold.
  pose proof (nfS_hasSep _ _ Hnf) as Hsep. apply Forall_reverse in Hsep.
  destruct r; unfold render.
  - unfold Clean. change ("/" +:+ join (reverse out)) with (String "/" (join (reverse out))).
    cbn [rooted split]. replace (isSep "/") with true by done.
    destruct (reverse out) as [|c cs] eqn:E.
    + apply (f_equal reverse) in E. rewrite reverse_involutive in E. by subst.
    + rewrite split_join by done.
      change (fold_left (cleanStep true) ("" :: c :: cs) [])
        with (fold_left (cleanStep true) (c :: cs) []).
      rewrite Hfold, E. done.
  - destruct (reverse out) as [|c cs] eqn:E; [done|].
    destruct (nfS_head_char _ _ _ _ Hnf E) as (a & s & -> & Ha).
    unfold Clean. rewrite join_head. unfold rooted. rewrite Ha, <- join_head.
    rewrite split_join by done. rewrite Hfold, E. done.
Qed.

Theorem Clean_idempotent s : Clean (Clean s) = Clean s.
Proof. destruct (Clean_shape s) as (r & out & Hnf & ->). by apply Clean_render. Qed.

Lemma str_app_nil_r (s : string) : s +:+ "" = s.
Proof. induction s as [|a s IH]; [done|]. change (String a (s +:+ "") = String a s). by rewrite IH. Qed.

Lemma str_app_cons a (s t : string) : String a s +:+ t = String a (s +:+ t).
Proof. done. Qed.

Lemma str_app_eq_nil (s t : string) : s +:+ t = "" → s = "" ∧ t = "".
Proof. destruct s; [done|]. by rewrite str_app_cons. Qed.

Lemma join_app cs1 cs2 :
  cs1 ≠ [] → cs2 ≠ [] → join (cs1 ++ cs2) = join cs1 +:+ "/" +:+ join cs2.
Proof.
  intros H1 H2. induction cs1 as [|c cs1 IH]; [done|].
  destruct cs1 as [|c' cs1].
  - simpl app. by rewrite join_cons.
  - change ((c :: c' :: cs1) ++ cs2) with (c :: (c' :: cs1) ++ cs2).
    rewrite join_cons by done. rewrite IH by done.
    rewrite (join_cons c (c' :: cs1)) by done.
    by rewrite !app_assoc'.
Qed.

Lemma render_app r cs1 cs2 :
  cs1 ≠ [] → cs2 ≠ [] → render r (cs1 ++ cs2) = render r cs1 +:+ "/" +:+ join cs2.
Proof.
  intros H1 H2. unfold render. rewrite join_app by done.
  destruct r.
  - by rewrite app_assoc'.
  - destruct cs1 as [|c cs1]; [done|]. done.
Qed.

Lemma dirPrefix_noSep c : hasSep c = false → dirPrefix c = "".
Proof.
  induction c as [|a c IH]; [done|]. simpl.
  intros [Ha Hc]%orb_false_iff. by rewrite (IH Hc), Ha.
Qed.

Lemma dirPrefix_app x c : hasSep c = false → dirPrefix (x +:+ "/" +:+ c) = x +:+ "/".
Proof.
  intros Hc. induction x as [|a x IH].
  - change ("" +:+ "/" +:+ c) with (String "/" c). cbn [dirPrefix].
    by rewrite dirPrefix_noSep.
  - change (String a x +:+ "/" +:+ c) with (String a (x +:+ "/" +:+ c)).
    cbn [dirPrefix]. rewrite IH. destruct x; done.
Qed.

Lemma Clean_trailing x : x ≠ "" → Clean (x +:+ "/") = Clean x.
Proof.
  destruct x as [|a x]; [done|]. intros _.
  change (String a x +:+ "/") with (String a x +:+ "/" +:+ "").
  unfold Clean. rewrite str_app_cons. rewrite <- str_app_cons.
  rewrite split_app_sep, fold_left_app. done.
Qed.

Lemma Dir_render r c out :
  nfS r (c :: out) → Dir (render r (reverse (c :: out))) = render r (reverse out).
Proof.
  intros Hnf. pose proof (nfS_tail _ _ _ Hnf) as Hnf'.
  assert (hasSep c = false) as Hc.
  { pose proof (nfS_hasSep _ _ Hnf) as H. by inversion H. }
  rewrite reverse_cons. unfold Dir.
  destruct (reverse out) as [|c' cs] eqn:E.
  - destruct r; simpl.
    + change ("/" +:+ c) with (String "/" c). simpl. by rewrite dirPrefix_noSep.
    + by rewrite dirPrefix_noSep.
  - rewrite render_app by done. simpl join.
    rewrite dirPrefix_app by done. rewrite Clean_trailing.
    + rewrite <- E. by apply Clean_render.
    + destruct r; [done|]. 
      destruct (nfS_head_char _ _ _ _ Hnf' E) as (a & s & -> & _).
      unfold render. by rewrite join_head.
Qed.

Lemma render_cut r out base rest :
  nfS r out → base ≠ "" → render r (reverse out) = base +:+ "/" +:+ rest →
  ∃ o1 o2, out = o2 ++ o1 ∧ o1 ≠ [] ∧ o2 ≠ [] ∧ base = render r (reverse o1).
Proof.
  intros Hnf Hb E.
  assert (∀ cs b, reverse out = cs → join cs = b +:+ "/" +:+ rest → b ≠ "" →
     out = reverse (split rest) ++ reverse (split b)) as Hkey.
  { intros cs b Ecs Ej Hbne.
    destruct cs as [|c cs].
    - symmetry in Ej. apply str_app_eq_nil in Ej as [_ Ej]. done.
    - apply (f_equal split) in Ej. rewrite split_app_sep in Ej.
      rewrite split_join in Ej; [|done|].
      + rewrite <- reverse_app, <- Ej, <- Ecs. by rewrite reverse_involutive.
      + rewrite <- Ecs. apply Forall_reverse. by eapply nfS_hasSep. }
  assert (∀ s, reverse (split s) ≠ []) as Hne.
  { intros s H. apply (f_equal reverse) in H. rewrite reverse_involutive in H.
    by apply split_nonnil in H. }
  destruct r; unfold render in E.
  - destruct base as [|a b]; [done|].
    change ("/" +:+ join (reverse out)) with (String "/" (join (reverse out))) in E.
    rewrite str_app_cons in E. injection E as <- E.
    destruct (decide (b = "")) as [->|Hbne].
    + exfalso. destruct (reverse out) as [|c cs] eqn:Ecs; [done|].
      destruct (nfS_head_char _ _ _ _ Hnf Ecs) as (a & s & -> & Ha).
      rewrite join_head in E. by injection E as -> _.
    + exists (reverse (split b)), (reverse (split rest)).
      split; [exact (Hkey _ b eq_refl E Hbne)|]. repeat split; [done..|].
      unfold render. by rewrite reverse_involutive, join_split.
  - destruct (reverse out) as [|c cs] eqn:Ecs.
    + destruct base as [|a b]; [done|]. rewrite str_app_cons in E.
      injection E as _ E. symmetry in E. apply str_app_eq_nil in E as [_ E]. done.
    + exists (reverse (split base)), (reverse (split rest)).
      split; [exact (Hkey (c :: cs) base eq_refl E Hb)|]. repeat split; [done..|].
      unfold render. rewrite reverse_involutive, join_split.
      destruct (split base) eqn:Es; [by apply split_nonnil in Es|done].
Qed.

(** a cleaned path strictly below [base]: [base] is itself clean, and the
    parent directory of the path is [base] or again strictly below it *)
Lemma within_parent t base :
  Clean t = t → base ≠ "" → HasPrefix t (base +:+ "/") = true →
  Clean base = base ∧ (Dir t = base ∨ HasPrefix (Dir t) (base +:+ "/") = true).
Proof.
  intros Ht Hb [rest E]%HasPrefix_spec.
  destruct (Clean_shape t) as (r & out & Hnf & Hs). rewrite Ht in Hs.
  rewrite Hs in E |- *. clear Hs Ht t. rewrite app_assoc' in E.
  destruct (render_cut _ _ _ _ Hnf Hb E) as (o1 & o2 & -> & H1 & H2 & ->).
  split; [apply Clean_render; by eapply nfS_suffix|].
  destruct o2 as [|c o2]; [done|].
  change ((c :: o2) ++ o1) with (c :: (o2 ++ o1)).
  rewrite Dir_render by done.
  destruct o2 as [|c' o2]; [by left|]. right.
  rewrite reverse_app, render_app.
  - apply HasPrefix_spec. eexists. by rewrite app_assoc'.
  - intros H. apply (f_equal reverse) in H. by rewrite reverse_involutive in H.
  - intros H. apply (f_equal reverse) in H. by rewrite reverse_involutive in H.
Qed.

End Paths.

(** ** The file system operations write where they are told to *)

Section FileSystem.
Import filepath strings.

Lemma confined_refl B fs : confined B fs fs.
Proof. by intros k Hk. Qed.

Lemma confined_trans B fs1 fs2 fs3 :
  confined B fs1 fs2 → confined B fs2 fs3 → confined B fs1 fs3.
Proof.
  intros H12 H23 k Hk. by rewrite H23, H12.
Qed.

Lemma dirsKept_refl fs : dirsKept fs fs.
Proof. by intros k Hk. Qed.

Lemma dirsKept_trans fs1 fs2 fs3 :
  dirsKept fs1 fs2 → dirsKept fs2 fs3 → dirsKept fs1 fs3.
Proof. intros H12 H23 k Hk. auto. Qed.

(** Writing a node at a key that is not a directory. *)
Lemma insert_confined B fs k n :
  HasPrefix k B = true → confined B fs (<[k := n]> fs).
Proof.
  intros Hk q Hq. destruct (decide (k = q)) as [<-|NE]; [congruence|].
  by rewrite lookup_insert_ne.
Qed.

Lemma insert_dirsKept fs k n :
  ¬ isDirAt fs k → dirsKept fs (<[k := n]> fs).
Proof.
  intros Hk q [p Hq]. destruct (decide (k = q)) as [<-|NE].
  - destruct Hk. by exists p.
  - exists p. unfold os.lookupKey in *. destruct (os.rootLike q); [done|].
    by rewrite lookup_insert_ne.
Qed.

Lemma lookupKey_None_not_dir fs k : os.lookupKey fs k = None → ¬ isDirAt fs k.
Proof. intros E [p Hp]. congruence. Qed.

Lemma lookupKey_file_not_dir fs k p d :
  os.lookupKey fs k = Some (FileNode p d) → ¬ isDirAt fs k.
Proof. intros E [p' Hp]. congruence. Qed.

Lemma mkdirKey_spec B fs k perm fs' e :
  os.mkdirKey fs k perm = (fs', e) →
  dirsKept fs fs' ∧ (HasPrefix k B = true → confined B fs fs').
Proof.
  unfold os.mkdirKey. intros E.
  destruct (os.lookupKey fs k) as [n|] eqn:Ek.
  { injection E as <- <-. split; [apply dirsKept_refl|intros; apply confined_refl]. }
  destruct (os.lookupKey fs (Dir k)) as [[p|p d]|];
    injection E as <- <-;
    try (split; [apply dirsKept_refl|intros; apply confined_refl]).
  split.
  - apply insert_dirsKept. by apply lookupKey_None_not_dir.
  - intros Hk. by apply insert_confined.
Qed.

(** [MkdirAll] stops at the first directory that exists: it creates only
    the paths in front of it. *)
Lemma mkdirChain_spec B fs pre d post perm fs' e :
  Forall (λ q, HasPrefix q B = true) pre →
  isDirAt fs d →
  os.mkdirChain fs (pre ++ d :: post) perm = (fs', e) →
  dirsKept fs fs' ∧ confined B fs fs'.
Proof.
  intros Hpre [pd Hd]. revert fs' e.
  induction pre as [|q pre IH]; intros fs' e E; simpl in E.
  - rewrite Hd in E. injection E as <- <-. split; [apply dirsKept_refl|apply confined_refl].
  - inversion Hpre as [|?? Hq Hpre']; subst.
    destruct (os.lookupKey fs q) as [[p|p dat]|] eqn:Eq.
    + injection E as <- <-. split; [apply dirsKept_refl|apply confined_refl].
    + injection E as <- <-. split; [apply dirsKept_refl|apply confined_refl].
    + destruct (os.mkdirChain fs (pre ++ d :: post) perm) as [fs1 [e1|]] eqn:E1.
      * injection E as <- <-. by eapply IH.
      * destruct (IH Hpre' _ _ eq_refl) as [K1 C1].
        destruct (mkdirKey_spec B _ _ _ _ _ E) as [K2 C2].
        split; [by eapply dirsKept_trans|].
        eapply confined_trans; [done|]. by apply C2.
Qed.

Lemma cuts0_app b rest :
  os.cuts0 (b +:+ "/" +:+ rest)
  = os.cuts0 b ++ b :: map (λ q, b +:+ "/" +:+ q) (os.cuts0 rest).
Proof.
  induction b as [|c b IH].
  - change ("" +:+ "/" +:+ rest) with (String "/" rest). cbn [os.cuts0].
    replace (isSep "/") with true by done. simpl. f_equal.
  - change (String c b +:+ "/" +:+ rest) with (String c (b +:+ "/" +:+ rest)).
    cbn [os.cuts0]. rewrite IH, map_app, <- app_assoc. f_equal. f_equal.
    simpl. f_equal. rewrite map_map. done.
Qed.

(** The parents of a path below [base]: paths below [base], then [base],
    then the parents of [base]. *)
Lemma parents_below base rest :
  base ≠ "" →
  os.parents (base +:+ "/" +:+ rest)
  = reverse (map (λ q, base +:+ "/" +:+ q) (os.cuts0 rest)) ++ base :: os.parents base.
Proof.
  destruct base as [|c b]; [done|]. intros _.
  change (String c b +:+ "/" +:+ rest) with (String c (b +:+ "/" +:+ rest)).
  unfold os.parents. rewrite cuts0_app, map_app, reverse_app. cbn [map].
  rewrite reverse_cons, <- app_assoc. f_equal.
  by rewrite map_map.
Qed.

Lemma HasPrefix_app s r : HasPrefix (s +:+ r) s = true.
Proof. apply HasPrefix_spec. by exists r. Qed.

Lemma mkdirAll_chain_below base rest :
  base ≠ "" →
  ∃ pre, (base +:+ "/" +:+ rest) :: os.parents (base +:+ "/" +:+ rest)
         = pre ++ base :: os.parents base
       ∧ Forall (λ q, HasPrefix q (base +:+ "/") = true) pre.
Proof.
  intros Hb. rewrite parents_below by done.
  eexists (_ :: _). split; [reflexivity|]. constructor.
  - rewrite <- app_assoc'. apply HasPrefix_app.
  - apply Forall_reverse, Forall_forall. intros q (q' & -> & _)%list_elem_of_fmap.
    rewrite <- app_assoc'. apply HasPrefix_app.
Qed.

(** [MkdirAll] of a cleaned path that is the directory [base] or lies below
    it writes below [base] only. *)
Lemma MkdirAll_spec env i fs base k perm fs' e :
  base ≠ "" → Clean k = k →
  isDirAt fs base →
  (k = base ∨ HasPrefix k (base +:+ "/") = true) →
  os.MkdirAll env i fs k perm = (fs', e) →
  dirsKept fs fs' ∧ confined (base +:+ "/") fs fs'.
Proof.
  intros Hb Hk Hdir Hwhere. unfold os.MkdirAll.
  destruct (fault env i OpMkdirAll).
  { intros [= <- <-]. split; [apply dirsKept_refl|apply confined_refl]. }
  rewrite Hk. destruct Hwhere as [->|Hpre].
  - apply (mkdirChain_spec _ _ [] base); [constructor|done].
  - apply HasPrefix_spec in Hpre as [rest ->]. rewrite app_assoc'.
    destruct (mkdirAll_chain_below base rest Hb) as (pre & -> & Hall).
    by apply mkdirChain_spec.
Qed.

Lemma OpenFile_spec env i fs B k mode fs' r :
  Clean k = k →
  os.OpenFile env i fs k mode = (fs', r) →
  dirsKept fs fs'
  ∧ (HasPrefix k B = true → confined B fs fs')
  ∧ (isDirAt fs k → fs' = fs ∧ ∃ err, r = Err err)
  ∧ (∀ out, r = OK out → out = k ∧ ¬ isDirAt fs' k).
Proof.
  intros Hk. unfold os.OpenFile.
  assert (∀ n, ¬ isDirAt fs k → ¬ isDirAt (<[k := FileNode n []]> fs) k) as Hnew.
  { intros n Hnd [p' Hp']. unfold isDirAt, os.lookupKey in *.
    destruct (os.rootLike k) eqn:Er; [by eauto|].
    by rewrite lookup_insert_eq in Hp'. }
  destruct (fault env i OpOpenFile).
  { intros [= <- <-]. split_and!; [apply dirsKept_refl|intros; apply confined_refl|eauto|done]. }
  rewrite Hk.
  destruct (os.lookupKey fs k) as [[p|p dat]|] eqn:Ek.
  - intros [= <- <-].
    split_and!; [apply dirsKept_refl|intros; apply confined_refl|eauto|done].
  - intros [= <- <-]. split_and!.
    + apply insert_dirsKept. by eapply lookupKey_file_not_dir.
    + intros. by apply insert_confined.
    + intros [p' Hp']. congruence.
    + intros out [= <-]. split; [done|]. apply Hnew. by eapply lookupKey_file_not_dir.
  - destruct (os.lookupKey fs (Dir k)) as [[p|p dat]|] eqn:Ed; intros [= <- <-].
    + split_and!.
      * apply insert_dirsKept. by apply lookupKey_None_not_dir.
      * intros. by apply insert_confined.
      * intros [p' Hp']. congruence.
      * intros out [= <-]. split; [done|]. apply Hnew. by apply lookupKey_None_not_dir.
    + split_and!; [apply dirsKept_refl|intros; apply confined_refl|
                   intros [p' Hp']; congruence|done].
    + split_and!; [apply dirsKept_refl|intros; apply confined_refl|
                   intros [p' Hp']; congruence|done].
Qed.

Lemma write_spec fs B k data :
  ¬ isDirAt fs k →
  dirsKept fs (os.write fs k data)
  ∧ (HasPrefix k B = true → confined B fs (os.write fs k data)).
Proof.
  intros Hk. unfold os.write. destruct (fs !! k) as [[p|p old]|];
    try (split; [apply dirsKept_refl|intros; apply confined_refl]).
  split; [by apply insert_dirsKept|intros; by apply insert_confined].
Qed.

End FileSystem.

(** ** Extraction stays inside the working directory *)

Section Extraction.
Context `{Libs}.
Import filepath strings.

Lemma joinWithin_OK base name t :
  joinWithin base name = OK t →
  t = Join base name ∧ (t = base ∨ HasPrefix t (base +:+ "/") = true).
Proof.
  unfold joinWithin.
  destruct (HasPrefix (Join base name) (base +:+ "/")) eqn:Ep; simpl.
  - intros [= <-]. auto.
  - destruct (String.eqb (Join base name) base) eqn:Ee; simpl; [|done].
    intros [= <-]. apply String.eqb_eq in Ee. auto.
Qed.

Lemma joinWithin_Err base name err :
  joinWithin base name = Err err →
  Join base name ≠ base ∧ HasPrefix (Join base name) (base +:+ "/") = false
  ∧ err = New "archive entry escapes extraction directory".
Proof.
  unfold joinWithin.
  destruct (HasPrefix (Join base name) (base +:+ "/")) eqn:Ep; simpl; [done|].
  destruct (String.eqb (Join base name) base) eqn:Ee; simpl; [done|].
  intros [= <-]. apply String.eqb_neq in Ee. auto.
Qed.

Lemma Join_clean base name : base ≠ "" → Clean (Join base name) = Join base name.
Proof.
  destruct base as [|c b]; [done|]. intros _. unfold Join. apply Clean_idempotent.
Qed.

Lemma Dir_clean p : Clean (Dir p) = Dir p.
Proof. apply Clean_idempotent. Qed.

(** [MkdirAll] of a directory that exists changes nothing. *)
Lemma MkdirAll_existing env i fs k perm fs' e :
  isDirAt fs (Clean k) → os.MkdirAll env i fs k perm = (fs', e) → fs' = fs.
Proof.
  intros [p Hp]. unfold os.MkdirAll. destruct (fault env i OpMkdirAll); [by intros [= <- _]|].
  simpl. rewrite Hp. by intros [= <- _].
Qed.

Lemma io_Copy_spec env i fs B out rc fs' e :
  ¬ isDirAt fs out →
  io_Copy env i fs out rc = (fs', e) →
  dirsKept fs fs' ∧ (HasPrefix out B = true → confined B fs fs').
Proof.
  intros Hout. unfold io_Copy.
  destruct (fault env i OpWrite); intros [= <- _]; by apply write_spec.
Qed.

Lemma anchored_kept fs fs' base : dirsKept fs fs' → anchored fs base → anchored fs' base.
Proof. intros K [H1 H2]. split; by apply K. Qed.

Lemma extractEntry_spec env i fs base file bp fs' r :
  base ≠ "" → anchored fs base →
  extractEntry env i fs base file bp = (fs', r) →
  dirsKept fs fs' ∧ confined (base +:+ "/") fs fs'.
Proof.
  intros Hb [Hbase Hparent]. unfold extractEntry.
  destruct (joinWithin base (Name file)) as [err|t] eqn:Ej.
  { intros [= <- _]. split; [apply dirsKept_refl|apply confined_refl]. }
  apply joinWithin_OK in Ej as [Et Hwhere].
  assert (Clean t = t) as Hclean by (rewrite Et; by apply Join_clean).
  assert (Clean base = base) as Hcb.
  { destruct Hwhere as [<-|Hp]; [done|]. by apply (within_parent t base). }
  rewrite Hcb in Hbase, Hparent.
  assert (∀ k fs1 e perm, (k = t ∨ k = Dir t) →
            os.MkdirAll env i fs k perm = (fs1, e) →
            dirsKept fs fs1 ∧ confined (base +:+ "/") fs fs1) as Hmk.
  { intros k fs1 e perm Hk Emk.
    destruct Hwhere as [->|Hp].
    - destruct Hk as [->| ->].
      + apply (MkdirAll_spec env i fs base base perm fs1 e); auto.
      + assert (fs1 = fs) as ->.
        { eapply MkdirAll_existing; [|exact Emk]. by rewrite Dir_clean. }
        split; [apply dirsKept_refl|apply confined_refl].
    - destruct (within_parent t base Hclean Hb Hp) as [_ Hd].
      destruct Hk as [->| ->].
      + apply (MkdirAll_spec env i fs base t perm fs1 e); auto.
      + apply (MkdirAll_spec env i fs base (Dir t) perm fs1 e); auto using Dir_clean. }
  destruct (IsDir file).
  - destruct (os.MkdirAll env i fs t 493) as [fs1 e] eqn:Emk.
    apply Hmk in Emk; [|by left]. by destruct e; intros [= <- _].
  - destruct (os.MkdirAll env i fs (Dir t) 493) as [fs1 e] eqn:Emk.
    apply Hmk in Emk as [K1 C1]; [|by right].
    destruct e; [by intros [= <- _]|].
    destruct (Open file) as [err|rc]; [by intros [= <- _]|].
    destruct (os.OpenFile env i fs1 t (extractedMode file)) as [fs2 r2] eqn:Eo.
    destruct (OpenFile_spec _ _ _ (base +:+ "/") _ _ _ _ Hclean Eo) as (K2 & C2 & Hisdir & Hout).
    assert (dirsKept fs fs2 ∧ confined (base +:+ "/") fs fs2) as [K12 C12].
    { destruct Hwhere as [->|Hp].
      - destruct (Hisdir (K1 _ Hbase)) as [-> _]. done.
      - split; [by eapply dirsKept_trans|]. eapply confined_trans; eauto. }
    destruct r2 as [err|out]; [by intros [= <- _]|].
    destruct (Hout out eq_refl) as [-> Hnd].
    destruct Hwhere as [->|Hp].
    { destruct (Hisdir (K1 _ Hbase)) as [_ [err [=]]]. }
    destruct (io_Copy env i fs2 t rc) as [fs3 e3] eqn:Ec.
    destruct (io_Copy_spec _ _ _ (base +:+ "/") _ _ _ _ Hnd Ec) as [K3 C3].
    assert (dirsKept fs fs3 ∧ confined (base +:+ "/") fs fs3).
    { split; [by eapply dirsKept_trans|]. eapply confined_trans; eauto. }
    by destruct e3; intros [= <- _].
Qed.

Lemma extractEntries_spec env i fs base files bp fs' r :
  base ≠ "" → anchored fs base →
  extractEntries env i fs base files bp = (fs', r) →
  dirsKept fs fs' ∧ confined (base +:+ "/") fs fs'.
Proof.
  intros Hb. revert i fs bp. induction files as [|file files IH]; intros i fs bp Hanch; simpl.
  { intros [= <- _]. split; [apply dirsKept_refl|apply confined_refl]. }
  destruct (extractEntry env i fs base file bp) as [fs1 [err|bp']] eqn:E1;
    destruct (extractEntry_spec _ _ _ _ _ _ _ _ Hb Hanch E1) as [K1 C1].
  - by intros [= <- _].
  - intros E2. apply IH in E2 as [K2 C2]; [|by eapply anchored_kept].
    split; [by eapply dirsKept_trans|by eapply confined_trans].
Qed.

(** An entry that escapes stops the loop with an error. *)
Lemma extractEntries_escape env i fs base files bp fs' r file :
  file ∈ files →
  joinWithin base (Name file) = Err (New "archive entry escapes extraction directory") →
  extractEntries env i fs base files bp = (fs', r) →
  ∃ err, r = Err err.
Proof.
  intros Hin Hesc. revert i fs bp.
  induction files as [|f files IH]; intros i fs bp; [by apply elem_of_nil in Hin|].
  simpl. destruct (extractEntry env i fs base f bp) as [fs1 [err|bp']] eqn:E1.
  { intros [= _ <-]. eauto. }
  apply elem_of_cons in Hin as [->|Hin]; [|by apply IH].
  unfold extractEntry in E1. by rewrite Hesc in E1.
Qed.

Lemma extractEntries_app env i fs base pre post bp :
  extractEntries env i fs base (pre ++ post) bp =
  match extractEntries env i fs base pre bp with
  | (fs1, inl err) => (fs1, Err err)
  | (fs1, inr bp') => extractEntries env (i + length pre) fs1 base post bp'
  end.
Proof.
  revert i fs bp. induction pre as [|f pre IH]; intros i fs bp; simpl.
  { by rewrite Nat.add_0_r. }
  destruct (extractEntry env i fs base f bp) as [fs1 [err|bp']]; [done|].
  rewrite IH. by replace (S i + length pre) with (i + S (length pre)) by lia.
Qed.

Lemma joinPath_nonempty dir name : name ≠ "" → os.joinPath dir name ≠ "".
Proof.
  intros Hn E. unfold os.joinPath in E.
  destruct (last (list_ascii_of_string dir)) as [c|]; [destruct (isSep c)|];
    apply str_app_eq_nil in E as [_ E]; try done.
  all: by change ("/" +:+ name) with (String "/" name) in E.
Qed.

Lemma Mkdir_spec env fs name perm fs1 e :
  os.Mkdir env fs name perm = (fs1, e) →
  match e with
  | Some _ => fs1 = fs
  | None =>
      ¬ isDirAt fs (Clean name)
      ∧ isDirAt fs (Dir (Clean name))
      ∧ fs1 = <[Clean name := DirNode (os.createdDir env perm)]> fs
  end.
Proof.
  unfold os.Mkdir, os.mkdirKey.
  destruct (os.lookupKey fs (Clean name)) as [n|] eqn:Ek; [by intros [= <- <-]|].
  destruct (os.lookupKey fs (Dir (Clean name))) as [[p|p d]|] eqn:Ed;
    intros [= <- <-]; try done.
  split_and!; [by apply lookupKey_None_not_dir|by exists p|done].
Qed.

Lemma mkdirTempTry_spec env tries i fs dir prefix fs1 r :
  prefix ≠ "" →
  os.mkdirTempTry env tries i fs dir prefix = (fs1, r) →
  match r with
  | inl _ => fs1 = fs
  | inr workdir =>
      workdir ≠ "" ∧ ¬ isDirAt fs (Clean workdir) ∧ anchored fs1 workdir
      ∧ fs1 = <[Clean workdir := DirNode (os.createdDir env 448)]> fs
  end.
Proof.
  intros Hp. revert i. induction tries as [|tries IH]; intros i; simpl.
  { by intros [= <- <-]. }
  destruct (os.Mkdir env fs (prefix +:+ pretty (nextRandom env i)) 448) as [fs2 e] eqn:Em.
  apply Mkdir_spec in Em. destruct e as [err|].
  - subst fs2. destruct err as [| | |op path [| | | | |]|]; try (by intros [= <- <-]).
    + apply IH.
    + by destruct (os.Stat fs dir); intros [= <- <-].
  - destruct Em as (Hnd & Hparent & ->). intros [= <- <-]. split_and!; [|done| |done].
    + intros E. apply str_app_eq_nil in E as [E _]. done.
    + split.
      * exists (os.createdDir env 448). unfold os.lookupKey.
        destruct (os.rootLike _) eqn:Er; [|by rewrite lookup_insert_eq].
        destruct Hnd. exists 493%N. unfold os.lookupKey. by rewrite Er.
      * apply (insert_dirsKept _ _ _ Hnd). exact Hparent.
Qed.

Lemma MkdirTemp_spec env fs pattern fs1 r :
  pattern ≠ "" →
  os.MkdirTemp env fs pattern = (fs1, r) →
  match r with
  | inl _ => fs1 = fs
  | inr workdir =>
      workdir ≠ "" ∧ ¬ isDirAt fs (Clean workdir) ∧ anchored fs1 workdir
      ∧ fs1 = <[Clean workdir := DirNode (os.createdDir env 448)]> fs
  end.
Proof.
  intros Hp. unfold os.MkdirTemp. destruct (mkdirTempFault env); [by intros [= <- <-]|].
  apply mkdirTempTry_spec. by apply joinPath_nonempty.
Qed.

End Extraction.

Section ExtractionClaims.
Context `{Libs}.
Import filepath strings.

Lemma joinWithin_escapes base name :
  escapes base name →
  joinWithin base name = Err (New "archive entry escapes extraction directory").
Proof.
  intros [Hne Hp]. unfold joinWithin. rewrite Hp.
  apply String.eqb_neq in Hne. by rewrite Hne.
Qed.

(** C1. Once the archive is opened and the working directory [workdir] is
    created, extraction writes below [workdir] only: every path that does
    not start with [workdir/] is afterwards what it was, and compared with
    the file system before the call only [workdir] itself has been added.
    An archive with an entry whose name resolves outside [workdir] makes
    extraction fail, and when the loop reaches the first such entry it
    returns the error "archive entry escapes extraction directory" without
    writing anything for that entry. *)
Theorem extraction_stays_within_workdir env fs bin files fs1 workdir fs' res :
  zip_NewReader bin = OK files →
  os.MkdirTemp env fs "storyden-sdx-" = (fs1, OK workdir) →
  extractSDXArchive env fs bin = (fs', res) →
  (∀ k, HasPrefix k (workdir +:+ "/") = false → fs' !! k = fs1 !! k)
  ∧ (∀ k, HasPrefix k (workdir +:+ "/") = false → k ≠ Clean workdir → fs' !! k = fs !! k)
  ∧ (∀ file, file ∈ files → escapes workdir (Name file) → ∃ err, res = Err err)
  ∧ (∀ pre file post fs2 binaryPath,
       files = pre ++ file :: post →
       escapes workdir (Name file) →
       extractEntries env 0 fs1 workdir pre "" = (fs2, OK binaryPath) →
       res = Err (New "archive entry escapes extraction directory") ∧ fs' = fs2).
Proof.
  intros Hzip Htemp. unfold extractSDXArchive. rewrite Hzip, Htemp.
  apply MkdirTemp_spec in Htemp as (Hwd & _ & Hanch & Hfs1); [|done].
  destruct (extractEntries env 0 fs1 workdir files "") as [fs2 r] eqn:Eloop.
  destruct (extractEntries_spec _ _ _ _ _ _ _ _ Hwd Hanch Eloop) as [_ Hconf].
  intros Hres.
  assert (fs' = fs2) as ->.
  { destruct r as [err|bp]; [by injection Hres|].
    by destruct (String.eqb bp ""); injection Hres. }
  split_and!.
  - exact Hconf.
  - intros k Hk Hne. rewrite (Hconf k Hk), Hfs1. by apply lookup_insert_ne.
  - intros file Hin Hesc. apply joinWithin_escapes in Hesc.
    destruct (extractEntries_escape _ _ _ _ _ _ _ _ _ Hin Hesc Eloop) as [err ->].
    injection Hres as <-. by exists err.
  - intros pre file post fs3 bp -> Hesc Hpre.
    rewrite extractEntries_app, Hpre in Eloop. simpl in Eloop.
    unfold extractEntry in Eloop. rewrite (joinWithin_escapes _ _ Hesc) in Eloop.
    injection Eloop as <- <-. by injection Hres as <-.
Qed.

End ExtractionClaims.

Lemma extraction_stays_within_workdir_witness :
  let bin := [x03] in
  let workdir := "/tmp/storyden-sdx-42" in
  let fs1 := (os.MkdirTemp demoEnv demoFS "storyden-sdx-").1 in
  let out := extractSDXArchive demoEnv demoFS bin in
  zip_NewReader bin = demoFiles x03
  ∧ os.MkdirTemp demoEnv demoFS "storyden-sdx-" = (fs1, OK workdir)
  ∧ (∀ k, strings.HasPrefix k (workdir +:+ "/") = false → out.1 !! k = fs1 !! k)
  ∧ out.2 = Err (New "archive entry escapes extraction directory").
Proof.
  intros bin workdir fs1 out.
  assert (os.MkdirTemp demoEnv demoFS "storyden-sdx-" = (fs1, OK workdir)) as Htemp
    by (vm_compute; reflexivity).
  assert (zip_NewReader bin = OK [demoEntry "manifest.json" 420 "p1";
            demoEntry "../evil" 420 "x"; demoEntry "main" 493 "ELF"]) as Hzip
    by reflexivity.
  destruct (extraction_stays_within_workdir demoEnv demoFS bin _
              fs1 workdir out.1 out.2 Hzip Htemp) as (H1 & _ & _ & H4).
  { apply surjective_pairing. }
  split_and!; [reflexivity|exact Htemp|exact H1|].
  refine (proj1 (H4 [demoEntry "manifest.json" 420 "p1"] (demoEntry "../evil" 420 "x")
                   [demoEntry "main" 493 "ELF"]
                   (extractEntries demoEnv 0 fs1 workdir
                      [demoEntry "manifest.json" 420 "p1"] "").1 "" eq_refl _ _)).
  - split; [vm_compute; discriminate|vm_compute; reflexivity].
  - vm_compute. reflexivity.
Defined.

(** ** Validation and loading *)

Section Validation.
Context `{Libs}.
Import filepath.

Lemma findManifest_OK files data :
  findManifest files = OK data ↔ ∃ file, firstManifest files file ∧ readsAs file data.
Proof.
  induction files as [|f files IH]; simpl.
  - split; [done|]. intros (file & (pre & post & E & _) & _). by destruct pre.
  - destruct (String.eqb (Base (Name f)) "manifest.json") eqn:Eb; simpl.
    + apply String.eqb_eq in Eb. split.
      * intros Hf. exists f. split; [by exists [], files|].
        unfold readsAs. destruct (Open f) as [err|rc]; [done|].
        unfold io_ReadAll in Hf. destruct (rcErr rc) eqn:Ee; [done|].
        injection Hf as <-. by exists rc.
      * intros (file & (pre & post & E & Hpre & Hfile) & (rc & Ho & Hr & Hd)).
        destruct pre as [|f' pre].
        -- injection E as -> ->. rewrite Ho. unfold io_ReadAll. by rewrite Hr, Hd.
        -- injection E as -> ->. by inversion Hpre.
    + apply String.eqb_neq in Eb. rewrite IH. split.
      * intros (file & (pre & post & -> & Hpre & Hfile) & Hr).
        exists file. split; [|done]. exists (f :: pre), post. by repeat constructor.
      * intros (file & (pre & post & E & Hpre & Hfile) & Hr).
        destruct pre as [|f' pre]; injection E as -> ->; [done|].
        exists file. split; [|done]. exists pre, post. by inversion Hpre.
Qed.

Lemma ensureExecutablePresent_None bin :
  ensureExecutablePresent bin = None ↔
  ∃ files, zip_NewReader bin = OK files ∧ hasExecutable files.
Proof.
  unfold ensureExecutablePresent.
  destruct (zip_NewReader bin) as [err|files].
  { split; [done|]. by intros (files & [=] & _). }
  destruct (existsb _ files) eqn:Ex.
  - split; [intros _|done]. exists files. split; [done|].
    apply existsb_exists in Ex as (f & Hin & Hf). exists f.
    split; [by apply list_elem_of_In|].
    unfold isExecutableName in Hf. apply orb_true_iff in Hf.
    by rewrite !String.eqb_eq in Hf.
  - split; [done|]. intros (files' & [= <-] & f & Hin & Hf).
    assert (existsb (λ file, isExecutableName (Name file)) files = true) as Ht; [|congruence].
    apply existsb_exists. exists f. split; [by apply list_elem_of_In|].
    unfold isExecutableName. apply orb_true_iff. by rewrite !String.eqb_eq.
Qed.

Lemma ensureExecutablePresent_missing bin files :
  zip_NewReader bin = OK files → ¬ hasExecutable files →
  ensureExecutablePresent bin = Some (New "plugin archive missing main executable").
Proof.
  intros Hz Hno. destruct (ensureExecutablePresent bin) as [err|] eqn:E.
  - unfold ensureExecutablePresent in E. rewrite Hz in E.
    destruct (existsb (λ file, isExecutableName (Name file)) files); [done|].
    by injection E as <-.
  - apply ensureExecutablePresent_None in E as (files' & Hz' & Hex).
    rewrite Hz in Hz'. injection Hz' as <-. done.
Qed.

(** C2. [Validate] returns the manifest [m] exactly when the archive is a
    readable zip, its first entry with base name [manifest.json] can be read
    and decodes to [m], and some entry has the base name [main] or
    [main.exe].  A missing executable has an error of its own, returned when
    the manifest was found and decoded; a manifest that cannot be read or
    decoded is reported as such whatever else the archive holds. *)
Theorem Validate_manifest_and_executable bin m :
  (Validate bin = OK m ↔
     ∃ files file data,
       zip_NewReader bin = OK files
       ∧ firstManifest files file ∧ readsAs file data
       ∧ json_Unmarshal_Manifest data = OK m
       ∧ hasExecutable files)
  ∧ (∀ files file data,
       zip_NewReader bin = OK files →
       firstManifest files file → readsAs file data →
       json_Unmarshal_Manifest data = OK m →
       ¬ hasExecutable files →
       Validate bin
       = Err (Wrap (New "plugin archive missing main executable") "plugin binary missing"))
  ∧ (∀ err, readSDXManifest bin = Err err →
       Validate bin = Err (Wrap err "failed to read manifest"))
  ∧ (∀ data err, readSDXManifest bin = OK data →
       json_Unmarshal_Manifest data = Err err →
       Validate bin = Err (Wrap err "failed to decode manifest")).
Proof.
  split_and!.
  - unfold Validate, readSDXManifest. split.
    + destruct (zip_NewReader bin) as [err|files] eqn:Ez; [done|].
      destruct (findManifest files) as [err|data] eqn:Ef; [done|].
      apply findManifest_OK in Ef as (file & Hfirst & Hread).
      destruct (json_Unmarshal_Manifest data) as [err|m'] eqn:Ej; [done|].
      destruct (ensureExecutablePresent bin) as [err|] eqn:Ee; [done|].
      intros [= <-]. apply ensureExecutablePresent_None in Ee as (files' & Ez' & Hex).
      rewrite Ez in Ez'. injection Ez' as <-. by exists files, file, data.
    + intros (files & file & data & Ez & Hfirst & Hread & Ej & Hex).
      rewrite Ez.
      assert (findManifest files = OK data) as -> by (apply findManifest_OK; eauto).
      rewrite Ej.
      assert (ensureExecutablePresent bin = None) as ->
        by (apply ensureExecutablePresent_None; eauto).
      done.
  - intros files file data Ez Hfirst Hread Ej Hno.
    unfold Validate, readSDXManifest. rewrite Ez.
    assert (findManifest files = OK data) as -> by (apply findManifest_OK; eauto).
    rewrite Ej. by rewrite (ensureExecutablePresent_missing _ _ Ez Hno).
  - intros err E. unfold Validate. by rewrite E.
  - intros data err E Ej. unfold Validate. by rewrite E, Ej.
Qed.

(** C3. When [Validate] fails [Load] returns the error and changes nothing:
    the registry holds what it held. *)
Theorem Load_invalid_archive w bin err :
  Validate bin = Err err →
  sdxRunner.Load w bin = (w, Err (WrapCtx err))
  ∧ ∀ id, sessions (sdxRunner.Load w bin).1 !! id = sessions w !! id.
Proof.
  intros E. unfold sdxRunner.Load. by rewrite E.
Qed.

End Validation.

Lemma Load_invalid_archive_witness :
  Validate [x02]
  = Err (Wrap (New "plugin archive missing main executable") "plugin binary missing")
  ∧ sdxRunner.Load emptyWorld [x02]
    = (emptyWorld,
       Err (WrapCtx (Wrap (New "plugin archive missing main executable")
                       "plugin binary missing"))).
Proof.
  assert (Validate [x02]
          = Err (Wrap (New "plugin archive missing main executable") "plugin binary missing"))
    as Hv by (vm_compute; reflexivity).
  split; [exact Hv|]. exact (proj1 (Load_invalid_archive emptyWorld [x02] _ Hv)).
Defined.

(** ** Starting a session *)

Section Starting.
Context `{Libs}.

Lemma startProcess_active penv fs s :
  reportedState (session s) = ReportedStateActive →
  startProcess penv fs s = (fs, s, Some (New "plugin is already running")).
Proof. intros E. unfold startProcess. by rewrite E. Qed.

(** C4, as the code has it. For a registered session that is [active],
    [StartPlugin] returns [nil] to its caller and only queues a goroutine;
    the run in that goroutine returns "plugin is already running" at once,
    whatever the file system and the schedule; when the goroutine runs while
    the session is still as it was, that error is logged as "plugin start
    failed" and the session, still [active], and the file system are left
    as they are. *)
Theorem StartPlugin_active_session w id p s penv evs :
  sessions w !! id = Some p →
  heap w !! p = Some s →
  reportedState (session s) = ReportedStateActive →
  sdxRunner.StartPlugin w id = (setGoroutines (goroutines w ++ [(id, p)]) w, None)
  ∧ (∀ fs, runProcess penv evs fs s
           = (enterLoop fs s, Returned (Some (New "plugin is already running"))))
  ∧ (∀ w2 rest,
       goroutines w2 = (id, p) :: rest → heap w2 !! p = Some s →
       sdxRunner.runGoroutine penv evs w2
       = logWorld [{| logLevel := LevelError; logMsg := "plugin start failed";
                      logAttr := "plugin is already running" |}]
           (setGoroutines rest w2))
  ∧ (goroutines w = [] →
     reportedStateOf (sdxRunner.runGoroutine penv evs (sdxRunner.StartPlugin w id).1) id
     = Some ReportedStateActive).
Proof.
  intros Hid Hp Hact.
  assert (∀ fs, runProcess penv evs fs s
          = (enterLoop fs s, Returned (Some (New "plugin is already running")))) as Hrun.
  { intros fs. unfold runProcess. by rewrite startProcess_active. }
  assert (∀ w2 rest,
       goroutines w2 = (id, p) :: rest → heap w2 !! p = Some s →
       sdxRunner.runGoroutine penv evs w2
       = logWorld [{| logLevel := LevelError; logMsg := "plugin start failed";
                      logAttr := "plugin is already running" |}]
           (setGoroutines rest w2)) as Hgo.
  { intros w2 rest Hg Hp2. unfold sdxRunner.runGoroutine. rewrite Hg. cbn.
    rewrite Hp2, Hrun. cbn. destruct w2 as [f h b ss g l]. cbn in *.
    unfold logWorld, setObject, setFiles, setGoroutines. cbn.
    rewrite (insert_id h p s Hp2). by rewrite app_nil_r. }
  split_and!; [|done|done|].
  - unfold sdxRunner.StartPlugin. by rewrite Hid.
  - intros Hg. unfold sdxRunner.StartPlugin. rewrite Hid. cbn [fst].
    rewrite (Hgo _ []); [|by rewrite Hg|done].
    unfold reportedStateOf. cbn. rewrite Hid. cbn. rewrite Hp. cbn. by rewrite Hact.
Qed.

End Starting.

(** The claim as written fails: the caller of [StartPlugin] gets no error
    for a session that is [active]. *)
Lemma StartPlugin_active_returns_nil :
  reportedStateOf activeWorld "p1" = Some ReportedStateActive
  ∧ (sdxRunner.StartPlugin activeWorld "p1").2 = None.
Proof. split; vm_compute; reflexivity. Qed.

Lemma StartPlugin_active_session_witness :
  (sdxRunner.StartPlugin activeWorld "p1").2 = None
  ∧ reportedStateOf
      (sdxRunner.runGoroutine demoProcEnv [] (sdxRunner.StartPlugin activeWorld "p1").1) "p1"
    = Some ReportedStateActive.
Proof.
  assert (sessions activeWorld !! "p1" = Some 0) as H1 by (vm_compute; reflexivity).
  assert (heap activeWorld !! 0 = Some (sessionAt activeWorld 0)) as H2
    by (vm_compute; reflexivity).
  assert (reportedState (session (sessionAt activeWorld 0)) = ReportedStateActive) as H3
    by (vm_compute; reflexivity).
  assert (goroutines activeWorld = []) as H4 by (vm_compute; reflexivity).
  destruct (StartPlugin_active_session activeWorld "p1" 0 _ demoProcEnv [] H1 H2 H3)
    as (R1 & _ & _ & R4).
  split; [by rewrite R1|exact (R4 H4)].
Defined.
(** ** Steps of the dispatch loop *)

Section LoopSteps.
Context `{Libs}.

Lemma reportedState_cancel s : reportedState (cancel s) = reportedState s.
Proof. unfold cancel. by destruct (ctx s). Qed.

Lemma statusMessage_cancel s : statusMessage (cancel s) = statusMessage s.
Proof. unfold cancel. by destruct (ctx s). Qed.

Lemma ctxDone_cancel s : ctx s ≠ None → ctxDone (cancel s) = true.
Proof. unfold cancel, ctxDone. by destruct (ctx s). Qed.

Lemma ctxDone_cancel_mono s : ctxDone s = true → ctxDone (cancel s) = true.
Proof. unfold cancel, ctxDone. by destruct (ctx s) as [[]|]. Qed.

Lemma ctxDone_some s : ctxDone s = true → ctx s ≠ None.
Proof. unfold ctxDone. by destruct (ctx s). Qed.

Lemma stateOf_cleanup st : stateOf (cleanup st) = stateOf st.
Proof. apply reportedState_cancel. Qed.

Lemma noteOf_cleanup st : noteOf (cleanup st) = noteOf st.
Proof. apply statusMessage_cancel. Qed.

(** The stderr pump writes to the log only. *)
Lemma stderrLine_frame line st :
  lsSession (stderrLine line st) = lsSession st
  ∧ lsFiles (stderrLine line st) = lsFiles st
  ∧ errCh (stderrLine line st) = errCh st
  ∧ delivered (stderrLine line st) = delivered st
  ∧ printed (stderrLine line st) = printed st.
Proof.
  unfold stderrLine. destruct (stderrDone st); [done|].
  by destruct (ctxDone (session (lsSession st))).
Qed.

Lemma stderrEnded_frame err st :
  lsSession (stderrEnded err st) = lsSession st
  ∧ lsFiles (stderrEnded err st) = lsFiles st
  ∧ errCh (stderrEnded err st) = errCh st
  ∧ delivered (stderrEnded err st) = delivered st
  ∧ printed (stderrEnded err st) = printed st.
Proof. unfold stderrEnded. destruct (stderrDone st); [done|]. by destruct err. Qed.

Lemma stderrLine_logs line st : lsLogs st `prefix_of` lsLogs (stderrLine line st).
Proof.
  unfold stderrLine. destruct (stderrDone st); [done|].
  destruct (ctxDone (session (lsSession st))); [done|]. by apply prefix_app_r.
Qed.

Lemma stderrEnded_logs err st : lsLogs st `prefix_of` lsLogs (stderrEnded err st).
Proof.
  unfold stderrEnded. destruct (stderrDone st); [done|].
  destruct err; [|done]. by apply prefix_app_r.
Qed.

Lemma drain_frame evs st :
  lsSession (drain evs st) = lsSession st
  ∧ lsFiles (drain evs st) = lsFiles st
  ∧ errCh (drain evs st) = errCh st
  ∧ delivered (drain evs st) = delivered st
  ∧ printed (drain evs st) = printed st
  ∧ lsLogs st `prefix_of` lsLogs (drain evs st).
Proof.
  revert st. induction evs as [|ev evs IH]; intros st; [done|].
  destruct ev; cbn [drain]; try apply IH.
  - destruct (IH (stderrLine line st)) as (-> & -> & -> & -> & -> & Hl).
    destruct (stderrLine_frame line st) as (-> & -> & -> & -> & ->).
    split_and!; try done. etrans; [apply stderrLine_logs|done].
  - destruct (IH (stderrEnded err st)) as (-> & -> & -> & -> & -> & Hl).
    destruct (stderrEnded_frame err st) as (-> & -> & -> & -> & ->).
    split_and!; try done. etrans; [apply stderrEnded_logs|done].
Qed.

Lemma stateOf_drain evs st : stateOf (drain evs st) = stateOf st.
Proof. unfold stateOf. by destruct (drain_frame evs st) as (-> & _). Qed.

Lemma noteOf_drain evs st : noteOf (drain evs st) = noteOf st.
Proof. unfold noteOf. by destruct (drain_frame evs st) as (-> & _). Qed.

(** What a turn of the loop leaves alone. *)
Lemma handleOutput_frame output rsel st st' :
  handleOutput output rsel st = Some st' →
  lsFiles st' = lsFiles st ∧ errCh st' = errCh st
  ∧ workdir (lsSession st') = workdir (lsSession st)
  ∧ cmd (lsSession st') = cmd (lsSession st)
  ∧ stdin (lsSession st') = stdin (lsSession st)
  ∧ stopping (lsSession st') = stopping (lsSession st)
  ∧ ctx (session (lsSession st')) = ctx (session (lsSession st)).
Proof.
  unfold handleOutput. destruct output as [|b rest]; [by intros [= <-]|].
  destruct (negb (Byte.eqb b "{")); [by intros [= <-]|].
  destruct (json_Unmarshal_RPCResponse (b :: rest)) as [err|response]; [by intros [= <-]|].
  destruct (xid_FromString (responseID response)) as [err|ident]; [by intros [= <-]|].
  destruct (pendingCommands (session (lsSession st)) !! ident) as [pending|];
    [|by intros [= <-]].
  destruct rsel; [by intros [= <-]|].
  destruct (ctxDone (session (lsSession st))); [by intros [= <-]|done].
Qed.

Lemma sendErr_frame e st :
  lsSession (sendErr e st) = lsSession st ∧ lsFiles (sendErr e st) = lsFiles st.
Proof. unfold sendErr. by destruct (errCh st). Qed.

(** A quiet event leaves the loop running. *)
Lemma react_quiet ev st :
  quiet ev = true → react ev st = None ∨ ∃ st', react ev st = Some (st', None).
Proof.
  destruct ev as [waitErr|err|err| | |[| |[output|]] rsel|line|err]; try done;
    cbn [react]; try (right; by eexists).
  intros _. unfold dispatch. destruct (handleOutput output rsel st); eauto.
Qed.

(** What a quiet event keeps: a message that is queued, a cancelled
    context, the stopping flag. *)
Lemma quiet_step ev st st' :
  quiet ev = true → react ev st = Some (st', None) →
  (∀ msg, errCh st = Some msg → errCh st' = Some msg)
  ∧ (ctxDone (session (lsSession st)) = true → ctxDone (session (lsSession st')) = true)
  ∧ (ctx (session (lsSession st)) ≠ None → ctx (session (lsSession st')) ≠ None)
  ∧ (stopping (lsSession st) = true → stopping (lsSession st') = true)
  ∧ (ev = ContextCancelled → ctx (session (lsSession st)) ≠ None →
     ctxDone (session (lsSession st')) = true).
Proof.
  destruct ev as [waitErr|err|err| | |[| |[output|]] rsel|line|err]; try done;
    cbn [react]; intros _.
  - intros [= <-]. unfold exitWatcher, sendErr.
    destruct st as [s fs ch dl pr lg sd]. cbn.
    destruct (stopping s) eqn:Es; [|destruct waitErr];
      destruct ch; cbn; split_and!; try done; congruence.
  - intros [= <-]. unfold writerFailed, sendErr.
    destruct (ctxDone (session (lsSession st))) eqn:Ec; [done|].
    destruct st as [s fs ch dl pr lg sd]. cbn in *.
    destruct ch; cbn; split_and!; try done; congruence.
  - intros [= <-]. unfold readerFailed, sendErr.
    destruct (ctxDone (session (lsSession st))) eqn:Ec; [done|].
    destruct st as [s fs ch dl pr lg sd]. cbn in *.
    destruct ch; cbn; split_and!; try done; congruence.
  - by intros [= <-].
  - intros [= <-]. cbn. unfold stop. split_and!; try done.
    + apply ctxDone_cancel_mono.
    + intros Hc. by apply ctxDone_some, ctxDone_cancel.
    + intros _. apply ctxDone_cancel.
  - unfold dispatch. destruct (handleOutput output rsel st) as [st1|] eqn:E; [|done].
    intros [= <-]. apply handleOutput_frame in E as (_ & -> & _ & _ & _ & -> & Hc).
    unfold ctxDone. by rewrite Hc.
  - intros [= <-]. by destruct (stderrLine_frame line st) as (-> & _ & -> & _).
  - intros [= <-]. by destruct (stderrEnded_frame err st) as (-> & _ & -> & _).
Qed.

(** A silent event changes neither the error channel nor the context. *)
Lemma silent_step ev st st' :
  silent ev = true → react ev st = Some (st', None) →
  errCh st' = errCh st
  ∧ ctx (session (lsSession st')) = ctx (session (lsSession st)).
Proof.
  destruct ev as [waitErr|err|err| | |[| |[output|]] rsel|line|err]; try done;
    cbn [react]; intros _.
  - by intros [= <-].
  - unfold dispatch. destruct (handleOutput output rsel st) as [st1|] eqn:E; [|done].
    intros [= <-]. by apply handleOutput_frame in E as (_ & -> & _ & _ & _ & _ & ->).
  - intros [= <-]. by destruct (stderrLine_frame line st) as (-> & _ & -> & _).
  - intros [= <-]. by destruct (stderrEnded_frame err st) as (-> & _ & -> & _).
Qed.

(** Once the context is cancelled the pumps report nothing. *)
Lemma pumpFailure_cancelled ev st :
  pumpFailure ev = true → ctxDone (session (lsSession st)) = true →
  react ev st = Some (st, None).
Proof.
  destruct ev; try done; intros _ Hc; cbn [react]; unfold writerFailed, readerFailed;
    by rewrite Hc.
Qed.

(** A schedule of quiet events: the loop goes on with the rest. *)
Lemma quiet_run evs st :
  forallb quiet evs = true →
  ∃ st', (∀ rest, runLoop (evs ++ rest) st = runLoop rest st')
       ∧ (∀ msg, errCh st = Some msg → errCh st' = Some msg)
       ∧ (ctxDone (session (lsSession st)) = true →
          ctxDone (session (lsSession st')) = true)
       ∧ (ctx (session (lsSession st)) ≠ None → ctx (session (lsSession st')) ≠ None)
       ∧ (stopping (lsSession st) = true → stopping (lsSession st') = true)
       ∧ (ContextCancelled ∈ evs → ctx (session (lsSession st)) ≠ None →
          ctxDone (session (lsSession st')) = true).
Proof.
  revert st. induction evs as [|ev evs IH]; intros st Hq.
  { exists st. split_and!; try done. by intros Hin%elem_of_nil. }
  cbn in Hq. apply andb_true_iff in Hq as [Hev Hevs].
  destruct (react_quiet ev st Hev) as [E|[st1 E]].
  - destruct (IH st Hevs) as (st' & Hrun & Hch & Hdone & Hctx & Hstop & Hcancel).
    exists st'. split_and!; try done.
    + intros rest. cbn [app runLoop]. by rewrite E.
    + intros [<-|Hin]%elem_of_cons Hc; [|by apply Hcancel].
      by cbn [react] in E.
  - destruct (quiet_step ev st st1 Hev E) as (Hch1 & Hdone1 & Hctx1 & Hstop1 & Hcancel1).
    destruct (IH st1 Hevs) as (st' & Hrun & Hch & Hdone & Hctx & Hstop & Hcancel).
    exists st'. split_and!; try by auto.
    + intros rest. cbn [app runLoop]. by rewrite E.
    + intros [<-|Hin]%elem_of_cons Hc; [by auto|]. by auto.
Qed.

(** A schedule of silent events and, the context being cancelled, of pump
    failures. *)
Lemma silent_run evs st :
  forallb silent evs = true →
  ∃ st', (∀ rest, runLoop (evs ++ rest) st = runLoop rest st')
       ∧ errCh st' = errCh st
       ∧ ctx (session (lsSession st')) = ctx (session (lsSession st))
       ∧ (stopping (lsSession st) = true → stopping (lsSession st') = true).
Proof.
  assert (∀ ev, silent ev = true → quiet ev = true) as Hsq by (by intros []).
  revert st. induction evs as [|ev evs IH]; intros st Hq.
  { by exists st. }
  cbn in Hq. apply andb_true_iff in Hq as [Hev Hevs].
  destruct (react_quiet ev st (Hsq _ Hev)) as [E|[st1 E]].
  - destruct (IH st Hevs) as (st' & Hrun & Hch & Hctx & Hstop).
    exists st'. split_and!; try done. intros rest. cbn [app runLoop]. by rewrite E.
  - destruct (silent_step ev st st1 Hev E) as (Hch1 & Hctx1).
    destruct (quiet_step ev st st1 (Hsq _ Hev) E) as (_ & _ & _ & Hstop1 & _).
    destruct (IH st1 Hevs) as (st' & Hrun & Hch & Hctx & Hstop).
    exists st'. split_and!; [|congruence|congruence|by auto].
    intros rest. cbn [app runLoop]. by rewrite E.
Qed.

Lemma cancelled_run evs st :
  ctxDone (session (lsSession st)) = true →
  forallb (λ ev, silent ev || pumpFailure ev) evs = true →
  ∃ st', (∀ rest, runLoop (evs ++ rest) st = runLoop rest st')
       ∧ errCh st' = errCh st
       ∧ ctxDone (session (lsSession st')) = true
       ∧ (stopping (lsSession st) = true → stopping (lsSession st') = true).
Proof.
  revert st. induction evs as [|ev evs IH]; intros st Hc Hq.
  { by exists st. }
  cbn in Hq. apply andb_true_iff in Hq as [Hev Hevs].
  apply orb_true_iff in Hev as [Hev|Hev].
  - destruct (silent_run [ev] st) as (st1 & Hrun1 & Hch1 & Hctx1 & Hstop1);
      [by cbn; rewrite Hev|].
    assert (ctxDone (session (lsSession st1)) = true) as Hc1
      by (unfold ctxDone in *; by rewrite Hctx1).
    destruct (IH st1 Hc1 Hevs) as (st' & Hrun & Hch & Hctx & Hstop).
    exists st'. split_and!; [|congruence|done|by auto].
    intros rest. by rewrite <- Hrun, <- (Hrun1 (evs ++ rest)).
  - destruct (IH st Hc Hevs) as (st' & Hrun & Hch & Hctx & Hstop).
    exists st'. split_and!; try done.
    intros rest. cbn [app runLoop]. by rewrite (pumpFailure_cancelled ev st Hev Hc).
Qed.

(** The exit watcher on an empty channel. *)
Lemma exit_queued waitErr st :
  errCh st = None →
  ∃ st1, react (ProcessExited waitErr) st = Some (st1, None)
       ∧ errCh st1 = Some (if stopping (lsSession st) then None
                           else Some (exitError waitErr)).
Proof.
  intros Hch. eexists. split; [done|]. unfold exitWatcher, sendErr. cbn. rewrite Hch.
  by destruct (stopping (lsSession st)); [|destruct waitErr].
Qed.

(** The loop takes the message of the error channel. *)
Lemma errCh_taken msg rsel rest st :
  errCh st = Some msg →
  ∃ st', runLoop (Selected SelErrCh rsel :: rest) st = (st', Returned msg)
       ∧ stateOf st' = match msg with
                       | Some _ => ReportedStateError
                       | None => ReportedStateInactive
                       end
       ∧ noteOf st' = match msg with Some err => Error err | None => "" end.
Proof.
  intros Hch. cbn. rewrite Hch. destruct msg as [err|]; eexists; (split; [reflexivity|]);
    by rewrite stateOf_drain, noteOf_drain, stateOf_cleanup, noteOf_cleanup.
Qed.

(** The loop takes the cancellation of its context. *)
Lemma ctxDone_taken rsel rest st :
  ctxDone (session (lsSession st)) = true →
  ∃ st', runLoop (Selected SelCtxDone rsel :: rest) st
         = (st', Returned (Some context_Canceled))
       ∧ stateOf st' = ReportedStateInactive ∧ noteOf st' = ""
       ∧ cmd (lsSession st') = None ∧ workdir (lsSession st') = ""
       ∧ stopping (lsSession st') = stopping (lsSession st).
Proof.
  intros Hc. cbn. rewrite Hc. eexists. split; [reflexivity|].
  rewrite stateOf_drain, noteOf_drain, stateOf_cleanup, noteOf_cleanup.
  by destruct (drain_frame rest (cleanup (withLS (withSession
                 (setState ReportedStateInactive "")) st))) as (-> & _).
Qed.

End LoopSteps.


(** ** The dispatch loop *)

Section Dispatch.
Context `{Libs}.



Lemma stateOf_handleError err st : stateOf (handleError err st) = ReportedStateError.
Proof. done. Qed.

Lemma noteOf_handleError err st : noteOf (handleError err st) = Error err.
Proof. done. Qed.

(** C6. A frame that starts with [{], decodes to a response and carries a
    well-formed correlation identifier for which no command is pending:
    the loop goes on with the session [errored], the note "received
    response for unknown command", nothing delivered and the table of
    pending commands untouched. *)
Theorem unknown_response_errors st b rest response ident rsel :
  Byte.eqb b "{"%byte = true →
  json_Unmarshal_RPCResponse (b :: rest) = OK response →
  xid_FromString (responseID response) = OK ident →
  pendingOf st !! ident = None →
  ∃ st', dispatch (SelOutchan (Some (b :: rest))) rsel st = Some (st', None)
       ∧ stateOf st' = ReportedStateError
       ∧ noteOf st' = "received response for unknown command"
       ∧ delivered st' = delivered st
       ∧ pendingOf st' = pendingOf st.
Proof.
  intros Hb Hjson Hxid Hpending. unfold pendingOf in Hpending.
  exists (handleError (New "received response for unknown command") st).
  split; [|done].
  unfold dispatch, handleOutput. by rewrite Hb, Hjson, Hxid, Hpending.
Qed.

(** C7. A frame whose correlation identifier [ident] has a pending command.
    The loop removes the entry of [ident] in the same step in which it looks
    it up and leaves the other entries alone.  When the delivery goes
    through, the response is appended, once, to the private channel of that
    command; the other case of the delivery can be taken only when the
    context of the run is cancelled, and then nothing is delivered.  A
    second frame with the same identifier finds no entry and delivers
    nothing. *)
Theorem matching_response_delivered_once st b rest response ident pending rsel :
  Byte.eqb b "{"%byte = true →
  json_Unmarshal_RPCResponse (b :: rest) = OK response →
  xid_FromString (responseID response) = OK ident →
  pendingOf st !! ident = Some pending →
  (∃ st', dispatch (SelOutchan (Some (b :: rest))) SelRespch st = Some (st', None)
        ∧ pendingOf st' = delete ident (pendingOf st)
        ∧ pendingOf st' !! ident = None
        ∧ delivered st' = delivered st ++ [(respch pending, response)]
        ∧ stateOf st' = stateOf st
        ∧ dispatch (SelOutchan (Some (b :: rest))) rsel st'
          = Some (handleError (New "received response for unknown command") st', None))
  ∧ (ctx (session (lsSession st)) = Some true →
     ∃ st', dispatch (SelOutchan (Some (b :: rest))) SelRespCtxDone st = Some (st', None)
        ∧ pendingOf st' = delete ident (pendingOf st)
        ∧ delivered st' = delivered st)
  ∧ (ctx (session (lsSession st)) ≠ Some true →
     dispatch (SelOutchan (Some (b :: rest))) SelRespCtxDone st = None).
Proof.
  intros Hb Hjson Hxid Hpending. unfold pendingOf in Hpending.
  assert (∀ rs, dispatch (SelOutchan (Some (b :: rest))) rs st
    = match
        match rs with
        | SelRespch =>
            Some (deliverLS (respch pending) response
                    (withLS (withSession (setPending
                       (delete ident (pendingCommands (session (lsSession st)))))) st))
        | SelRespCtxDone =>
            if ctxDone (session (lsSession st))
            then Some (withLS (withSession (setPending
                         (delete ident (pendingCommands (session (lsSession st)))))) st)
            else None
        end
      with
      | Some st' => Some (st', None)
      | None => None
      end) as Hstep.
  { intros rs. unfold dispatch, handleOutput. by rewrite Hb, Hjson, Hxid, Hpending. }
  split_and!.
  - eexists. split; [apply (Hstep SelRespch)|]. split_and!; try done.
    + unfold pendingOf. cbn. apply lookup_delete_eq.
    + unfold dispatch, handleOutput. rewrite Hb, Hjson, Hxid. cbn.
      by rewrite lookup_delete_eq.
  - intros Hctx. rewrite Hstep. unfold ctxDone. rewrite Hctx. eexists. by split.
  - intros Hctx. rewrite Hstep. unfold ctxDone.
    by destruct (ctx (session (lsSession st))) as [[]|].
Qed.

End Dispatch.



Lemma unknown_response_errors_witness :
  ∃ st', dispatch (SelOutchan (Some (demoFrame "00000000000000000000"))) SelRespch demoLoop
         = Some (st', None)
       ∧ stateOf st' = ReportedStateError
       ∧ noteOf st' = "received response for unknown command".
Proof.
  destruct (unknown_response_errors demoLoop "{"%byte (ascii_bytes "00000000000000000000")
              {| responseID := "00000000000000000000"; responseRest := "" |}
              (Npos (encode "00000000000000000000")) SelRespch)
    as (st' & E & S & N & _); try (vm_compute; reflexivity).
  exists st'. auto.
Defined.

Lemma matching_response_delivered_once_witness :
  ∃ st', dispatch (SelOutchan (Some (demoFrame demoIdent))) SelRespch demoLoop
         = Some (st', None)
       ∧ pendingOf st' !! demoXidValue = None
       ∧ delivered st' = [(7, {| responseID := demoIdent; responseRest := "" |})].
Proof.
  destruct (matching_response_delivered_once demoLoop "{"%byte (ascii_bytes demoIdent)
              {| responseID := demoIdent; responseRest := "" |}
              demoXidValue demoPending SelRespch)
    as ((st' & E & _ & P & D & _) & _); try (vm_compute; reflexivity).
  exists st'. split_and!; [exact E|exact P|].
  rewrite D. vm_compute. reflexivity.
Defined.

(** ** A failed extraction *)

Section FailedExtraction.
Context `{Libs}.

(** When extraction fails the run returns the error without reaching the
    loop: the reported state is what it was, and the file system is the one
    extraction left behind. *)
Lemma runProcess_extraction_failed penv evs fs s fs' err :
  reportedState (session s) ≠ ReportedStateActive →
  runType (session s) = RunTypeBackground →
  extractSDXArchive (extractEnv penv) fs (bin (session s)) = (fs', Err err) →
  ∃ st, runProcess penv evs fs s = (st, Returned (Some (Wrap err "failed to extract plugin")))
      ∧ stateOf st = reportedState (session s)
      ∧ workdir (lsSession st) = workdir s
      ∧ lsFiles st = fs'.
Proof.
  intros Hst Hrt Hex. unfold runProcess, startProcess. rewrite Hrt.
  destruct (reportedState (session s)) eqn:Er; [done| |];
    (cbn [session withSession setCtx bin]; rewrite Hex;
     eexists; split; [reflexivity|]; by rewrite <- Er).
Qed.

End FailedExtraction.

(** C8 on the archive [manifest.json, ../evil, main]: the run returns the
    extraction error and the session stays [inactive], but the working
    directory and the entry extracted before the failure are still there,
    the session does not know the directory, and unloading the plugin
    leaves them in place too. *)
Theorem failed_extraction_leaves_workdir :
  reportedStateOf escapingWorld "p1" = Some ReportedStateInactive
  ∧ logs escapingWorld
    = [{| logLevel := LevelError; logMsg := "plugin start failed";
          logAttr := "failed to extract plugin: archive entry escapes extraction directory" |}]
  ∧ workdir (sessionAt escapingWorld 0) = ""
  ∧ files escapingWorld !! "/tmp/storyden-sdx-42" = Some (DirNode 448)
  ∧ files escapingWorld !! "/tmp/storyden-sdx-42/manifest.json"
    = Some (FileNode 420 (ascii_bytes "p1"))
  ∧ files (sdxRunner.Unload demoStopEnv escapingWorld "p1").1 !! "/tmp/storyden-sdx-42"
    = Some (DirNode 448).
Proof. split_and!; vm_compute; reflexivity. Qed.

(** ** The manager *)

Section ManagerClaims.
Context {W : Type} (h : handler W).

Lemma run_bind {A B} (m : prog A) (f : A → prog B) w :
  run h (m ≫= f) w =
  let '(a, w1, t1) := run h m w in
  let '(b, w2, t2) := run h (f a) w1 in
  (b, w2, t1 ++ t2).
Proof.
  revert w. induction m as [a|c k IH]; intros w.
  - cbn. by destruct (run h (f a) w) as [[b w2] t2].
  - change (Call c k ≫= f) with (Call c (λ r, k r ≫= f)). cbn.
    destruct (h c w) as [r w1]. rewrite IH.
    destruct (run h (k r) w1) as [[a w2] t1].
    by destruct (run h (f a) w2) as [[b w3] t2].
Qed.

(** C9. The record of [id] is read.  Desired [active]: when [GetSession]
    finds a session the runner is asked to start it and nothing is loaded;
    when it finds none the stored binary is loaded with [Load] and the
    plugin is then started (a binary that cannot be read or loaded ends the
    call with that error, nothing is started).  Desired [inactive]: the
    runner is asked to stop the plugin, nothing else.  Any other desired
    value: the error "unknown desired state" and no call on the runner. *)
Theorem SetActiveState_calls id desired rec w w0 :
  h (QuerierGet id) w = (OK rec, w0) →
  let mid := ID (recordManifest rec) in
  let calls := runnerCalls h (Manager.SetActiveState id desired) w in
  let res := resultOf h (Manager.SetActiveState id desired) w in
  (desired = ActiveStateActive →
     (∀ p w1, h (RunnerGetSession mid) w0 = (OK p, w1) →
        calls = [RunnerGetSession mid; RunnerStartPlugin mid])
     ∧ (∀ e w1 bin w2 p w3,
        h (RunnerGetSession mid) w0 = (Err e, w1) →
        h (QuerierLoadBinary (recordID rec)) w1 = (OK bin, w2) →
        h (RunnerLoad bin) w2 = (OK p, w3) →
        calls = [RunnerGetSession mid; RunnerLoad bin; RunnerStartPlugin mid])
     ∧ (∀ e w1 bin w2 e' w3,
        h (RunnerGetSession mid) w0 = (Err e, w1) →
        h (QuerierLoadBinary (recordID rec)) w1 = (OK bin, w2) →
        h (RunnerLoad bin) w2 = (Err e', w3) →
        calls = [RunnerGetSession mid; RunnerLoad bin]
        ∧ res = Some (WrapCtx (WrapCtx e')))
     ∧ (∀ e w1 e' w2,
        h (RunnerGetSession mid) w0 = (Err e, w1) →
        h (QuerierLoadBinary (recordID rec)) w1 = (Err e', w2) →
        calls = [RunnerGetSession mid]
        ∧ res = Some (WrapCtx (WrapCtx e'))))
  ∧ (desired = ActiveStateInactive →
     calls = [RunnerStopPlugin mid]
     ∧ res = match (h (RunnerStopPlugin mid) w0).1 with
             | Some e => Some (WrapCtx (WrapCtx e))
             | None => None
             end)
  ∧ (activeStateValue desired ≠ "active" → activeStateValue desired ≠ "inactive" →
     calls = [] ∧ res = Some (New "unknown desired state")).
Proof.
  intros Hget mid calls res. subst calls res. unfold runnerCalls, resultOf.
  unfold Manager.SetActiveState, Manager.activatePlugin, Manager.deactivatePlugin,
    perform, mbind, prog_bind, mret, prog_ret.
  cbn [bind run]. rewrite Hget. fold mid. split_and!.
  - intros ->. cbn. split_and!.
    + intros p w1 H1. rewrite H1. cbn.
      destruct (h (RunnerStartPlugin mid) w1) as [[e|] w2]; reflexivity.
    + intros e w1 bin w2 p w3 H1 H2 H3. rewrite H1. cbn. rewrite H2. cbn.
      rewrite H3. cbn.
      destruct (h (RunnerStartPlugin mid) w3) as [[e1|] w4]; reflexivity.
    + intros e w1 bin w2 e' w3 H1 H2 H3. rewrite H1. cbn. rewrite H2. cbn.
      rewrite H3. cbn. done.
    + intros e w1 e' w2 H1 H2. rewrite H1. cbn. rewrite H2. cbn. done.
  - intros ->. cbn.
    destruct (h (RunnerStopPlugin mid) w0) as [[e|] w1]; cbn; done.
  - intros H1 H2. apply String.eqb_neq in H1, H2. rewrite H1, H2. done.
Qed.

End ManagerClaims.

(** ** Unloading *)

Section Unloading.
Context `{Libs}.

Lemma StopPlugin_sessions senv w id :
  sessions (sdxRunner.StopPlugin senv w id).1 = sessions w.
Proof.
  unfold sdxRunner.StopPlugin. destruct (sessions w !! id) as [p|]; [|done].
  destruct (heap w !! p) as [s|]; [|done]. by destruct (sdxRunner.stopSession senv s).
Qed.

Lemma StopPlugin_logs senv w id :
  logs (sdxRunner.StopPlugin senv w id).1 = logs w.
Proof.
  unfold sdxRunner.StopPlugin. destruct (sessions w !! id) as [p|]; [|done].
  destruct (heap w !! p) as [s|]; [|done]. by destruct (sdxRunner.stopSession senv s).
Qed.

(** C10. With a session registered for [id], [Unload] returns [nil] and the
    registry no longer has [id] (the other identifiers keep their
    sessions), so that [GetSession] answers "plugin session not found"; an
    error of the stop inside it only adds a warning to the log.  Without a
    session for [id], [Unload] answers "plugin session not found" and
    changes nothing.  Both hold for the subprocess runner, whatever happens
    while the plugin is stopped, and for the WebAssembly runner. *)
Theorem Unload_removes_session senv w ww id :
  (∀ p, sessions w !! id = Some p →
     let w' := (sdxRunner.Unload senv w id).1 in
     (sdxRunner.Unload senv w id).2 = None
     ∧ sessions w' = delete id (sessions w)
     ∧ sdxRunner.GetSession w' id = Err (New "plugin session not found")
     ∧ (∀ e, (sdxRunner.StopPlugin senv w id).2 = Some e →
          logs w' = logs w ++ [{| logLevel := LevelWarn;
                                  logMsg := "failed to stop plugin during unload";
                                  logAttr := Error e |}]))
  ∧ (sessions w !! id = None →
     sdxRunner.Unload senv w id = (w, Some (New "plugin session not found"))
     ∧ sdxRunner.GetSession w id = Err (New "plugin session not found"))
  ∧ (∀ p, wsessions ww !! id = Some p →
     let ww' := (wazeroRunner.Unload ww id).1 in
     (wazeroRunner.Unload ww id).2 = None
     ∧ wsessions ww' = delete id (wsessions ww)
     ∧ wazeroRunner.GetSession ww' id = Err (New "plugin session not found"))
  ∧ (wsessions ww !! id = None →
     wazeroRunner.Unload ww id = (ww, Some (New "plugin session not found"))).
Proof.
  split_and!.
  - intros p Hid. unfold sdxRunner.Unload. rewrite Hid.
    pose proof (StopPlugin_sessions senv w id) as Hs.
    pose proof (StopPlugin_logs senv w id) as Hl.
    destruct (sdxRunner.StopPlugin senv w id) as [w1 err]. cbn [fst snd] in *.
    set (w2 := match err with Some e => _ | None => w1 end).
    assert (sessions w2 = sessions w) as Hs2 by (subst w2; by destruct err).
    set (w3 := setSessions (delete id (sessions w2)) w2).
    assert (∀ w4, sessions w4 = delete id (sessions w) →
              sdxRunner.GetSession w4 id = Err (New "plugin session not found")) as Hget.
    { intros w4 E. unfold sdxRunner.GetSession. by rewrite E, lookup_delete_eq. }
    assert (sessions w3 = delete id (sessions w)) as Hs3 by (subst w3; cbn; by rewrite Hs2).
    assert (∀ e, err = Some e →
              logs w3 = logs w ++ [{| logLevel := LevelWarn;
                                      logMsg := "failed to stop plugin during unload";
                                      logAttr := Error e |}]) as Hlog.
    { intros e ->. subst w3 w2. cbn. by rewrite Hl. }
    destruct (heap w3 !! p) as [s|]; [destruct (String.eqb (workdir s) "")|];
      cbn [fst snd]; split_and!; auto.
  - intros Hid. unfold sdxRunner.Unload, sdxRunner.GetSession. by rewrite Hid.
  - intros p Hid. unfold wazeroRunner.Unload, wazeroRunner.GetSession. rewrite Hid. cbn.
    by rewrite lookup_delete_eq.
  - intros Hid. unfold wazeroRunner.Unload. by rewrite Hid.
Qed.

End Unloading.

Lemma Unload_removes_session_witness :
  (sdxRunner.StopPlugin failingStopEnv activeWorld "p1").2
  = Some (Wrap (Foreign "operation not permitted") "failed to stop plugin process")
  ∧ (sdxRunner.Unload failingStopEnv activeWorld "p1").2 = None
  ∧ sdxRunner.GetSession (sdxRunner.Unload failingStopEnv activeWorld "p1").1 "p1"
    = Err (New "plugin session not found")
  ∧ (wazeroRunner.Unload demoWazero "w1").2 = None.
Proof.
  assert (sessions activeWorld !! "p1" = Some 0) as H1 by (vm_compute; reflexivity).
  assert (wsessions demoWazero !! "w1" = Some 0) as H2 by (vm_compute; reflexivity).
  destruct (Unload_removes_session failingStopEnv activeWorld demoWazero "p1")
    as (S1 & _ & _ & _).
  destruct (Unload_removes_session failingStopEnv activeWorld demoWazero "w1")
    as (_ & _ & S3 & _).
  destruct (S1 0 H1) as (R1 & _ & R3 & _). destruct (S3 0 H2) as (R4 & _).
  split_and!; [vm_compute; reflexivity|exact R1|exact R3|exact R4].
Defined.

Lemma SetActiveState_calls_witness :
  runnerCalls (sdxHandler demoStopEnv demoStore)
    (Manager.SetActiveState "p1" ActiveStateActive) emptyWorld
  = [RunnerGetSession "p1"; RunnerLoad [x01]; RunnerStartPlugin "p1"].
Proof.
  destruct (SetActiveState_calls (sdxHandler demoStopEnv demoStore) "p1" ActiveStateActive
              {| recordID := "r1"; recordManifest := {| ID := "p1"; manifestRest := "" |} |}
              emptyWorld emptyWorld) as (A & _).
  { vm_compute. reflexivity. }
  destruct (A eq_refl) as (_ & A2 & _).
  apply (A2 (New "plugin session not found") emptyWorld [x01] emptyWorld 0
            (sdxRunner.Load emptyWorld [x01]).1); vm_compute; reflexivity.
Defined.
(** ** More on [joinWithin] *)

Section MorePaths.
Import filepath strings.

Lemma within_iff_elements base t :
  (t = base ∨ HasPrefix t (base +:+ "/") = true) ↔ split base `prefix_of` split t.
Proof.
  split.
  - intros [->|[rest ->]%HasPrefix_spec]; [done|].
    rewrite app_assoc', split_app_sep. by apply prefix_app_r.
  - intros [ext E]. apply (f_equal join) in E. rewrite join_split in E.
    destruct ext as [|x ext].
    + rewrite app_nil_r, join_split in E. by left.
    + right. rewrite join_app, join_split in E by (done || apply split_nonnil).
      apply HasPrefix_spec. eexists. rewrite E. by rewrite app_assoc'.
Qed.

Lemma HasPrefix_app_cancel b x y : HasPrefix (b +:+ x) (b +:+ y) = HasPrefix x y.
Proof.
  induction b as [|a b IH]; [done|].
  change (HasPrefix (String a (b +:+ x)) (String a (b +:+ y)) = HasPrefix x y).
  cbn [HasPrefix]. by rewrite Ascii.eqb_refl, IH.
Qed.

Lemma str_app_inv_nil b x : b +:+ x = b → x = "".
Proof.
  induction b as [|a b IH]; [done|]. rewrite str_app_cons. intros [= E]. auto.
Qed.

(** X1. [joinWithin] accepts a name exactly when the path elements of the
    directory are the leading elements of the cleaned join, and it then
    returns that join; a join that only continues the last element of the
    directory with more characters is refused. *)
Theorem joinWithin_accepts_iff base name :
  (joinWithin base name = OK (Join base name) ↔
     split base `prefix_of` split (Join base name))
  ∧ (joinWithin base name = Err (New "archive entry escapes extraction directory") ↔
       ¬ split base `prefix_of` split (Join base name))
  ∧ (∀ c suffix, isSep c = false →
       Join base name = base +:+ String c suffix →
       joinWithin base name = Err (New "archive entry escapes extraction directory")).
Proof.
  assert (∀ t, joinWithin base name = OK t → t = Join base name) as Hok.
  { intros t Ht. by apply joinWithin_OK in Ht as [-> _]. }
  assert (joinWithin base name = OK (Join base name) ↔
          split base `prefix_of` split (Join base name)) as H1.
  { rewrite <- within_iff_elements. split.
    - intros Ht. by apply joinWithin_OK in Ht as [_ ?].
    - intros Hw. destruct (joinWithin base name) as [err|t] eqn:E.
      + apply joinWithin_Err in E as (Hne & Hp & _).
        destruct Hw as [?|?]; congruence.
      + pose proof E as E'. apply joinWithin_OK in E' as [-> _]. done. }
  assert (joinWithin base name = Err (New "archive entry escapes extraction directory") ↔
          ¬ split base `prefix_of` split (Join base name)) as H2.
  { rewrite <- H1. split; [intros E1 E2; congruence|].
    intros Hno. destruct (joinWithin base name) as [err|t] eqn:E.
    - by apply joinWithin_Err in E as (_ & _ & ->).
    - destruct Hno. apply joinWithin_OK in E as [-> _]. done. }
  split_and!; [done..|].
  intros c suffix Hc E. apply H2. rewrite <- within_iff_elements, E.
  intros [Heq|Hp].
  - by apply str_app_inv_nil in Heq.
  - rewrite HasPrefix_app_cancel in Hp.
    change (Ascii.eqb "/" c && HasPrefix suffix "" = true) in Hp.
    apply andb_true_iff in Hp as [Hp _]. apply Ascii.eqb_eq in Hp. subst c. done.
Qed.

Lemma fold_split_render r out :
  nfS r out →
  fold_left (cleanStep r) (split (render r (reverse out))) [] = out
  ∧ rooted (render r (reverse out)) = r
  ∧ render r (reverse out) ≠ "".
Proof.
  intros Hnf. pose proof (fold_cleanStep_reverse _ _ Hnf) as Hfold.
  pose proof (nfS_hasSep _ _ Hnf) as Hsep. apply Forall_reverse in Hsep.
  destruct r; unfold render.
  - change ("/" +:+ join (reverse out)) with (String "/" (join (reverse out))).
    cbn [rooted split]. replace (isSep "/") with true by done.
    split_and!; [|done|done].
    destruct (reverse out) as [|c cs] eqn:E.
    + apply (f_equal reverse) in E. rewrite reverse_involutive in E. by subst.
    + rewrite split_join by done. exact Hfold.
  - destruct (reverse out) as [|c cs] eqn:E.
    + apply (f_equal reverse) in E. rewrite reverse_involutive in E. by subst.
    + destruct (nfS_head_char _ _ _ _ Hnf E) as (a & s & -> & Ha).
      rewrite split_join by done. rewrite join_head. cbn [rooted]. by rewrite Ha.
Qed.

Lemma rooted_app a b : a ≠ "" → rooted (a +:+ b) = rooted a.
Proof. by destruct a. Qed.

(** X2. Below a cleaned directory other than ["/"] and ["."], a name made
    of plain elements (none empty, [.] or [..], none with a separator) is
    accepted, and its target is the directory, a separator and the name. *)
Theorem joinWithin_plain_name base cs :
  Clean base = base → base ≠ "/" → base ≠ "." →
  Forall normal cs → cs ≠ [] →
  joinWithin base (join cs) = OK (base +:+ "/" +:+ join cs).
Proof.
  intros Hclean H1 H2 Hcs Hne.
  destruct (Clean_shape base) as (r & out & Hnf & Hs). rewrite Hclean in Hs.
  assert (out ≠ []) as Hout.
  { intros ->. subst base. by destruct r. }
  destruct (fold_split_render r out Hnf) as (Hfold & Hroot & Hnonempty).
  rewrite <- Hs in Hfold, Hroot, Hnonempty.
  assert (Join base (join cs) = base +:+ "/" +:+ join cs) as HJ.
  { unfold Join. destruct base as [|a b] eqn:Eb; [done|]. rewrite <- Eb in *.
    unfold Clean.
    assert (∃ a' b', base +:+ "/" +:+ join cs = String a' b') as (a' & b' & E).
    { rewrite Eb. rewrite str_app_cons. eauto. }
    rewrite E, <- E. rewrite rooted_app, Hroot by done.
    rewrite split_app_sep, fold_left_app, Hfold.
    rewrite split_join; [|done|].
    - rewrite fold_cleanStep_normal by done.
      rewrite reverse_app, reverse_involutive, render_app; [by rewrite <- Hs|..|done].
      intros E'. apply (f_equal reverse) in E'. by rewrite reverse_involutive in E'.
    - eapply Forall_impl; [exact Hcs|]. intros c. apply normal_noSep. }
  unfold joinWithin. rewrite HJ. rewrite <- app_assoc', HasPrefix_app. done.
Qed.

End MorePaths.

Lemma joinWithin_plain_name_witness :
  joinWithin "/tmp/storyden-sdx-42" "plugin/main" = OK "/tmp/storyden-sdx-42/plugin/main".
Proof.
  apply (joinWithin_plain_name "/tmp/storyden-sdx-42" ["plugin"; "main"]);
    try done; repeat constructor; done.
Defined.

(** ** More on archives: the manifest, extraction and what it leaves *)

Section MoreArchive.
Context `{Libs}.
Import filepath strings.

(** X3. [readSDXManifest] reads the first entry with base name
    [manifest.json] and nothing else: when that entry cannot be opened or
    read the call fails, whatever entries follow, and without such an entry
    it fails with "manifest.json not found in plugin archive". *)
Theorem readSDXManifest_first_entry_only bin files :
  zip_NewReader bin = OK files →
  (∀ file, firstManifest files file →
     readSDXManifest bin
     = match Open file with
       | inl err => Err (Wrap err "failed to open manifest")
       | inr rc =>
           match rcErr rc with
           | Some err => Err (Wrap err "failed to read manifest")
           | None => OK (rcData rc)
           end
       end)
  ∧ (Forall (λ f, Base (Name f) ≠ "manifest.json") files →
     readSDXManifest bin = Err (New "manifest.json not found in plugin archive")).
Proof.
  intros Hz. unfold readSDXManifest. rewrite Hz. clear Hz. split.
  - intros file (pre & post & -> & Hpre & Hfile).
    induction Hpre as [|f pre Hf Hpre IH]; simpl.
    + apply String.eqb_eq in Hfile. rewrite Hfile. simpl.
      destruct (Open file) as [err|rc]; [done|]. unfold io_ReadAll. by destruct (rcErr rc).
    + apply String.eqb_neq in Hf. rewrite Hf. simpl. exact IH.
  - intros Hall. induction Hall as [|f files Hf Hall IH]; [done|]. simpl.
    apply String.eqb_neq in Hf. rewrite Hf. simpl. exact IH.
Qed.

(** *** What extraction leaves behind *)

Lemma filesKept_refl fs : filesKept fs fs.
Proof. by intros k Hk. Qed.

Lemma filesKept_trans fs1 fs2 fs3 :
  filesKept fs1 fs2 → filesKept fs2 fs3 → filesKept fs1 fs3.
Proof. intros H12 H23 k Hk. auto. Qed.

Lemma lookupKey_isFileAt fs k p d :
  os.lookupKey fs k = Some (FileNode p d) → isFileAt fs k.
Proof.
  unfold os.lookupKey, isFileAt. destruct (os.rootLike k); [done|]. eauto.
Qed.

Lemma isFileAt_lookupKey fs k :
  isFileAt fs k → ∃ p d, os.lookupKey fs k = Some (FileNode p d).
Proof. intros [Hr (p & d & E)]. exists p, d. unfold os.lookupKey. by rewrite Hr. Qed.

Lemma insert_dir_filesKept fs k n :
  os.lookupKey fs k = None → filesKept fs (<[k := n]> fs).
Proof.
  intros Hk q [Hr (p & d & E)]. split; [done|]. exists p, d.
  rewrite lookup_insert_ne; [done|]. intros ->.
  unfold os.lookupKey in Hk. rewrite Hr in Hk. congruence.
Qed.

Lemma insert_file_filesKept fs k p d :
  os.rootLike k = false → filesKept fs (<[k := FileNode p d]> fs).
Proof.
  intros Hk q [Hr (p' & d' & E)]. split; [done|].
  destruct (decide (k = q)) as [<-|NE].
  - rewrite lookup_insert_eq. eauto.
  - rewrite lookup_insert_ne by done. eauto.
Qed.

Lemma lookupKey_not_rootLike fs k n :
  os.lookupKey fs k = n → (∀ p, n ≠ Some (DirNode p)) → os.rootLike k = false.
Proof.
  unfold os.lookupKey. destruct (os.rootLike k); [|done]. intros <- Hn. by destruct (Hn 493%N).
Qed.

Lemma mkdirKey_filesKept fs k perm fs' e :
  os.mkdirKey fs k perm = (fs', e) → filesKept fs fs'.
Proof.
  unfold os.mkdirKey. destruct (os.lookupKey fs k) eqn:Ek; [intros [= <- _]; apply filesKept_refl|].
  destruct (os.lookupKey fs (Dir k)) as [[?|??]|]; intros [= <- _];
    try apply filesKept_refl. by apply insert_dir_filesKept.
Qed.

Lemma mkdirChain_filesKept fs chain perm fs' e :
  os.mkdirChain fs chain perm = (fs', e) → filesKept fs fs'.
Proof.
  revert fs' e. induction chain as [|q chain IH]; intros fs' e; simpl.
  { intros [= <- _]. apply filesKept_refl. }
  destruct (os.lookupKey fs q) as [[?|??]|]; try (intros [= <- _]; apply filesKept_refl).
  destruct (os.mkdirChain fs chain perm) as [fs1 [e1|]] eqn:E1.
  - intros [= <- _]. by eapply IH.
  - intros E2. eapply filesKept_trans; [by eapply IH|by eapply mkdirKey_filesKept].
Qed.

Lemma MkdirAll_filesKept env i fs k perm fs' e :
  os.MkdirAll env i fs k perm = (fs', e) → filesKept fs fs'.
Proof.
  unfold os.MkdirAll. destruct (fault env i OpMkdirAll).
  - intros [= <- _]. apply filesKept_refl.
  - apply mkdirChain_filesKept.
Qed.

(** [MkdirAll] without error: the directory is there. *)
Lemma mkdirKey_made fs k perm fs' :
  os.mkdirKey fs k perm = (fs', None) → isDirAt fs' k.
Proof.
  unfold os.mkdirKey. destruct (os.lookupKey fs k) eqn:Ek; [done|].
  destruct (os.lookupKey fs (Dir k)) as [[?|??]|]; intros [= <-].
  exists perm. unfold os.lookupKey in *. destruct (os.rootLike k); [done|].
  by rewrite lookup_insert_eq.
Qed.

Lemma MkdirAll_made env i fs k perm fs' :
  os.MkdirAll env i fs k perm = (fs', None) → isDirAt fs' (Clean k).
Proof.
  unfold os.MkdirAll. destruct (fault env i OpMkdirAll); [done|]. simpl.
  destruct (os.lookupKey fs (Clean k)) as [[p|??]|] eqn:Ek.
  - intros [= <-]. by exists p.
  - done.
  - destruct (os.mkdirChain fs (os.parents (Clean k)) _) as [fs1 [e1|]]; [done|].
    apply mkdirKey_made.
Qed.

Lemma OpenFile_OK env i fs k mode fs' out :
  Clean k = k →
  os.OpenFile env i fs k mode = (fs', OK out) →
  out = k ∧ os.rootLike k = false ∧ filesKept fs fs'
  ∧ ∃ p, fs' !! k = Some (FileNode p [])
       ∧ (os.lookupKey fs k = None → p = os.created env mode).
Proof.
  intros Hk. unfold os.OpenFile. destruct (fault env i OpOpenFile); [done|]. rewrite Hk.
  destruct (os.lookupKey fs k) as [[p|p d]|] eqn:Ek; [done| |].
  - intros [= <- <-].
    assert (os.rootLike k = false) as Hr by (by eapply lookupKey_not_rootLike).
    split_and!; [done..|by apply insert_file_filesKept|].
    exists p. by rewrite lookup_insert_eq.
  - destruct (os.lookupKey fs (Dir k)) as [[p|p d]|]; [|done..]. intros [= <- <-].
    assert (os.rootLike k = false) as Hr by (by eapply lookupKey_not_rootLike).
    split_and!; [done..|by apply insert_file_filesKept|].
    eexists. by rewrite lookup_insert_eq.
Qed.

Lemma write_to_file fs k p old data :
  os.rootLike k = false → fs !! k = Some (FileNode p old) →
  filesKept fs (os.write fs k data)
  ∧ os.write fs k data !! k = Some (FileNode p (old ++ data)).
Proof.
  intros Hr E. unfold os.write. rewrite E. split.
  - by apply insert_file_filesKept.
  - by rewrite lookup_insert_eq.
Qed.

(** The execute bits, [0o111]. *)
Lemma testbit_73_above n : (7 ≤ n)%N → N.testbit 73 n = false.
Proof. intros Hn. apply N.bits_above_log2. change (N.log2 73) with 6%N. lia. Qed.

Lemma extractedMode_executable file :
  isExecutableName (Name file) = true →
  N.land (extractedMode file) 73 ≠ 0%N.
Proof.
  intros Hx. unfold extractedMode. rewrite Hx, andb_true_r.
  destruct (N.eqb (N.land (Mode file) 73) 0) eqn:E.
  - intros Hz. apply (f_equal (λ n, N.testbit n 0)) in Hz.
    rewrite !N.land_spec, N.lor_spec in Hz. cbn in Hz.
    by rewrite orb_true_r in Hz.
  - by apply N.eqb_neq in E.
Qed.

(** A umask without execute bits leaves the execute bits asked for. *)
Lemma created_execute_bits env mode :
  N.land (umask env) 73 = 0%N →
  N.land (os.created env mode) 73 = N.land mode 73.
Proof.
  intros Hu. apply N.bits_inj. intros n. unfold os.created, os.syscallMode.
  rewrite !N.land_spec, N.ldiff_spec, !N.lor_spec, !N.land_spec.
  destruct (N.testbit 73 n) eqn:E73; [|by rewrite !andb_false_r].
  rewrite !andb_true_r.
  assert (n < 7)%N as Hn.
  { destruct (N.lt_ge_cases n 7) as [?|Hge]; [done|].
    apply testbit_73_above in Hge. congruence. }
  assert (N.testbit (umask env) n = false) as ->.
  { apply (f_equal (λ a, N.testbit a n)) in Hu.
    by rewrite N.land_spec, E73, andb_true_r, N.bits_0 in Hu. }
  assert (N.testbit ModePerm n = true) as ->.
  { assert (n = 0 ∨ n = 1 ∨ n = 2 ∨ n = 3 ∨ n = 4 ∨ n = 5 ∨ n = 6)%N as Hcases by lia.
    by destruct Hcases as [->|[->|[->|[->|[->|[->| ->]]]]]]. }
  assert (∀ b k, (9 ≤ k)%N → N.testbit (if b : bool then 2 ^ k else 0) n = false) as Hhigh.
  { intros [] k Hk; [|apply N.bits_0]. apply N.pow2_bits_false. lia. }
  change 2048%N with (2 ^ 11)%N. change 1024%N with (2 ^ 10)%N. change 512%N with (2 ^ 9)%N.
  rewrite !Hhigh by lia. by destruct (N.testbit mode n).
Qed.

Lemma mkdirChain_dirsKept fs chain perm fs' e :
  os.mkdirChain fs chain perm = (fs', e) → dirsKept fs fs'.
Proof.
  revert fs' e. induction chain as [|q chain IH]; intros fs' e; simpl.
  { intros [= <- _]. apply dirsKept_refl. }
  destruct (os.lookupKey fs q) as [[?|??]|]; try (intros [= <- _]; apply dirsKept_refl).
  destruct (os.mkdirChain fs chain perm) as [fs1 [e1|]] eqn:E1.
  - intros [= <- _]. by eapply IH.
  - intros E2. eapply dirsKept_trans; [by eapply IH|].
    by apply (mkdirKey_spec "" _ _ _ _ _ E2).
Qed.

Lemma MkdirAll_dirsKept env i fs k perm fs' e :
  os.MkdirAll env i fs k perm = (fs', e) → dirsKept fs fs'.
Proof.
  unfold os.MkdirAll. destruct (fault env i OpMkdirAll).
  - intros [= <- _]. apply dirsKept_refl.
  - apply mkdirChain_dirsKept.
Qed.

Lemma mkdirKey_adds_dir fs k perm fs' e q :
  os.mkdirKey fs k perm = (fs', e) → fs' !! q = fs !! q ∨ fs' !! q = Some (DirNode perm).
Proof.
  unfold os.mkdirKey. destruct (os.lookupKey fs k); [intros [= <- _]; by left|].
  destruct (os.lookupKey fs (Dir k)) as [[?|??]|]; intros [= <- _]; try by left.
  destruct (decide (k = q)) as [<-|NE].
  - right. by rewrite lookup_insert_eq.
  - left. by rewrite lookup_insert_ne.
Qed.

Lemma mkdirChain_adds_dirs fs chain perm fs' e q :
  os.mkdirChain fs chain perm = (fs', e) →
  fs' !! q = fs !! q ∨ fs' !! q = Some (DirNode perm).
Proof.
  revert fs' e. induction chain as [|c chain IH]; intros fs' e; simpl.
  { intros [= <- _]. by left. }
  destruct (os.lookupKey fs c) as [[?|??]|]; try (intros [= <- _]; by left).
  destruct (os.mkdirChain fs chain perm) as [fs1 [e1|]] eqn:E1.
  - intros [= <- _]. by eapply IH.
  - intros E2. destruct (mkdirKey_adds_dir _ _ _ _ _ q E2) as [->|?]; [|by right].
    by eapply IH.
Qed.

Lemma MkdirAll_adds_dirs env i fs k perm fs' e q :
  os.MkdirAll env i fs k perm = (fs', e) →
  fs' !! q = fs !! q ∨ fs' !! q = Some (DirNode (os.createdDir env perm)).
Proof.
  unfold os.MkdirAll. destruct (fault env i OpMkdirAll).
  - intros [= <- _]. by left.
  - apply mkdirChain_adds_dirs.
Qed.

Lemma extractEntry_file_inv env i fs base file binaryPath fs' binaryPath' :
  base ≠ "" →
  isDirAt fs (Clean base) →
  IsDir file = false →
  extractEntry env i fs base file binaryPath = (fs', OK binaryPath') →
  ∃ target rc perm,
    joinWithin base (Name file) = OK target
    ∧ HasPrefix target (base +:+ "/") = true
    ∧ Open file = OK rc
    ∧ os.rootLike target = false
    ∧ fs' !! target = Some (FileNode perm (rcData rc))
    ∧ (os.lookupKey fs target = None → perm = os.created env (extractedMode file))
    ∧ (isExecutableName (Name file) = true →
         N.land (extractedMode file) 73 ≠ 0%N
         ∧ (os.lookupKey fs target = None → N.land (umask env) 73 = 0%N →
            N.land perm 73 ≠ 0%N))
    ∧ binaryPath' = (if isExecutableName (Name file) then target else binaryPath)
    ∧ filesKept fs fs'.
Proof.
  intros Hb Hbase Hnd. unfold extractEntry. rewrite Hnd.
  destruct (joinWithin base (Name file)) as [err|t] eqn:Ej; [done|].
  pose proof Ej as Ej'. apply joinWithin_OK in Ej' as [Et Hwhere].
  destruct (os.MkdirAll env i fs (Dir t) 493) as [fs1 [e|]] eqn:Emk; [done|].
  destruct (Open file) as [err|rc] eqn:Eo; [done|].
  destruct (os.OpenFile env i fs1 t (extractedMode file)) as [fs2 [err|out]] eqn:Eop; [done|].
  assert (Clean t = t) as Hclean by (rewrite Et; by apply Join_clean).
  destruct (OpenFile_OK _ _ _ _ _ _ _ Hclean Eop) as (-> & Hr & K2 & p & Hp & Hnew).
  unfold io_Copy. destruct (fault env i OpWrite); [done|].
  destruct (rcErr rc); [done|]. intros [= <- <-].
  destruct (write_to_file fs2 t p [] (rcData rc) Hr Hp) as [K3 Hw].
  pose proof (MkdirAll_dirsKept _ _ _ _ _ _ _ Emk) as K1.
  pose proof (MkdirAll_filesKept _ _ _ _ _ _ _ Emk) as F1.
  destruct (OpenFile_spec _ _ _ "" _ _ _ _ Hclean Eop) as (_ & _ & Hisdir & _).
  assert (¬ isDirAt fs1 t) as Hnodir.
  { intros Hd. by destruct (Hisdir Hd) as [_ [err [=]]]. }
  assert (HasPrefix t (base +:+ "/") = true) as Hpre.
  { destruct Hwhere as [->|?]; [|done]. exfalso.
    rewrite Hclean in Hbase. by apply K1 in Hbase. }
  assert (os.lookupKey fs t = None → p = os.created env (extractedMode file)) as Hperm;
    [|exists t, rc, p; split_and!; try done].
  - intros Hnone. assert (os.lookupKey fs1 t = None) as Hnone1.
    { unfold os.lookupKey in *. rewrite Hr in *.
      destruct (MkdirAll_adds_dirs _ _ _ _ _ _ _ t Emk) as [->|Ed]; [done|].
      destruct Hnodir. eexists. unfold os.lookupKey. by rewrite Hr. }
    exact (Hnew Hnone1).
  - intros Hx. split; [by apply extractedMode_executable|].
    intros Hnone Hu. rewrite (Hperm Hnone), created_execute_bits by done.
    by apply extractedMode_executable.
  - eapply filesKept_trans; [exact F1|]. by eapply filesKept_trans.
Qed.

Lemma extractEntry_filesKept env i fs base file bp fs' bp' :
  base ≠ "" → isDirAt fs (Clean base) →
  extractEntry env i fs base file bp = (fs', OK bp') → filesKept fs fs'.
Proof.
  intros Hb Hbase E. destruct (IsDir file) eqn:Ed.
  - unfold extractEntry in E. rewrite Ed in E.
    destruct (joinWithin base (Name file)) as [err|t]; [done|].
    destruct (os.MkdirAll env i fs t 493) as [fs1 [e|]] eqn:Emk; [done|].
    injection E as <- _. by eapply MkdirAll_filesKept.
  - by destruct (extractEntry_file_inv _ _ _ _ _ _ _ _ Hb Hbase Ed E)
      as (t & rc & p & _ & _ & _ & _ & _ & _ & _ & _ & K).
Qed.

Lemma extractEntries_filesKept env i fs base files bp fs' bp' :
  base ≠ "" → anchored fs base →
  extractEntries env i fs base files bp = (fs', OK bp') → filesKept fs fs'.
Proof.
  intros Hb. revert i fs bp. induction files as [|file files IH]; intros i fs bp Hanch; simpl.
  { intros [= <- _]. apply filesKept_refl. }
  destruct (extractEntry env i fs base file bp) as [fs1 [err|bp1]] eqn:E1; [done|].
  destruct (extractEntry_spec _ _ _ _ _ _ _ _ Hb Hanch E1) as [K1 _].
  intros E2. eapply filesKept_trans.
  - eapply extractEntry_filesKept; [done|apply Hanch|exact E1].
  - eapply IH; [by eapply anchored_kept|exact E2].
Qed.

Lemma extractEntry_directory env i fs base file bp fs' bp' :
  IsDir file = true →
  extractEntry env i fs base file bp = (fs', OK bp') → bp' = bp.
Proof.
  intros Ed. unfold extractEntry. rewrite Ed.
  destruct (joinWithin base (Name file)) as [err|t]; [done|].
  destruct (os.MkdirAll env i fs t 493) as [fs1 [e|]]; [done|]. by intros [= _ <-].
Qed.

(** The executables an archive would run: entries named [main] or
    [main.exe] that are no directories. *)
Lemma extractEntries_binary env i fs base files bp fs' bp' :
  base ≠ "" → anchored fs base →
  extractEntries env i fs base files bp = (fs', OK bp') →
  (bp' = bp ∧ Forall (λ f, isExecutableName (Name f) = true → IsDir f = true) files)
  ∨ (∃ pre file post,
       files = pre ++ file :: post
       ∧ isExecutableName (Name file) = true ∧ IsDir file = false
       ∧ Forall (λ f, isExecutableName (Name f) = true → IsDir f = true) post
       ∧ joinWithin base (Name file) = OK bp'
       ∧ HasPrefix bp' (base +:+ "/") = true
       ∧ isFileAt fs' bp').
Proof.
  intros Hb. revert i fs bp. induction files as [|file files IH]; intros i fs bp Hanch; simpl.
  { intros [= <- <-]. by left. }
  destruct (extractEntry env i fs base file bp) as [fs1 [err|bp1]] eqn:E1; [done|].
  destruct (extractEntry_spec _ _ _ _ _ _ _ _ Hb Hanch E1) as [K1 _].
  pose proof (anchored_kept _ _ _ K1 Hanch) as Hanch1.
  intros E2. destruct (IH _ _ _ Hanch1 E2) as [[-> Hall]|(pre & f & post & -> & Hx & Hd & Hpost & Hj & Hp & Hf)].
  - destruct (IsDir file) eqn:Ed.
    + left. split; [by eapply extractEntry_directory|]. by constructor.
    + destruct (extractEntry_file_inv _ _ _ _ _ _ _ _ Hb (proj1 Hanch) Ed E1)
        as (t & rc & p & Hj & Hp & _ & Hr & Hl & _ & _ & -> & _).
      destruct (isExecutableName (Name file)) eqn:Ex.
      * right. exists [], file, files. split_and!; try done.
        eapply extractEntries_filesKept; [done|exact Hanch1|exact E2|].
        split; [done|]. eauto.
      * left. split; [done|]. constructor; [by rewrite Ex|done].
  - right. exists (file :: pre), f, post. by split_and!.
Qed.

Lemma extractSDXArchive_success env fs bin fs' workdir binaryPath :
  extractSDXArchive env fs bin = (fs', OK (workdir, binaryPath)) →
  ∃ files pre file post,
    zip_NewReader bin = OK files
    ∧ files = pre ++ file :: post
    ∧ isExecutableName (Name file) = true ∧ IsDir file = false
    ∧ Forall (λ f, isExecutableName (Name f) = true → IsDir f = true) post
    ∧ joinWithin workdir (Name file) = OK binaryPath
    ∧ HasPrefix binaryPath (workdir +:+ "/") = true
    ∧ isFileAt fs' binaryPath
    ∧ isDirAt fs' (Clean workdir)
    ∧ ¬ isDirAt fs (Clean workdir).
Proof.
  unfold extractSDXArchive. destruct (zip_NewReader bin) as [err|files]; [done|].
  destruct (os.MkdirTemp env fs "storyden-sdx-") as [fs1 [err|wd]] eqn:Et; [done|].
  apply MkdirTemp_spec in Et as (Hwd & Hfresh & Hanch & Hfs1); [|done].
  destruct (extractEntries env 0 fs1 wd files "") as [fs2 [err|bp]] eqn:El; [done|].
  destruct (String.eqb bp "") eqn:Eb; [done|]. intros [= <- <- <-].
  apply String.eqb_neq in Eb.
  destruct (extractEntries_spec _ _ _ _ _ _ _ _ Hwd Hanch El) as [K _].
  destruct (extractEntries_binary _ _ _ _ _ _ _ _ Hwd Hanch El)
    as [[-> _]|(pre & f & post & -> & Hx & Hd & Hpost & Hj & Hp & Hf)]; [done|].
  exists (pre ++ f :: post), pre, f, post. split_and!; try done. apply K, Hanch.
Qed.

(** X4. An entry that is no directory and is extracted without error is on
    disk afterwards, with exactly the bytes of the archive entry, at the
    path [joinWithin] gave it, strictly below the directory; a file that was
    not there before gets the mode asked for (the mode of the entry, with
    [0o755] added when an entry named [main] or [main.exe] has no execute
    bit) less the bits of the umask.  The mode asked for an entry named
    [main] or [main.exe] has an execute bit, and so has the new file when
    the umask has none.  Files that were there before are still files. *)
Theorem extractEntry_file env i fs base file binaryPath fs' binaryPath' :
  base ≠ "" →
  isDirAt fs (Clean base) →
  IsDir file = false →
  extractEntry env i fs base file binaryPath = (fs', OK binaryPath') →
  ∃ target rc perm,
    joinWithin base (Name file) = OK target
    ∧ HasPrefix target (base +:+ "/") = true
    ∧ Open file = OK rc
    ∧ os.rootLike target = false
    ∧ fs' !! target = Some (FileNode perm (rcData rc))
    ∧ (os.lookupKey fs target = None → perm = os.created env (extractedMode file))
    ∧ (isExecutableName (Name file) = true →
         N.land (extractedMode file) 73 ≠ 0%N
         ∧ (os.lookupKey fs target = None → N.land (umask env) 73 = 0%N →
            N.land perm 73 ≠ 0%N))
    ∧ binaryPath' = (if isExecutableName (Name file) then target else binaryPath)
    ∧ filesKept fs fs'.
Proof. apply extractEntry_file_inv. Qed.

(** X5. When extraction succeeds, the path it returns for the executable is
    the target of the last entry named [main] or [main.exe] that is no
    directory: a path strictly below the working directory at which there
    is a regular file.  The working directory is a directory that did not
    exist before the call. *)
Theorem extractSDXArchive_OK env fs bin fs' workdir binaryPath :
  extractSDXArchive env fs bin = (fs', OK (workdir, binaryPath)) →
  ∃ files pre file post,
    zip_NewReader bin = OK files
    ∧ files = pre ++ file :: post
    ∧ isExecutableName (Name file) = true ∧ IsDir file = false
    ∧ Forall (λ f, isExecutableName (Name f) = true → IsDir f = true) post
    ∧ joinWithin workdir (Name file) = OK binaryPath
    ∧ HasPrefix binaryPath (workdir +:+ "/") = true
    ∧ isFileAt fs' binaryPath
    ∧ isDirAt fs' (Clean workdir)
    ∧ ¬ isDirAt fs (Clean workdir).
Proof. apply extractSDXArchive_success. Qed.

(** X6. An archive whose entries named [main] or [main.exe] are all
    directories is never extracted successfully, whatever the file system
    and the environment; [Validate] looks at names only, so it accepts such
    an archive when the manifest is readable. *)
Theorem directory_named_main env fs bin files :
  zip_NewReader bin = OK files →
  Forall (λ f, isExecutableName (Name f) = true → IsDir f = true) files →
  (∃ err, (extractSDXArchive env fs bin).2 = Err err)
  ∧ (∀ file data m,
       firstManifest files file → readsAs file data →
       json_Unmarshal_Manifest data = OK m →
       (∃ f, f ∈ files ∧ isExecutableName (Name f) = true) →
       Validate bin = OK m).
Proof.
  intros Hz Hall. split.
  - destruct (extractSDXArchive env fs bin) as [fs' [err|[wd bp]]] eqn:E; [by exists err|].
    exfalso. apply extractSDXArchive_success in E
      as (files' & pre & f & post & Hz' & -> & Hx & Hd & _).
    rewrite Hz in Hz'. injection Hz' as ->.
    rewrite Forall_app, Forall_cons in Hall. destruct Hall as (_ & Hf & _).
    specialize (Hf Hx). congruence.
  - intros file data m Hfirst Hread Hjson (f & Hin & Hx).
    unfold Validate, readSDXManifest. rewrite Hz.
    assert (findManifest files = OK data) as -> by (apply findManifest_OK; eauto).
    rewrite Hjson.
    assert (ensureExecutablePresent bin = None) as ->; [|done].
    apply ensureExecutablePresent_None. exists files. split; [done|].
    exists f. split; [done|]. unfold isExecutableName in Hx.
    apply orb_true_iff in Hx. by rewrite !String.eqb_eq in Hx.
Qed.

Lemma extractEntries_errors env i fs base files bp fs' err :
  extractEntries env i fs base files bp = (fs', Err err) →
  err = New "archive entry escapes extraction directory"
  ∨ ∃ e msg, err = Wrap e msg ∧ msg ∈ extractionMessages.
Proof.
  assert (∀ e msg, msg ∈ extractionMessages →
            Wrap e msg = New "archive entry escapes extraction directory"
            ∨ ∃ e' msg', Wrap e msg = Wrap e' msg' ∧ msg' ∈ extractionMessages) as Hw
    by (intros e msg Hin; right; eauto).
  revert i fs bp. induction files as [|file files IH]; intros i fs bp; simpl; [done|].
  destruct (extractEntry env i fs base file bp) as [fs1 [e1|bp1]] eqn:E1; [|by apply IH].
  intros [= <- <-]. unfold extractEntry in E1.
  destruct (joinWithin base (Name file)) as [e|t] eqn:Ej.
  { injection E1 as <- <-. apply joinWithin_Err in Ej as (_ & _ & ->). by left. }
  destruct (IsDir file).
  - destruct (os.MkdirAll env i fs t 493) as [fs2 [e|]]; [|done].
    injection E1 as <- <-. apply Hw. in_list.
  - destruct (os.MkdirAll env i fs (Dir t) 493) as [fs2 [e|]];
      [injection E1 as <- <-; apply Hw; in_list|].
    destruct (Open file) as [e|rc]; [injection E1 as <- <-; apply Hw; in_list|].
    destruct (os.OpenFile env i fs2 t (extractedMode file)) as [fs3 [e|out]];
      [injection E1 as <- <-; apply Hw; in_list|].
    destruct (io_Copy env i fs3 out rc) as [fs4 [e|]]; [|done].
    injection E1 as <- <-. apply Hw. in_list.
Qed.

(** X7. A failing extraction either has not touched the file system (the
    archive is unreadable, or no temporary directory could be made) or
    leaves the temporary directory it made on disk: no error path removes
    it, and the caller is given no path to it.  Outside that directory
    nothing has changed. *)
Theorem extractSDXArchive_failure env fs bin fs' err :
  extractSDXArchive env fs bin = (fs', Err err) →
  (fs' = fs
   ∧ ∃ e, err = Wrap e "failed to open archive" ∨ err = Wrap e "failed to create temp dir")
  ∨ (∃ wd, os.MkdirTemp env fs "storyden-sdx-" = (<[Clean wd := DirNode (os.createdDir env 448)]> fs, OK wd)
        ∧ ¬ isDirAt fs (Clean wd) ∧ isDirAt fs' (Clean wd)
        ∧ (∀ k, HasPrefix k (wd +:+ "/") = false → k ≠ Clean wd → fs' !! k = fs !! k)
        ∧ (err = New "archive entry escapes extraction directory"
           ∨ err = New "extracted archive missing main executable"
           ∨ ∃ e msg, err = Wrap e msg ∧ msg ∈ extractionMessages)).
Proof.
  unfold extractSDXArchive. destruct (zip_NewReader bin) as [e|files].
  { intros [= <- <-]. left. eauto. }
  destruct (os.MkdirTemp env fs "storyden-sdx-") as [fs1 [e|wd]] eqn:Et.
  { apply MkdirTemp_spec in Et; [|done]. intros [= <- <-]. left. eauto. }
  pose proof Et as Et'. apply MkdirTemp_spec in Et' as (Hwd & Hfresh & Hanch & Hfs1); [|done].
  destruct (extractEntries env 0 fs1 wd files "") as [fs2 r] eqn:El.
  destruct (extractEntries_spec _ _ _ _ _ _ _ _ Hwd Hanch El) as [K C].
  intros Hres. right. exists wd.
  assert (fs' = fs2) as ->.
  { destruct r as [e|bp]; [by injection Hres|]. by destruct (String.eqb bp ""); injection Hres. }
  split_and!.
  - by rewrite <- Hfs1.
  - done.
  - apply K, Hanch.
  - intros k Hk Hne. rewrite (C k Hk), Hfs1. by apply lookup_insert_ne.
  - destruct r as [e|bp].
    + injection Hres as <-. apply extractEntries_errors in El as [->|?]; auto.
    + destruct (String.eqb bp ""); [|done]. injection Hres as <-. auto.
Qed.

End MoreArchive.

Lemma readSDXManifest_first_entry_only_witness :
  @readSDXManifest
     (archiveOf [demoEntry "main" 493 "ELF"; demoBrokenEntry "a/manifest.json";
                 demoEntry "manifest.json" 420 "p1"]) []
  = Err (Wrap (Foreign "zip: checksum error") "failed to read manifest")
  ∧ readSDXManifest [x04] = Err (New "manifest.json not found in plugin archive").
Proof.
  split.
  - refine (proj1 (@readSDXManifest_first_entry_only (archiveOf _) [] _ eq_refl)
              (demoBrokenEntry "a/manifest.json") _).
    exists [demoEntry "main" 493 "ELF"], [demoEntry "manifest.json" 420 "p1"].
    split_and!; [reflexivity| |reflexivity].
    repeat constructor. vm_compute. discriminate.
  - refine (proj2 (readSDXManifest_first_entry_only [x04] _ eq_refl) _).
    repeat constructor. vm_compute. discriminate.
Defined.

Lemma extractEntry_file_witness :
  ∃ target rc perm,
    joinWithin demoWorkdir "plugin/main" = OK target
    ∧ strings.HasPrefix target (demoWorkdir +:+ "/") = true
    ∧ Open (demoEntry "plugin/main" 420 "ELF") = OK rc
    ∧ os.rootLike target = false
    ∧ (extractEntry demoEnv 0 demoExtractFS demoWorkdir
         (demoEntry "plugin/main" 420 "ELF") "").1 !! target
      = Some (FileNode perm (rcData rc))
    ∧ perm = 493%N
    ∧ N.land perm 73 ≠ 0%N.
Proof.
  destruct (extractEntry_file demoEnv 0 demoExtractFS demoWorkdir
              (demoEntry "plugin/main" 420 "ELF") ""
              (extractEntry demoEnv 0 demoExtractFS demoWorkdir
                 (demoEntry "plugin/main" 420 "ELF") "").1
              "/tmp/storyden-sdx-42/plugin/main")
    as (t & rc & p & Hj & Hp & Ho & Hr & Hl & Hnew & Hexec & _).
  - done.
  - exists 448%N. vm_compute. reflexivity.
  - reflexivity.
  - vm_compute. reflexivity.
  - exists t, rc, p. split_and!; try done.
    + assert (t = "/tmp/storyden-sdx-42/plugin/main") as ->.
      { vm_compute in Hj. congruence. }
      rewrite Hnew; [reflexivity|vm_compute; reflexivity].
    + assert (t = "/tmp/storyden-sdx-42/plugin/main") as ->.
      { vm_compute in Hj. congruence. }
      apply Hexec; vm_compute; reflexivity.
Defined.

Lemma extractSDXArchive_OK_witness :
  (extractSDXArchive demoEnv demoFS [x01]).2
  = OK (demoWorkdir, "/tmp/storyden-sdx-42/plugin/main")
  ∧ isFileAt (extractSDXArchive demoEnv demoFS [x01]).1 "/tmp/storyden-sdx-42/plugin/main"
  ∧ ¬ isDirAt demoFS demoWorkdir.
Proof.
  assert (extractSDXArchive demoEnv demoFS [x01]
          = ((extractSDXArchive demoEnv demoFS [x01]).1,
             OK (demoWorkdir, "/tmp/storyden-sdx-42/plugin/main"))) as E
    by (vm_compute; reflexivity).
  destruct (extractSDXArchive_OK _ _ _ _ _ _ E)
    as (files & pre & f & post & _ & _ & _ & _ & _ & _ & _ & Hf & _ & Hfresh).
  split_and!; [by rewrite E|exact Hf|exact Hfresh].
Defined.

Lemma directory_named_main_witness :
  let files := [demoEntry "manifest.json" 420 "p1"; demoDirEntry "main/"] in
  (∃ err, (@extractSDXArchive (archiveOf files) demoEnv demoFS []).2 = Err err)
  ∧ @Validate (archiveOf files) [] = OK {| ID := "p1"; manifestRest := "" |}.
Proof.
  intros files.
  destruct (@directory_named_main (archiveOf files) demoEnv demoFS [] files eq_refl)
    as [H1 H2].
  - repeat constructor; vm_compute; try discriminate; reflexivity.
  - split; [exact H1|].
    apply (H2 (demoEntry "manifest.json" 420 "p1") (ascii_bytes "p1")).
    + exists [], [demoDirEntry "main/"]. split_and!; [reflexivity|constructor|reflexivity].
    + by eexists.
    + reflexivity.
    + exists (demoDirEntry "main/"). split; [|reflexivity]. apply elem_of_cons; right; apply elem_of_cons; by left.
Defined.

Lemma extractSDXArchive_failure_witness :
  (extractSDXArchive demoEnv demoFS [x03]).2
  = Err (New "archive entry escapes extraction directory")
  ∧ isDirAt (extractSDXArchive demoEnv demoFS [x03]).1 demoWorkdir
  ∧ ¬ isDirAt demoFS demoWorkdir.
Proof.
  assert (extractSDXArchive demoEnv demoFS [x03]
          = ((extractSDXArchive demoEnv demoFS [x03]).1,
             Err (New "archive entry escapes extraction directory"))) as E
    by (vm_compute; reflexivity).
  destruct (extractSDXArchive_failure _ _ _ _ _ E)
    as [[Hsame _]|(wd & Ht & Hfresh & Hdir & _)].
  - exfalso. apply (f_equal (λ m : fsys, m !! demoWorkdir)) in Hsame.
    vm_compute in Hsame. discriminate.
  - assert (wd = demoWorkdir) as ->.
    { assert (os.MkdirTemp demoEnv demoFS "storyden-sdx-"
              = (demoExtractFS, OK demoWorkdir)) as E2 by (vm_compute; reflexivity).
      rewrite E2 in Ht. by injection Ht. }
    split_and!; [by rewrite E|exact Hdir|exact Hfresh].
Defined.

(** ** The registry of the subprocess runner *)

Section MoreRunner.
Context `{Libs}.
Import filepath strings.

Lemma sameIdentity_refl s : sameIdentity s s.
Proof. done. Qed.

Lemma sameIdentity_trans s1 s2 s3 :
  sameIdentity s1 s2 → sameIdentity s2 s3 → sameIdentity s1 s3.
Proof. intros (?&?&?&?) (?&?&?&?). split_and!; congruence. Qed.

Lemma sameIdentity_cancel s : sameIdentity s (cancel s).
Proof. unfold cancel. by destruct (ctx s). Qed.

Lemma wellLoaded_same s s' : sameIdentity s s' → wellLoaded s → wellLoaded s'.
Proof. intros (E1&E2&E3&E4) (?&?&?). unfold wellLoaded. by rewrite E1, E2, E3, E4. Qed.

Lemma handleOutput_identity output rsel st st' :
  handleOutput output rsel st = Some st' →
  sameIdentity (session (lsSession st)) (session (lsSession st')).
Proof.
  unfold handleOutput. destruct output as [|b rest]; [by intros [= <-]|].
  destruct (negb (Byte.eqb b "{")); [by intros [= <-]|].
  destruct (json_Unmarshal_RPCResponse (b :: rest)) as [err|response]; [by intros [= <-]|].
  destruct (xid_FromString (responseID response)) as [err|ident]; [by intros [= <-]|].
  destruct (pendingCommands (session (lsSession st)) !! ident) as [pending|];
    [|by intros [= <-]].
  destruct rsel; [by intros [= <-]|].
  destruct (ctxDone (session (lsSession st))); [by intros [= <-]|done].
Qed.

Lemma react_identity ev st st' r :
  react ev st = Some (st', r) →
  sameIdentity (session (lsSession st)) (session (lsSession st')).
Proof.
  destruct ev as [waitErr|err|err| | |sel rsel|line|err]; cbn [react];
    [| | | | | |intros [= <- _]; by destruct (stderrLine_frame line st) as (-> & _)
               |intros [= <- _]; by destruct (stderrEnded_frame err st) as (-> & _)].
  - intros [= <- _]. unfold exitWatcher, sendErr. cbn.
    destruct (stopping (lsSession st)); [|destruct waitErr]; by destruct (errCh st).
  - intros [= <- _]. unfold writerFailed, sendErr.
    destruct (ctxDone _); [done|]. by destruct (errCh st).
  - intros [= <- _]. unfold readerFailed, sendErr.
    destruct (ctxDone _); [done|]. by destruct (errCh st).
  - by intros [= <- _].
  - intros [= <- _]. apply sameIdentity_cancel.
  - unfold dispatch. destruct sel as [| |[output|]].
    + destruct (ctxDone _); [by intros [= <- _]|done].
    + destruct (errCh st) as [[err|]|]; by intros [= <- _].
    + destruct (handleOutput output rsel st) as [st1|] eqn:E; [|done].
      intros [= <- _]. by eapply handleOutput_identity.
    + by intros [= <- _].
Qed.

Lemma cleanup_identity st :
  sameIdentity (session (lsSession st)) (session (lsSession (cleanup st))).
Proof. apply sameIdentity_cancel. Qed.

Lemma runLoop_identity evs st st' out :
  runLoop evs st = (st', out) →
  sameIdentity (session (lsSession st)) (session (lsSession st')).
Proof.
  revert st. induction evs as [|ev evs IH]; intros st; simpl.
  { by intros [= <- _]. }
  destruct (react ev st) as [[st1 [r|]]|] eqn:E.
  - intros [= <- _]. destruct (drain_frame evs (cleanup st1)) as (-> & _).
    eapply sameIdentity_trans; [by eapply react_identity|].
    apply cleanup_identity.
  - intros E2. eapply sameIdentity_trans; [by eapply react_identity|by apply IH].
  - apply IH.
Qed.

Lemma startProcess_identity penv fs s fs' s' r :
  startProcess penv fs s = (fs', s', r) → sameIdentity (session s) (session s').
Proof.
  unfold startProcess.
  destruct (reportedState (session s)); [by intros [= _ <- _]| |];
    (destruct (runType (session s)); [|by intros [= _ <- _]]);
    (destruct (extractSDXArchive _ _ _) as [fs1 [err|[wd bp]]]; [by intros [= _ <- _]|]);
    (destruct (stdoutPipeErr penv); [by intros [= _ <- _]|]);
    (destruct (stderrPipeErr penv); [by intros [= _ <- _]|]);
    (destruct (stdinPipeErr penv); [by intros [= _ <- _]|]);
    (destruct (startErr penv); by intros [= _ <- _]).
Qed.

Lemma runProcess_identity penv evs fs s st out :
  runProcess penv evs fs s = (st, out) →
  sameIdentity (session s) (session (lsSession st)).
Proof.
  unfold runProcess. destruct (startProcess penv fs s) as [[fs1 s1] [err|]] eqn:E.
  - intros [= <- _]. by eapply startProcess_identity.
  - intros E2. eapply sameIdentity_trans; [by eapply startProcess_identity|].
    by apply runLoop_identity in E2.
Qed.

Lemma stopSession_identity senv s s' r :
  sdxRunner.stopSession senv s = (s', r) → sameIdentity (session s) (session s').
Proof.
  unfold sdxRunner.stopSession. destruct (cmd s) as [c|].
  - destruct (if exited c then None else killErr senv); [by intros [= <- _]|].
    destruct (ctx (session (withSession stop (markStopping s))));
      intros [= <- _]; apply sameIdentity_cancel.
  - intros [= <- _]. apply sameIdentity_cancel.
Qed.

(** Replacing an object by one with the same identity. *)
Lemma setObject_consistent w p s s' :
  consistent w → heap w !! p = Some s → sameIdentity (session s) (session s') →
  consistent (setObject p s' w).
Proof.
  intros (Hheap & Hsess & Hgo) Hp Hsame.
  assert (∀ q t, heap w !! q = Some t →
            ∃ t', <[p := s']> (heap w) !! q = Some t' ∧ id (session t') = id (session t)) as Hq.
  { intros q t Hq. destruct (decide (p = q)) as [<-|NE].
    - rewrite lookup_insert_eq. exists s'. split; [done|].
      rewrite Hp in Hq. injection Hq as <-. apply Hsame.
    - rewrite lookup_insert_ne by done. eauto. }
  split_and!; cbn.
  - intros q t. destruct (decide (p = q)) as [<-|NE].
    + rewrite lookup_insert_eq. intros [= <-]. destruct (Hheap _ _ Hp) as [? ?].
      split; [done|]. by eapply wellLoaded_same.
    + rewrite lookup_insert_ne by done. apply Hheap.
  - intros i q Hi. destruct (Hsess _ _ Hi) as (t & Ht & <-).
    destruct (Hq _ _ Ht) as (t' & ? & ?). eauto.
  - intros i q Hi. destruct (Hgo _ _ Hi) as (t & Ht & <-).
    destruct (Hq _ _ Ht) as (t' & ? & ?). eauto.
Qed.

Lemma Load_consistent w bin : consistent w → consistent (sdxRunner.Load w bin).1.
Proof.
  intros (Hheap & Hsess & Hgo). unfold sdxRunner.Load.
  destruct (Validate bin) as [err|m] eqn:Ev; [done|]. cbn.
  assert (heap w !! brk w = None) as Hfresh.
  { destruct (heap w !! brk w) as [t|] eqn:E; [|done]. apply Hheap in E as [? _]. lia. }
  assert (∀ q t, heap w !! q = Some t →
            <[brk w := newSDXSession (newSession bin m)]> (heap w) !! q = Some t) as Hq.
  { intros q t Hq. rewrite lookup_insert_ne; [done|]. intros <-. congruence. }
  split_and!; cbn.
  - intros q t. destruct (decide (brk w = q)) as [<-|NE].
    + rewrite lookup_insert_eq. intros [= <-]. split; [lia|]. by split_and!.
    + rewrite lookup_insert_ne by done. intros Ht. apply Hheap in Ht as [? ?].
      split; [lia|done].
  - intros i q. destruct (decide (ID m = i)) as [<-|NE].
    + rewrite lookup_insert_eq. intros [= <-]. rewrite lookup_insert_eq. eauto.
    + rewrite lookup_insert_ne by done. intros Hi.
      destruct (Hsess _ _ Hi) as (t & Ht & <-). eauto.
  - intros i q Hi. destruct (Hgo _ _ Hi) as (t & Ht & <-). eauto.
Qed.

Lemma StartPlugin_consistent w i : consistent w → consistent (sdxRunner.StartPlugin w i).1.
Proof.
  intros (Hheap & Hsess & Hgo). unfold sdxRunner.StartPlugin.
  destruct (sessions w !! i) as [p|] eqn:Ei; [|done]. split_and!; cbn; [done..|].
  intros j q [Hin|Hin%list_elem_of_singleton]%elem_of_app; [by apply Hgo|].
  injection Hin as -> ->. by apply Hsess.
Qed.

Lemma StopPlugin_consistent senv w i :
  consistent w → consistent (sdxRunner.StopPlugin senv w i).1.
Proof.
  intros Hc. unfold sdxRunner.StopPlugin.
  destruct (sessions w !! i) as [p|]; [|done].
  destruct (heap w !! p) as [s|] eqn:Ep; [|done].
  destruct (sdxRunner.stopSession senv s) as [s' err] eqn:Es. cbn.
  eapply setObject_consistent; [done..|]. by eapply stopSession_identity.
Qed.

Lemma logWorld_consistent l w : consistent w → consistent (logWorld l w).
Proof. done. Qed.

Lemma setFiles_consistent fs w : consistent w → consistent (setFiles fs w).
Proof. done. Qed.

Lemma delete_consistent i w :
  consistent w → consistent (setSessions (delete i (sessions w)) w).
Proof.
  intros (Hheap & Hsess & Hgo). split_and!; cbn; [done| |done].
  intros j q [_ Hj]%lookup_delete_Some. by apply Hsess.
Qed.

Lemma Unload_consistent senv w i :
  consistent w → consistent (sdxRunner.Unload senv w i).1.
Proof.
  intros Hc. unfold sdxRunner.Unload.
  destruct (sessions w !! i) as [p|]; [|done].
  pose proof (StopPlugin_consistent senv w i Hc) as Hc1.
  destruct (sdxRunner.StopPlugin senv w i) as [w1 err]. cbn [fst] in Hc1.
  set (w2 := match err with Some e => _ | None => w1 end).
  assert (consistent w2) as Hc2 by (subst w2; by destruct err).
  pose proof (delete_consistent i w2 Hc2) as Hc3.
  set (w3 := setSessions (delete i (sessions w2)) w2) in *.
  destruct (heap w3 !! p) as [s|] eqn:Ep; [|done].
  destruct (String.eqb (workdir s) ""); [done|]. cbn [fst].
  eapply setObject_consistent; [by apply setFiles_consistent|exact Ep|done].
Qed.

Lemma setGoroutines_consistent w ip rest :
  consistent w → goroutines w = ip :: rest → consistent (setGoroutines rest w).
Proof.
  intros (Hheap & Hsess & Hgo) E. split_and!; cbn; [done..|].
  intros i p Hin. apply Hgo. rewrite E. by right.
Qed.

Lemma runGoroutine_consistent penv evs w :
  consistent w → consistent (sdxRunner.runGoroutine penv evs w).
Proof.
  intros Hc. unfold sdxRunner.runGoroutine.
  destruct (goroutines w) as [|[i p] rest] eqn:Eg; [done|].
  pose proof (setGoroutines_consistent _ _ _ Hc Eg) as Hc1.
  set (w1 := setGoroutines rest w) in *.
  destruct (heap w1 !! p) as [s|] eqn:Ep; [|done].
  destruct (runProcess penv evs (files w1) s) as [st out] eqn:Er.
  assert (consistent (logWorld (lsLogs st)
            (setObject p (lsSession st) (setFiles (lsFiles st) w1)))) as Hc2.
  { apply logWorld_consistent. eapply setObject_consistent;
      [by apply setFiles_consistent|exact Ep|by eapply runProcess_identity]. }
  destruct out as [[err|]|]; [by apply logWorld_consistent|done..].
Qed.

Lemma runOp_consistent w op : consistent w → consistent (runOp w op).
Proof.
  destruct op; cbn [runOp]; auto using Load_consistent, StartPlugin_consistent,
    StopPlugin_consistent, Unload_consistent, runGoroutine_consistent.
Qed.

Lemma newSDXRunner_consistent fs : consistent (newSDXRunner fs).
Proof.
  split_and!; cbn.
  - intros p s. by rewrite lookup_empty.
  - intros i p. by rewrite lookup_empty.
  - intros i p Hin. by apply elem_of_nil in Hin.
Qed.

Lemma reachable_is_consistent fs ops : consistent (foldl runOp (newSDXRunner fs) ops).
Proof.
  induction ops as [|op ops IH] using rev_ind; [apply newSDXRunner_consistent|].
  rewrite foldl_app. cbn. by apply runOp_consistent.
Qed.

Lemma consistent_injective w i j p :
  consistent w → sessions w !! i = Some p → sessions w !! j = Some p → i = j.
Proof.
  intros (_ & Hsess & _) Hi Hj.
  destruct (Hsess _ _ Hi) as (s & Hs & <-). destruct (Hsess _ _ Hj) as (s' & Hs' & <-).
  congruence.
Qed.

Lemma GetSessions_elem w p :
  p ∈ sdxRunner.GetSessions w ↔ ∃ i, sdxRunner.GetSession w i = OK p.
Proof.
  unfold sdxRunner.GetSessions, sdxRunner.GetSession. rewrite list_elem_of_fmap. split.
  - intros ([i q] & -> & Hin%elem_of_map_to_list). exists i. cbn. by rewrite Hin.
  - intros (i & Hi). destruct (sessions w !! i) as [q|] eqn:E; [|done].
    injection Hi as ->. exists (i, p). split; [done|]. by apply elem_of_map_to_list.
Qed.

Lemma GetSessions_NoDup w : consistent w → NoDup (sdxRunner.GetSessions w).
Proof.
  intros Hc. unfold sdxRunner.GetSessions.
  apply NoDup_fmap_2_strong; [|apply NoDup_map_to_list].
  intros [i p] [j q] Hi%elem_of_map_to_list Hj%elem_of_map_to_list. cbn. intros ->.
  f_equal. by eapply consistent_injective.
Qed.

(** X8. In every state a runner can reach from [newSDXRunner] through
    [Load], [StartPlugin], [StopPlugin], [Unload] and the runs of its
    goroutines (each run one step, the oldest goroutine first): an
    identifier of the registry leads to a session object that
    carries this identifier, whose archive validates to its manifest and
    whose run type is background; every goroutine waiting to run has its
    session object; and [GetSessions] lists exactly the sessions
    [GetSession] finds, each one once. *)
Theorem reachable_registry fs ops :
  let w := foldl runOp (newSDXRunner fs) ops in
  (∀ i p, sdxRunner.GetSession w i = OK p →
     ∃ s, heap w !! p = Some s ∧ id (session s) = i
        ∧ Validate (bin (session s)) = OK (manifest (session s))
        ∧ ID (manifest (session s)) = i
        ∧ runType (session s) = RunTypeBackground)
  ∧ (∀ i p, (i, p) ∈ goroutines w → ∃ s, heap w !! p = Some s ∧ id (session s) = i)
  ∧ (∀ p, p ∈ sdxRunner.GetSessions w ↔ ∃ i, sdxRunner.GetSession w i = OK p)
  ∧ NoDup (sdxRunner.GetSessions w)
  ∧ length (sdxRunner.GetSessions w) = size (sessions w).
Proof.
  intros w. pose proof (reachable_is_consistent fs ops) as Hc. fold w in Hc.
  split_and!.
  - intros i p Hi. unfold sdxRunner.GetSession in Hi.
    destruct (sessions w !! i) as [q|] eqn:E; [|done]. injection Hi as ->.
    destruct Hc as (Hheap & Hsess & _). destruct (Hsess _ _ E) as (s & Hs & Hid).
    destruct (Hheap _ _ Hs) as (_ & Hv & Hm & Hr). exists s. split_and!; try done. congruence.
  - apply Hc.
  - apply GetSessions_elem.
  - by apply GetSessions_NoDup.
  - unfold sdxRunner.GetSessions. by rewrite length_fmap, length_map_to_list.
Qed.

(** X9. [Load] of a valid archive in a consistent runner makes a new session
    object and files it under the identifier of the manifest: [GetSession]
    for that identifier returns the new object, inactive and without
    process; the other identifiers, the other objects, the files and the
    goroutines are as before. *)
Theorem Load_then_GetSession w bin w' p :
  consistent w →
  sdxRunner.Load w bin = (w', OK p) →
  ∃ m, Validate bin = OK m
     ∧ sdxRunner.GetSession w' (ID m) = OK p
     ∧ heap w !! p = None
     ∧ heap w' !! p = Some (newSDXSession (newSession bin m))
     ∧ (∀ q, q ≠ p → heap w' !! q = heap w !! q)
     ∧ (∀ i, i ≠ ID m → sdxRunner.GetSession w' i = sdxRunner.GetSession w i)
     ∧ files w' = files w ∧ goroutines w' = goroutines w ∧ logs w' = logs w.
Proof.
  intros (Hheap & _ & _). unfold sdxRunner.Load.
  destruct (Validate bin) as [err|m] eqn:Ev; [done|]. intros [= <- <-].
  exists m. unfold sdxRunner.GetSession. cbn. split_and!; try done.
  - by rewrite lookup_insert_eq.
  - destruct (heap w !! brk w) as [t|] eqn:E; [|done]. apply Hheap in E as [? _]. lia.
  - by rewrite lookup_insert_eq.
  - intros q Hq. by rewrite lookup_insert_ne.
  - intros i Hi. by rewrite lookup_insert_ne.
Qed.

Lemma StopPlugin_heap_other senv w j q :
  sessions w !! j ≠ Some q → heap (sdxRunner.StopPlugin senv w j).1 !! q = heap w !! q.
Proof.
  intros Hq. unfold sdxRunner.StopPlugin.
  destruct (sessions w !! j) as [p|] eqn:Ej; [|done].
  destruct (heap w !! p) as [s|]; [|done].
  destruct (sdxRunner.stopSession senv s) as [s' err]. cbn.
  rewrite lookup_insert_ne; [done|]. congruence.
Qed.

Lemma StopPlugin_files senv w j : files (sdxRunner.StopPlugin senv w j).1 = files w.
Proof.
  unfold sdxRunner.StopPlugin. destruct (sessions w !! j) as [p|]; [|done].
  destruct (heap w !! p) as [s|]; [|done]. by destruct (sdxRunner.stopSession senv s).
Qed.

Lemma Unload_heap_other senv w j q :
  sessions w !! j ≠ Some q → heap (sdxRunner.Unload senv w j).1 !! q = heap w !! q.
Proof.
  intros Hq. pose proof (StopPlugin_heap_other senv w j q Hq) as Hh.
  unfold sdxRunner.Unload.
  destruct (sessions w !! j) as [p|] eqn:Ej; [|done].
  assert (p ≠ q) as Hpq by congruence.
  destruct (sdxRunner.StopPlugin senv w j) as [w1 err]. cbn [fst] in Hh.
  set (w2 := match err with Some e => _ | None => w1 end).
  assert (heap w2 = heap w1) as Hh2 by (subst w2; by destruct err).
  set (w3 := setSessions (delete j (sessions w2)) w2).
  assert (heap w3 = heap w1) as Hh3 by done.
  destruct (heap w3 !! p) as [s|].
  - destruct (String.eqb (workdir s) ""); cbn; [by rewrite Hh2|].
    rewrite lookup_insert_ne by done. by rewrite Hh2.
  - cbn. by rewrite Hh2.
Qed.

(** X10. [Load] for an identifier that is registered replaces the entry of
    the registry and does not stop the session it had: the old session
    object stays as it is, with its process if it has one, and no
    identifier leads to it any more, so that no [StopPlugin] and no
    [Unload] ever reaches it. *)
Theorem Load_replaces_session w bin m q s :
  consistent w →
  Validate bin = OK m →
  sessions w !! ID m = Some q →
  heap w !! q = Some s →
  let w' := (sdxRunner.Load w bin).1 in
  (sdxRunner.Load w bin).2 = OK (brk w)
  ∧ q ≠ brk w
  ∧ heap w' !! q = Some s
  ∧ (∀ i, sdxRunner.GetSession w' i ≠ OK q)
  ∧ (q ∉ sdxRunner.GetSessions w')
  ∧ (∀ senv i, heap (sdxRunner.StopPlugin senv w' i).1 !! q = Some s)
  ∧ (∀ senv i, heap (sdxRunner.Unload senv w' i).1 !! q = Some s).
Proof.
  intros Hc Hv Hm Hq w'.
  assert (q < brk w) as Hlt by (destruct Hc as (Hheap & _); by apply Hheap in Hq as [? _]).
  assert (heap w' !! q = Some s) as Hq'.
  { subst w'. unfold sdxRunner.Load. rewrite Hv. cbn. rewrite lookup_insert_ne; [done|lia]. }
  assert (∀ i, sessions w' !! i ≠ Some q) as Hno.
  { intros i. subst w'. unfold sdxRunner.Load. rewrite Hv. cbn.
    destruct (decide (ID m = i)) as [<-|NE].
    - rewrite lookup_insert_eq. intros [= E]. lia.
    - rewrite lookup_insert_ne by done. intros Hi. destruct NE.
      by eapply consistent_injective. }
  split_and!.
  - unfold sdxRunner.Load. by rewrite Hv.
  - lia.
  - done.
  - intros i. unfold sdxRunner.GetSession. specialize (Hno i).
    destruct (sessions w' !! i); congruence.
  - rewrite GetSessions_elem. intros (i & Hi). unfold sdxRunner.GetSession in Hi.
    specialize (Hno i). destruct (sessions w' !! i); congruence.
  - intros senv i. by rewrite StopPlugin_heap_other.
  - intros senv i. by rewrite Unload_heap_other.
Qed.

Lemma stopSession_errors senv s s' err :
  sdxRunner.stopSession senv s = (s', Some err) →
  err = context_Canceled ∨ ∃ e, err = Wrap e "failed to stop plugin process".
Proof.
  unfold sdxRunner.stopSession. destruct (cmd s) as [c|]; [|done].
  destruct (if exited c then None else killErr senv) as [e|]; [intros [= _ <-]; eauto|].
  destruct (ctx (session (withSession stop (markStopping s)))); [|done].
  destruct (callerDone senv); [|done]. intros [= _ <-]. by left.
Qed.

(** X11. The error "plugin session not found" is the answer for an
    identifier that is not registered, and only for such an identifier:
    [StartPlugin] returns [nil] exactly for a registered identifier,
    [StopPlugin] returns that error exactly for an unregistered one, and
    [Unload] returns [nil] for a registered identifier even when the stop
    inside it fails.  A call with an unregistered identifier changes
    nothing. *)
Theorem not_found_iff_unregistered senv w i :
  ((sdxRunner.StartPlugin w i).2 = None ↔ is_Some (sessions w !! i))
  ∧ ((sdxRunner.StopPlugin senv w i).2 = Some sdxRunner.notFound ↔ sessions w !! i = None)
  ∧ ((sdxRunner.Unload senv w i).2 = None ↔ is_Some (sessions w !! i))
  ∧ (sdxRunner.GetSession w i = Err sdxRunner.notFound ↔ sessions w !! i = None)
  ∧ (sessions w !! i = None →
       (sdxRunner.StartPlugin w i).1 = w ∧ (sdxRunner.StopPlugin senv w i).1 = w
       ∧ (sdxRunner.Unload senv w i).1 = w).
Proof.
  split_and!.
  - unfold sdxRunner.StartPlugin. destruct (sessions w !! i); cbn.
    + split; [by intros _; eexists|done].
    + split; [done|by intros [? ?]].
  - unfold sdxRunner.StopPlugin. destruct (sessions w !! i) as [p|] eqn:Ei; [|done].
    split; [|done]. destruct (heap w !! p) as [s|]; [|done].
    destruct (sdxRunner.stopSession senv s) as [s' [err|]] eqn:Es; [|done].
    cbn. intros [= ->]. by apply stopSession_errors in Es as [?|[e ?]].
  - unfold sdxRunner.Unload. destruct (sessions w !! i) as [p|] eqn:Ei.
    + split; [by intros _; eexists|intros _].
      destruct (sdxRunner.StopPlugin senv w i) as [w1 err].
      match goal with |- context [heap ?w3 !! p] => destruct (heap w3 !! p) as [s|] end;
        [|done]. by destruct (String.eqb (workdir s) "").
    + split; [done|]. by intros [? ?].
  - unfold sdxRunner.GetSession. by destruct (sessions w !! i).
  - intros Ei. unfold sdxRunner.StartPlugin, sdxRunner.StopPlugin, sdxRunner.Unload.
    by rewrite Ei.
Qed.

End MoreRunner.

(** ** The dispatch loop *)

Section MoreLoop.
Context `{Libs}.
Import filepath strings.

Lemma RemoveAll_gone fs dir k : atOrBelow dir k → os.RemoveAll fs dir !! k = None.
Proof.
  intros Hk. unfold os.RemoveAll. apply eq_None_not_Some. intros [x Hx].
  apply map_lookup_filter_Some in Hx as [_ Hx]. by destruct Hx.
Qed.

Lemma RemoveAll_kept fs dir k : ¬ atOrBelow dir k → os.RemoveAll fs dir !! k = fs !! k.
Proof.
  intros Hk. unfold os.RemoveAll. apply option_eq. intros x.
  rewrite map_lookup_filter_Some. split; [by intros [? _]|]. intros Hx. split; [done|].
  exact Hk.
Qed.

Lemma react_frame ev st st' r :
  react ev st = Some (st', r) →
  lsFiles st' = lsFiles st
  ∧ workdir (lsSession st') = workdir (lsSession st)
  ∧ (is_Some (cmd (lsSession st')) ↔ is_Some (cmd (lsSession st)))
  ∧ (stopping (lsSession st) = true → stopping (lsSession st') = true)
  ∧ (ctx (session (lsSession st)) ≠ None → ctx (session (lsSession st')) ≠ None).
Proof.
  destruct ev as [waitErr|err|err| | |sel rsel|line|err]; cbn [react];
    [| | | | | |intros [= <- _]; by destruct (stderrLine_frame line st) as (-> & -> & _)
               |intros [= <- _]; by destruct (stderrEnded_frame err st) as (-> & -> & _)].
  - intros [= <- _]. unfold exitWatcher.
    assert (∀ e, lsFiles (sendErr e (withLS markExited st)) = lsFiles st
               ∧ lsSession (sendErr e (withLS markExited st)) = markExited (lsSession st))
      as Hs by (intros e; unfold sendErr; by destruct (errCh (withLS markExited st))).
    destruct (stopping (lsSession (withLS markExited st))); [|destruct waitErr];
      (match goal with |- context [sendErr ?e _] => destruct (Hs e) as [-> ->] end);
      (split_and!; try done; cbn; destruct (cmd (lsSession st)); split; by eauto).
  - intros [= <- _]. unfold writerFailed. destruct (ctxDone _); [done|].
    by destruct (sendErr_frame (Some (Wrap err "failed to write command")) st) as [-> ->].
  - intros [= <- _]. unfold readerFailed. destruct (ctxDone _); [done|].
    by destruct (sendErr_frame (Some (Wrap err "failed to read stdout")) st) as [-> ->].
  - by intros [= <- _].
  - intros [= <- _]. split_and!; try done. cbn. unfold stop, cancel.
    by destruct (ctx (session (lsSession st))).
  - unfold dispatch. destruct sel as [| |[output|]].
    + destruct (ctxDone _); [by intros [= <- _]|done].
    + destruct (errCh st) as [[err|]|]; by intros [= <- _].
    + destruct (handleOutput output rsel st) as [st1|] eqn:E; [|done].
      intros [= <- _]. apply handleOutput_frame in E as (-> & _ & -> & -> & _ & -> & ->).
      done.
    + by intros [= <- _].
Qed.

Lemma cleanup_released st :
  cmd (lsSession (cleanup st)) = None ∧ stdin (lsSession (cleanup st)) = None
  ∧ workdir (lsSession (cleanup st)) = ""
  ∧ (ctx (session (lsSession st)) ≠ None →
     ctx (session (lsSession (cleanup st))) = Some true).
Proof.
  split_and!; try done. cbn. unfold cancel. by destruct (ctx (session (lsSession st))).
Qed.

(** X12. However the dispatch loop comes to return, the deferred clean-up has
    run: the session has no process, no pipe and no working directory, its
    context is cancelled, and the working directory it had is gone from the
    file system with everything below it, nothing else being touched.
    While the loop has not returned, the file system and the working
    directory are as they were. *)
Theorem runLoop_releases evs st st' out :
  runLoop evs st = (st', out) →
  match out with
  | Returned _ =>
      cmd (lsSession st') = None ∧ stdin (lsSession st') = None
      ∧ workdir (lsSession st') = ""
      ∧ (ctx (session (lsSession st)) ≠ None →
         ctx (session (lsSession st')) = Some true)
      ∧ (workdir (lsSession st) ≠ "" →
         ∀ k, (atOrBelow (workdir (lsSession st)) k → lsFiles st' !! k = None)
            ∧ (¬ atOrBelow (workdir (lsSession st)) k →
               lsFiles st' !! k = lsFiles st !! k))
      ∧ (workdir (lsSession st) = "" → lsFiles st' = lsFiles st)
  | StillRunning =>
      lsFiles st' = lsFiles st
      ∧ workdir (lsSession st') = workdir (lsSession st)
      ∧ (is_Some (cmd (lsSession st')) ↔ is_Some (cmd (lsSession st)))
  end.
Proof.
  revert st. induction evs as [|ev evs IH]; intros st; simpl.
  { by intros [= <- <-]. }
  destruct (react ev st) as [[st1 [r|]]|] eqn:E; [| |apply IH].
  - intros [= <- <-]. apply react_frame in E as (Hf & Hw & _ & _ & Hc).
    destruct (drain_frame evs (cleanup st1)) as (-> & -> & _).
    destruct (cleanup_released st1) as (-> & -> & -> & Hctx).
    split_and!; try done; [by auto|..].
    + intros Hwd k. cbn. rewrite Hw, Hf.
      apply String.eqb_neq in Hwd. rewrite Hwd.
      split; [apply RemoveAll_gone|apply RemoveAll_kept].
    + intros Hwd. cbn. by rewrite Hw, Hf, Hwd.
  - intros E2. apply IH in E2. apply react_frame in E as (Hf & Hw & Hcmd & _ & Hc).
    destruct out.
    + destruct E2 as (? & ? & ? & Hctx & Hwd & Hnwd). rewrite Hw, Hf in *.
      split_and!; try done. by auto.
    + destruct E2 as (-> & -> & ->). by rewrite Hf, Hw, Hcmd.
Qed.


Lemma handleOutput_step output rsel st st' :
  handleOutput output rsel st = Some st' →
  (pendingOf st' = pendingOf st ∧ delivered st' = delivered st
   ∧ (stateOf st' = stateOf st ∨ stateOf st' = ReportedStateError))
  ∨ (∃ ident pending,
       pendingOf st !! ident = Some pending
       ∧ pendingOf st' = delete ident (pendingOf st)
       ∧ stateOf st' = stateOf st
       ∧ (delivered st' = delivered st
          ∨ ∃ response, delivered st' = delivered st ++ [(respch pending, response)])).
Proof.
  unfold handleOutput. destruct output as [|b rest]; [intros [= <-]; by left; auto|].
  destruct (negb (Byte.eqb b "{")); [intros [= <-]; left; by auto|].
  destruct (json_Unmarshal_RPCResponse (b :: rest)) as [err|response];
    [intros [= <-]; left; by auto|].
  destruct (xid_FromString (responseID response)) as [err|ident];
    [intros [= <-]; left; by auto|].
  destruct (pendingCommands (session (lsSession st)) !! ident) as [pending|] eqn:Ep;
    [|intros [= <-]; left; by auto].
  intros E. right. exists ident, pending. split; [done|].
  destruct rsel; [injection E as <-; split_and!; try done; right; by eexists|].
  destruct (ctxDone (session (lsSession st))); [|done]. injection E as <-.
  split_and!; try done. by left.
Qed.

Lemma received_lines lines st :
  let res := runLoop (outputs lines) st in
  res.2 = StillRunning
  ∧ pendingOf res.1 ⊆ pendingOf st
  ∧ (stateOf res.1 = stateOf st ∨ stateOf res.1 = ReportedStateError)
  ∧ ∃ new, delivered res.1 = delivered st ++ new
       ∧ length new + size (pendingOf res.1) ≤ size (pendingOf st)
       ∧ Forall (λ d, ∃ ident pending,
                   pendingOf st !! ident = Some pending
                   ∧ respch pending = d.1
                   ∧ pendingOf res.1 !! ident = None) new.
Proof.
  revert st. induction lines as [|[output rsel] lines IH]; intros st; cbn zeta.
  { cbn. split_and!; [done|done|by left|]. exists []. by rewrite app_nil_r. }
  cbn [outputs map runLoop react dispatch fst snd].
  destruct (handleOutput output rsel st) as [st1|] eqn:E; [|apply IH].
  specialize (IH st1). cbn zeta in IH. fold (outputs lines).
  destruct IH as (Hrun & Hsub & Hstate & new & Hnew & Hlen & Hall).
  split; [done|].
  destruct (handleOutput_step _ _ _ _ E)
    as [(Hp & Hd & Hs)|(ident & pending & Hid & Hp & Hs & Hd)].
  - rewrite Hp, Hd in *. split_and!; [done| |by exists new].
    destruct Hstate as [Hst | Hst]; rewrite Hst; [done|by right].
  - assert (pendingOf st1 ⊆ pendingOf st) as Hsub1 by (rewrite Hp; apply delete_subseteq).
    assert (size (pendingOf st) = S (size (pendingOf st1))) as Hsize.
    { rewrite Hp, map_size_delete_Some by eauto.
      assert (size (pendingOf st) ≠ 0); [|lia].
      intros Hz%map_size_empty_inv. by rewrite Hz, lookup_empty in Hid. }
    assert (Forall (λ d, ∃ ident pending,
                   pendingOf st !! ident = Some pending
                   ∧ respch pending = d.1
                   ∧ pendingOf (runLoop (outputs lines) st1).1 !! ident = None) new)
      as Hall'.
    { eapply Forall_impl; [exact Hall|]. intros d (i & pd & Hi & Hr & Hn).
      exists i, pd. split_and!; try done. by eapply lookup_weaken. }
    split_and!.
    + by etrans.
    + rewrite <- Hs. exact Hstate.
    + destruct Hd as [Hd|[response Hd]]; rewrite Hd in Hnew.
      * exists new. split_and!; [done|lia|done].
      * exists ((respch pending, response) :: new). split_and!.
        -- by rewrite Hnew, <- app_assoc.
        -- cbn. lia.
        -- constructor; [|done]. exists ident, pending. split_and!; try done.
           eapply lookup_weaken_None; [|exact Hsub]. rewrite Hp. apply lookup_delete_eq.
Qed.

(** X14. No line that the loop receives from the output channel can end
    the run, add a pending command or reach a channel other than that of a
    command that was pending: after any sequence of received lines the
    loop is still running, the table of pending commands has only lost
    entries, every response delivered went to the channel of an entry that
    is now removed, there are no more deliveries than removed entries, and
    the reported state is as before or [errored].  What ends a run from
    the side of the output is a failure of the output pump's scanner (a
    line too long for it, for one): with nothing queued and the context
    not cancelled the run returns "failed to read stdout", [errored]. *)
Theorem received_lines_never_end_run lines st :
  let res := runLoop (outputs lines) st in
  (res.2 = StillRunning
   ∧ pendingOf res.1 ⊆ pendingOf st
   ∧ (stateOf res.1 = stateOf st ∨ stateOf res.1 = ReportedStateError)
   ∧ ∃ new, delivered res.1 = delivered st ++ new
        ∧ length new + size (pendingOf res.1) ≤ size (pendingOf st)
        ∧ Forall (λ d, ∃ ident pending,
                    pendingOf st !! ident = Some pending
                    ∧ respch pending = d.1
                    ∧ pendingOf res.1 !! ident = None) new)
  ∧ (∀ err evs rsel,
       errCh st = None → ctxDone (session (lsSession st)) = false →
       forallb quiet evs = true →
       ∃ st', runLoop (outputs lines ++ ReadFailed err :: evs ++ [Selected SelErrCh rsel]) st
              = (st', Returned (Some (Wrap err "failed to read stdout")))
            ∧ stateOf st' = ReportedStateError
            ∧ noteOf st' = Error (Wrap err "failed to read stdout")).
Proof.
  intros res. split; [apply received_lines|].
  intros err evs rsel Hch Hctx Hq.
  assert (forallb silent (outputs lines) = true) as Hs.
  { apply forallb_forall. intros ev [l [<- _]]%in_map_iff. done. }
  destruct (silent_run (outputs lines) st Hs) as (st1 & Hrun1 & Hch1 & Hctx1 & _).
  assert (∃ st2, react (ReadFailed err) st1 = Some (st2, None)
               ∧ errCh st2 = Some (Some (Wrap err "failed to read stdout")))
    as (st2 & E2 & Hch2).
  { eexists. split; [done|]. unfold readerFailed, sendErr, ctxDone in *.
    rewrite Hctx1. rewrite Hctx. by rewrite Hch1, Hch. }
  destruct (quiet_run evs st2 Hq) as (st3 & Hrun3 & Hch3 & _).
  destruct (errCh_taken _ rsel [] st3 (Hch3 _ Hch2)) as (st' & E & Hst & Hn).
  exists st'. split; [|done]. rewrite Hrun1. cbn [runLoop]. rewrite E2. by rewrite Hrun3.
Qed.

(** X15. The error channel keeps the first message only.  Once a message is
    queued, whatever happens before the loop takes it (the process exits,
    a pump fails, a stop is requested, the context is cancelled) is not
    reported: the run returns the queued message, [errored] with its text
    when it is an error, [inactive] when it is the stop marker. *)
Theorem first_message_wins evs st msg rsel :
  errCh st = Some msg →
  forallb (λ ev, negb (isSelected ev)) evs = true →
  ∃ st', runLoop (evs ++ [Selected SelErrCh rsel]) st = (st', Returned msg)
       ∧ stateOf st' = match msg with
                       | Some _ => ReportedStateError
                       | None => ReportedStateInactive
                       end
       ∧ noteOf st' = match msg with Some err => Error err | None => "" end.
Proof.
  intros Hch Hevs.
  assert (forallb quiet evs = true) as Hq.
  { apply forallb_forall. intros ev Hin.
    rewrite forallb_forall in Hevs. specialize (Hevs ev Hin). by destruct ev. }
  destruct (quiet_run evs st Hq) as (st1 & Hrun & Hch1 & _).
  destruct (errCh_taken msg rsel [] st1 (Hch1 _ Hch)) as (st' & E & Hs & Hn).
  exists st'. by rewrite Hrun.
Qed.

End MoreLoop.

(** ** Starting, stopping and unloading; the manager over the runner *)

Section MoreStart.
Context `{Libs}.
Import filepath strings.

Lemma isDirAt_dot fs : isDirAt fs ".".
Proof. by exists 493%N. Qed.

Lemma startProcess_outcome_inv penv fs s fs' s' r :
  startProcess penv fs s = (fs', s', r) →
  match r with
  | None =>
      reportedState (session s') = ReportedStateActive
      ∧ ctx (session s') = Some false
      ∧ stdin s' = Some true ∧ stopping s' = false
      ∧ workdir s' ≠ ""
      ∧ isDirAt fs' (Clean (workdir s')) ∧ ¬ isDirAt fs (Clean (workdir s'))
      ∧ ∃ c, cmd s' = Some c ∧ exited c = false
           ∧ HasPrefix (cmdPath c) (workdir s' +:+ "/") = true
           ∧ isFileAt fs' (cmdPath c)
           ∧ cmdDir c = Dir (cmdPath c)
           ∧ (cmdDir c = workdir s' ∨ HasPrefix (cmdDir c) (workdir s' +:+ "/") = true)
  | Some err =>
      reportedState (session s') = reportedState (session s)
      ∧ statusMessage (session s') = statusMessage (session s)
      ∧ workdir s' = workdir s ∧ cmd s' = cmd s
      ∧ stdin s' = stdin s ∧ stopping s' = stopping s
      ∧ (∀ fs1 wd binaryPath,
           reportedState (session s) ≠ ReportedStateActive →
           runType (session s) = RunTypeBackground →
           extractSDXArchive (extractEnv penv) fs (bin (session s))
           = (fs1, OK (wd, binaryPath)) →
           fs' = fs1 ∧ isDirAt fs' (Clean wd) ∧ ¬ isDirAt fs (Clean wd)
           ∧ isFileAt fs' binaryPath)
  end.
Proof.
  unfold startProcess.
  assert (∀ t, reportedState (cancel t) = reportedState t
             ∧ statusMessage (cancel t) = statusMessage t) as Hcancel.
  { intros t. unfold cancel. by destruct (ctx t). }
  destruct (reportedState (session s)) eqn:Est.
  { intros [= <- <- <-]. rewrite Est. by split_and!. }
  all: destruct (runType (session s)) eqn:Ert;
    [|intros [= <- <- <-]; rewrite Est; by split_and!].
  all: cbn [session withSession setCtx bin].
  all: destruct (extractSDXArchive (extractEnv penv) fs (bin (session s)))
         as [fs1 [err|[wd bp]]] eqn:Eex;
    [intros [= <- <- <-]; cbn; rewrite ?Est; by split_and!|].
  all: pose proof Eex as Eex'; apply extractSDXArchive_success in Eex'
         as (files & pre & f & post & Hz & -> & Hx & Hd & Hpost & Hj & Hp & Hf & Hdir & Hfresh).
  all: assert (∀ err msg,
         (fs1, withSession cancel (withSession (setCtx (Some false)) s), Some (Wrap err msg))
         = (fs', s', r) →
         match r with
         | None => False
         | Some _ =>
             reportedState (session s') = reportedState (session s)
             ∧ statusMessage (session s') = statusMessage (session s)
             ∧ workdir s' = workdir s ∧ cmd s' = cmd s
             ∧ stdin s' = stdin s ∧ stopping s' = stopping s
             ∧ (∀ fs2 wd2 bp2,
                  (fs1, @inr error _ (wd, bp)) = (fs2, OK (wd2, bp2)) →
                  fs' = fs2 ∧ isDirAt fs' (Clean wd2) ∧ ¬ isDirAt fs (Clean wd2)
                  ∧ isFileAt fs' bp2)
         end) as Hfail
    by (intros err msg [= <- <- <-]; cbn; rewrite ?Est;
        split_and!; try done; by intros fs2 wd2 bp2 [= <- <- <-]).
  all: destruct (stdoutPipeErr penv) as [e|];
    [intros E; apply Hfail in E; destruct r; [|done];
     destruct E as (?&?&?&?&?&?&Hl); split_and!; [congruence|done..|intros ??? _ _; apply Hl]|].
  all: destruct (stderrPipeErr penv) as [e|];
    [intros E; apply Hfail in E; destruct r; [|done];
     destruct E as (?&?&?&?&?&?&Hl); split_and!; [congruence|done..|intros ??? _ _; apply Hl]|].
  all: destruct (stdinPipeErr penv) as [e|];
    [intros E; apply Hfail in E; destruct r; [|done];
     destruct E as (?&?&?&?&?&?&Hl); split_and!; [congruence|done..|intros ??? _ _; apply Hl]|].
  all: destruct (startErr penv) as [e|];
    [intros E; apply Hfail in E; destruct r; [|done];
     destruct E as (?&?&?&?&?&?&Hl); split_and!; [congruence|done..|intros ??? _ _; apply Hl]|].
  all: intros [= <- <- <-]; cbn.
  all: assert (wd ≠ "") as Hwd by (intros ->; destruct Hfresh; apply isDirAt_dot).
  all: split_and!; try done.
  all: eexists; split_and!; try done; cbn.
  all: apply joinWithin_OK in Hj as [Hj _].
  all: assert (Clean bp = bp) as Hclean by (rewrite Hj; by apply Join_clean).
  all: by destruct (within_parent bp wd Hclean Hwd Hp) as [_ [?|?]]; [left|right].
Qed.

(** X16. A run that gets as far as [active] has a process whose program is
    a regular file strictly inside the working directory of the session, a
    directory made for this run; the process runs in the directory of its
    program, inside the working directory too.  A run that fails before
    leaves the reported state, the note and the process fields of the
    session as they were; when the archive had been extracted by then, the
    extracted directory stays on disk and the session does not know it. *)
Theorem startProcess_outcome penv fs s fs' s' r :
  startProcess penv fs s = (fs', s', r) →
  match r with
  | None =>
      reportedState (session s') = ReportedStateActive
      ∧ ctx (session s') = Some false
      ∧ stdin s' = Some true ∧ stopping s' = false
      ∧ workdir s' ≠ ""
      ∧ isDirAt fs' (Clean (workdir s')) ∧ ¬ isDirAt fs (Clean (workdir s'))
      ∧ ∃ c, cmd s' = Some c ∧ exited c = false
           ∧ HasPrefix (cmdPath c) (workdir s' +:+ "/") = true
           ∧ isFileAt fs' (cmdPath c)
           ∧ cmdDir c = Dir (cmdPath c)
           ∧ (cmdDir c = workdir s' ∨ HasPrefix (cmdDir c) (workdir s' +:+ "/") = true)
  | Some err =>
      reportedState (session s') = reportedState (session s)
      ∧ statusMessage (session s') = statusMessage (session s)
      ∧ workdir s' = workdir s ∧ cmd s' = cmd s
      ∧ stdin s' = stdin s ∧ stopping s' = stopping s
      ∧ (∀ fs1 wd binaryPath,
           reportedState (session s) ≠ ReportedStateActive →
           runType (session s) = RunTypeBackground →
           extractSDXArchive (extractEnv penv) fs (bin (session s))
           = (fs1, OK (wd, binaryPath)) →
           fs' = fs1 ∧ isDirAt fs' (Clean wd) ∧ ¬ isDirAt fs (Clean wd)
           ∧ isFileAt fs' binaryPath)
  end.
Proof. apply startProcess_outcome_inv. Qed.


(** X18. When the process is killed (or had exited), [StopPlugin] marks the
    session as stopping and cancels the context of the run; it returns
    [nil], or the error of the caller's context when that ends the wait.
    The run then ends [inactive] with an empty note when its loop takes
    the cancelled context, and when it takes the exit watcher's stop
    marker; that marker is what the error channel gets if it was empty
    when the context was cancelled, since the pumps send nothing once it
    is.  A failure that was queued before, such as that of a write to the
    pipe [StopPlugin] has just closed, is what the loop takes otherwise,
    and the stop ends [errored]. *)
Theorem stop_ends_run_inactive senv s c :
  cmd s = Some c → exited c = true ∨ killErr senv = None →
  ctx (session s) ≠ None →
  let s' := (sdxRunner.stopSession senv s).1 in
  (sdxRunner.stopSession senv s).2
  = (if callerDone senv then Some context_Canceled else None)
  ∧ stopping s' = true
  ∧ ctx (session s') = Some true
  ∧ (∀ st evs rsel,
       lsSession st = s' → forallb quiet evs = true →
       ∃ st', runLoop (evs ++ [Selected SelCtxDone rsel]) st
              = (st', Returned (Some context_Canceled))
            ∧ stateOf st' = ReportedStateInactive ∧ noteOf st' = "")
  ∧ (∀ st before waitErr evs rsel,
       lsSession st = s' → errCh st = None →
       forallb (λ ev, silent ev || pumpFailure ev) before = true →
       forallb quiet evs = true →
       ∃ st', runLoop (before ++ ProcessExited waitErr :: evs ++ [Selected SelErrCh rsel]) st
              = (st', Returned None)
            ∧ stateOf st' = ReportedStateInactive ∧ noteOf st' = "")
  ∧ (∀ st err evs rsel,
       lsSession st = s' → errCh st = Some (Some err) →
       forallb quiet evs = true →
       ∃ st', runLoop (evs ++ [Selected SelErrCh rsel]) st
              = (st', Returned (Some err))
            ∧ stateOf st' = ReportedStateError ∧ noteOf st' = Error err).
Proof.
  intros Hc Hk Hctx s'.
  assert (sdxRunner.stopSession senv s
          = (withSession stop (markStopping s),
             if callerDone senv then Some context_Canceled else None)) as Hstop.
  { unfold sdxRunner.stopSession. rewrite Hc.
    assert ((if exited c then None else killErr senv) = None) as ->
      by (destruct Hk as [-> | ->]; [done|by destruct (exited c)]).
    cbn [session withSession markStopping]. unfold stop, cancel.
    by destruct (ctx (session s)). }
  subst s'. rewrite Hstop. cbn [fst snd].
  assert (ctx (session (withSession stop (markStopping s))) = Some true) as Hdone.
  { cbn. unfold stop, cancel. by destruct (ctx (session s)). }
  split_and!; try done.
  - intros st evs rsel Hs Hq.
    destruct (quiet_run evs st Hq) as (st1 & Hrun & _ & Hd & _).
    destruct (ctxDone_taken rsel [] st1) as (st' & E & Hst & Hn & _).
    { apply Hd. unfold ctxDone. by rewrite Hs, Hdone. }
    exists st'. by rewrite Hrun.
  - intros st before waitErr evs rsel Hs Hch Hbefore Hq.
    destruct (cancelled_run before st) as (st1 & Hrun1 & Hch1 & _ & Hstop1); [|done|].
    { unfold ctxDone. by rewrite Hs, Hdone. }
    rewrite Hch in Hch1. destruct (exit_queued waitErr st1 Hch1) as (st2 & E2 & Hch2).
    rewrite Hstop1 in Hch2 by (by rewrite Hs).
    destruct (quiet_run evs st2 Hq) as (st3 & Hrun3 & Hch3 & _).
    destruct (errCh_taken None rsel [] st3 (Hch3 _ Hch2)) as (st' & E & Hst & Hn).
    exists st'. split; [|done]. rewrite Hrun1. cbn [runLoop]. rewrite E2. by rewrite Hrun3.
  - intros st err evs rsel Hs Hch Hq.
    destruct (quiet_run evs st Hq) as (st1 & Hrun & Hch1 & _).
    destruct (errCh_taken _ rsel [] st1 (Hch1 _ Hch)) as (st' & E & Hst & Hn).
    exists st'. by rewrite Hrun.
Qed.

(** X19. A run whose loop takes the cancellation of its context returns the
    cancellation error, and the goroutine of [StartPlugin] logs every
    error of the run as "plugin start failed": a plugin that started and
    was then stopped while its loop was waiting is left [inactive] without
    process and without working directory, and the log has the line
    "plugin start failed" with the text "context canceled", next to what
    the loop and the pump of the standard error have logged. *)
Theorem stopped_run_logged_as_start_failure penv w i p rest s fs1 s1 evs rsel late :
  goroutines w = (i, p) :: rest →
  heap w !! p = Some s →
  startProcess penv (files w) s = (fs1, s1, None) →
  forallb quiet evs = true → ContextCancelled ∈ evs →
  let w' := sdxRunner.runGoroutine penv (evs ++ Selected SelCtxDone rsel :: late) w in
  {| logLevel := LevelError; logMsg := "plugin start failed";
     logAttr := "context canceled" |} ∈ logs w'
  ∧ ∃ s', heap w' !! p = Some s'
        ∧ reportedState (session s') = ReportedStateInactive
        ∧ cmd s' = None ∧ workdir s' = "".
Proof.
  intros Hg Hp Hstart Hq Hin w'. subst w'.
  pose proof (startProcess_outcome_inv _ _ _ _ _ _ Hstart) as Hout. cbn in Hout.
  destruct Hout as (_ & Hcx & _).
  destruct (quiet_run evs (enterLoop fs1 s1) Hq) as (st1 & Hrun & _ & _ & _ & _ & Hdone).
  destruct (ctxDone_taken rsel late st1) as (st' & E & Hst & _ & Hcmd & Hwd & _).
  { apply Hdone; [done|]. cbn. by rewrite Hcx. }
  unfold sdxRunner.runGoroutine. rewrite Hg. cbn [heap setGoroutines]. rewrite Hp.
  unfold runProcess. cbn [files setGoroutines]. rewrite Hstart, Hrun, E.
  cbn [logs logWorld heap setObject setFiles setGoroutines]. split.
  - apply elem_of_app. right. by apply list_elem_of_singleton.
  - rewrite lookup_insert_eq. by eexists.
Qed.

Lemma stopSession_fields senv s :
  workdir (sdxRunner.stopSession senv s).1 = workdir s
  ∧ cmd (sdxRunner.stopSession senv s).1 = cmd s.
Proof.
  unfold sdxRunner.stopSession. destruct (cmd s) as [c|] eqn:Ec; [|done].
  destruct (if exited c then None else killErr senv); [done|].
  by destruct (ctx (session (withSession stop (markStopping s)))).
Qed.

(** X20. [Unload] of a session that has a working directory removes that
    directory and everything below it from the file system and nothing
    else, whether or not the process could be stopped; the session object
    forgets the directory and keeps its process handle. *)
Theorem Unload_reclaims_workdir senv w i p s :
  sessions w !! i = Some p → heap w !! p = Some s → workdir s ≠ "" →
  let w' := (sdxRunner.Unload senv w i).1 in
  (∀ k, atOrBelow (workdir s) k → files w' !! k = None)
  ∧ (∀ k, ¬ atOrBelow (workdir s) k → files w' !! k = files w !! k)
  ∧ ∃ s', heap w' !! p = Some s' ∧ workdir s' = "" ∧ cmd s' = cmd s.
Proof.
  intros Hi Hp Hwd w'. subst w'. unfold sdxRunner.Unload, sdxRunner.StopPlugin.
  rewrite Hi, Hp. destruct (stopSession_fields senv s) as [Hw Hc].
  destruct (sdxRunner.stopSession senv s) as [s1 err]. cbn [fst] in Hw, Hc.
  assert (∀ w2, heap w2 = <[p := s1]> (heap w) → files w2 = files w →
    let w3 := setSessions (delete i (sessions w2)) w2 in
    let out := match heap w3 !! p with
               | Some s0 =>
                   if String.eqb (workdir s0) "" then (w3, @None error)
                   else (setObject p (sdxRunner.clearWorkdir s0)
                           (setFiles (os.RemoveAll (files w3) (workdir s0)) w3), None)
               | None => (w3, None)
               end in
    (∀ k, atOrBelow (workdir s) k → files out.1 !! k = None)
    ∧ (∀ k, ¬ atOrBelow (workdir s) k → files out.1 !! k = files w !! k)
    ∧ ∃ s', heap out.1 !! p = Some s' ∧ workdir s' = "" ∧ cmd s' = cmd s) as Hmain.
  { intros w2 Hh Hf w3 out. subst out w3. cbn [heap setSessions]. rewrite Hh.
    rewrite lookup_insert_eq, Hw. apply String.eqb_neq in Hwd. rewrite Hwd. cbn.
    rewrite Hf. split_and!.
    - intros k. apply RemoveAll_gone.
    - intros k. apply RemoveAll_kept.
    - rewrite lookup_insert_eq. by eexists. }
  destruct err as [e|]; by apply Hmain.
Qed.

End MoreStart.

Section MoreManager.
Context `{Libs}.

Lemma run_SetActiveState_active senv db w i rec :
  records db !! i = Some rec →
  run (sdxHandler senv db) (Manager.SetActiveState i ActiveStateActive) w
  = let mid := ID (recordManifest rec) in
    match sessions w !! mid with
    | Some p =>
        (None, setGoroutines (goroutines w ++ [(mid, p)]) w,
         [QuerierGet i; RunnerGetSession mid; RunnerStartPlugin mid])
    | None =>
        match binaries db !! recordID rec with
        | None =>
            (Some (WrapCtx (WrapCtx (New "plugin binary not found"))), w,
             [QuerierGet i; RunnerGetSession mid; QuerierLoadBinary (recordID rec)])
        | Some b =>
            match sdxRunner.Load w b with
            | (w1, inl err) =>
                (Some (WrapCtx (WrapCtx err)), w1,
                 [QuerierGet i; RunnerGetSession mid; QuerierLoadBinary (recordID rec);
                  RunnerLoad b])
            | (w1, inr _) =>
                let '(w2, r) := sdxRunner.StartPlugin w1 mid in
                (match r with
                 | Some e => Some (WrapCtx (WrapCtx e))
                 | None => None
                 end, w2,
                 [QuerierGet i; RunnerGetSession mid; QuerierLoadBinary (recordID rec);
                  RunnerLoad b; RunnerStartPlugin mid])
            end
        end
    end.
Proof.
  intros Hrec.
  unfold Manager.SetActiveState, Manager.activatePlugin,
    perform, mbind, prog_bind, mret, prog_ret.
  cbn [bind run sdxHandler]. rewrite Hrec. cbn.
  unfold sdxRunner.GetSession.
  destruct (sessions w !! ID (recordManifest rec)) as [p|] eqn:Es; cbn.
  - unfold sdxRunner.StartPlugin. rewrite Es. done.
  - destruct (binaries db !! recordID rec) as [b|]; cbn; [|done].
    destruct (sdxRunner.Load w b) as [w1 [err|p]]; cbn; [done|].
    by destruct (sdxRunner.StartPlugin w1 (ID (recordManifest rec))) as [w2 [e|]].
Qed.

(** X21. The manager over the subprocess runner.  Activating a plugin that
    is not loaded loads the stored archive and queues a run of the new
    session, and a second activation then starts the same session without
    loading again.  The session is filed under the identifier in the
    archive's manifest, while the start uses the identifier in the record:
    when they differ the activation fails with "plugin session not found",
    and the session just loaded stays registered under the other
    identifier.  Deactivating a plugin that is not loaded fails with the
    same error and changes nothing. *)
Theorem activate_over_sdxRunner senv db w i rec b m :
  records db !! i = Some rec →
  binaries db !! recordID rec = Some b →
  Validate b = OK m →
  sessions w !! ID (recordManifest rec) = None →
  let h := sdxHandler senv db in
  let mid := ID (recordManifest rec) in
  let out := run h (Manager.SetActiveState i ActiveStateActive) w in
  (ID m = mid →
     out.1.1 = None
     ∧ sessions out.1.2 !! mid = Some (brk w)
     ∧ heap out.1.2 !! brk w = Some (newSDXSession (newSession b m))
     ∧ goroutines out.1.2 = goroutines w ++ [(mid, brk w)]
     ∧ run h (Manager.SetActiveState i ActiveStateActive) out.1.2
       = (None,
          setGoroutines (goroutines w ++ [(mid, brk w); (mid, brk w)]) out.1.2,
          [QuerierGet i; RunnerGetSession mid; RunnerStartPlugin mid]))
  ∧ (ID m ≠ mid →
     out.1.1 = Some (WrapCtx (WrapCtx sdxRunner.notFound))
     ∧ sessions out.1.2 = <[ID m := brk w]> (sessions w)
     ∧ goroutines out.1.2 = goroutines w)
  ∧ run h (Manager.SetActiveState i ActiveStateInactive) w
    = (Some (WrapCtx (WrapCtx sdxRunner.notFound)), w,
       [QuerierGet i; RunnerStopPlugin mid]).
Proof.
  intros Hrec Hbin Hv Hs h mid out.
  assert (out = let '(w2, r) := sdxRunner.StartPlugin (sdxRunner.Load w b).1 mid in
                (match r with
                 | Some e => Some (WrapCtx (WrapCtx e))
                 | None => None
                 end, w2,
                 [QuerierGet i; RunnerGetSession mid; QuerierLoadBinary (recordID rec);
                  RunnerLoad b; RunnerStartPlugin mid])) as ->.
  { subst out h mid. rewrite (run_SetActiveState_active _ _ _ _ _ Hrec). cbn zeta.
    rewrite Hs, Hbin. unfold sdxRunner.Load. by rewrite Hv. }
  unfold sdxRunner.Load. rewrite Hv. unfold sdxRunner.StartPlugin. cbn [fst snd sessions].
  split_and!.
  - intros Hm. rewrite Hm, lookup_insert_eq. cbn [fst snd]. split_and!.
    + done.
    + cbn. by rewrite lookup_insert_eq.
    + cbn. by rewrite lookup_insert_eq.
    + done.
    + subst h. rewrite (run_SetActiveState_active _ _ _ _ _ Hrec). cbn zeta. fold mid.
      cbn [sessions setGoroutines]. rewrite lookup_insert_eq. cbn [goroutines setGoroutines].
      by rewrite <- app_assoc.
  - intros Hm. rewrite lookup_insert_ne by done. subst mid. rewrite Hs. done.
  - subst h mid. unfold Manager.SetActiveState, Manager.deactivatePlugin,
      perform, mbind, prog_bind, mret, prog_ret.
    cbn [bind run sdxHandler]. rewrite Hrec. cbn.
    unfold sdxRunner.StopPlugin. rewrite Hs. done.
Qed.

End MoreManager.

(** ** The properties above on the small instance *)

Lemma consistent_emptyWorld : consistent emptyWorld.
Proof. apply (newSDXRunner_consistent demoFS). Qed.

Lemma consistent_activeWorld : consistent activeWorld.
Proof.
  unfold activeWorld, startedWorld, loadedWorld.
  apply runGoroutine_consistent, StartPlugin_consistent, Load_consistent,
    consistent_emptyWorld.
Qed.

Lemma Load_then_GetSession_witness :
  sdxRunner.GetSession (sdxRunner.Load emptyWorld [x01]).1 "p1" = OK 0
  ∧ heap (sdxRunner.Load emptyWorld [x01]).1 !! 0
    = Some (newSDXSession (newSession [x01] demoManifest)).
Proof.
  destruct (Load_then_GetSession emptyWorld [x01] (sdxRunner.Load emptyWorld [x01]).1 0
              consistent_emptyWorld) as (m & Hv & Hg & _ & Hh & _).
  { vm_compute. reflexivity. }
  assert (m = demoManifest) as -> by (vm_compute in Hv; injection Hv as <-; reflexivity).
  split; [exact Hg|exact Hh].
Defined.

Lemma Load_replaces_session_witness :
  cmd (sessionAt activeWorld 0) = Some demoCmd
  ∧ heap (sdxRunner.Load activeWorld [x01]).1 !! 0 = Some (sessionAt activeWorld 0)
  ∧ (∀ i, sdxRunner.GetSession (sdxRunner.Load activeWorld [x01]).1 i ≠ OK 0).
Proof.
  destruct (Load_replaces_session activeWorld [x01] demoManifest 0 (sessionAt activeWorld 0)
              consistent_activeWorld) as (_ & _ & Hh & Hg & _);
    try (vm_compute; reflexivity).
  split_and!; [vm_compute; reflexivity|exact Hh|exact Hg].
Defined.

Lemma runLoop_releases_witness :
  cmd (lsSession (runLoop demoExit demoLoop).1) = None
  ∧ workdir (lsSession (runLoop demoExit demoLoop).1) = ""
  ∧ lsFiles demoLoop !! "/tmp/storyden-sdx-42/plugin/main"
    = Some (FileNode 493 (ascii_bytes "ELF"))
  ∧ lsFiles (runLoop demoExit demoLoop).1 !! "/tmp/storyden-sdx-42/plugin/main" = None.
Proof.
  assert (runLoop demoExit demoLoop
          = ((runLoop demoExit demoLoop).1,
             Returned (Some (New "plugin exited unexpectedly")))) as E
    by (vm_compute; reflexivity).
  pose proof (runLoop_releases _ _ _ _ E) as (Hc & _ & Hw & _ & Hfs & _).
  split_and!; [exact Hc|exact Hw|vm_compute; reflexivity|].
  apply Hfs; [vm_compute; discriminate|]. right. vm_compute. reflexivity.
Defined.


Lemma first_message_wins_witness :
  let st := (runLoop [WriteFailed (Foreign "broken pipe")] demoLoop).1 in
  ∃ st', runLoop ([StopRequested; ProcessExited None] ++ [Selected SelErrCh SelRespch]) st
         = (st', Returned (Some (Wrap (Foreign "broken pipe") "failed to write command")))
       ∧ stateOf st' = ReportedStateError
       ∧ noteOf st' = "failed to write command: broken pipe".
Proof.
  intros st.
  apply (first_message_wins [StopRequested; ProcessExited None] st
           (Some (Wrap (Foreign "broken pipe") "failed to write command")) SelRespch).
  - vm_compute. reflexivity.
  - reflexivity.
Defined.

Lemma received_lines_never_end_run_witness :
  ∃ st', runLoop (outputs [([], SelRespch)]
                  ++ ReadFailed (Foreign "bufio.Scanner: token too long")
                     :: [StderrLine "late"] ++ [Selected SelErrCh SelRespch]) demoLoop
         = (st', Returned (Some (Wrap (Foreign "bufio.Scanner: token too long")
                                   "failed to read stdout")))
       ∧ stateOf st' = ReportedStateError
       ∧ noteOf st' = "failed to read stdout: bufio.Scanner: token too long".
Proof.
  destruct (received_lines_never_end_run [([], SelRespch)] demoLoop) as [_ Hfail].
  destruct (Hfail (Foreign "bufio.Scanner: token too long") [StderrLine "late"] SelRespch)
    as (st' & E & S & N); try (vm_compute; reflexivity).
  exists st'. split_and!; [exact E|exact S|].
  rewrite N. vm_compute. reflexivity.
Defined.

Lemma startProcess_outcome_witness :
  let out := startProcess demoProcEnv demoFS (newSDXSession (newSession [x01] demoManifest)) in
  out.2 = None
  ∧ reportedState (session out.1.2) = ReportedStateActive
  ∧ cmd out.1.2 = Some demoCmd
  ∧ isFileAt out.1.1 (cmdPath demoCmd).
Proof.
  intros out.
  assert (startProcess demoProcEnv demoFS (newSDXSession (newSession [x01] demoManifest))
          = (out.1.1, out.1.2, None)) as E by (vm_compute; reflexivity).
  pose proof (startProcess_outcome _ _ _ _ _ _ E)
    as (Hs & _ & _ & _ & _ & _ & _ & c & Hc & _ & _ & Hf & _).
  assert (cmd out.1.2 = Some demoCmd) as Hc' by (vm_compute; reflexivity).
  rewrite Hc' in Hc. injection Hc as <-.
  split_and!; [vm_compute; reflexivity|exact Hs|exact Hc'|exact Hf].
Defined.


Lemma stop_ends_run_inactive_witness :
  let s' := (sdxRunner.stopSession demoStopEnv (sessionAt activeWorld 0)).1 in
  (sdxRunner.stopSession demoStopEnv (sessionAt activeWorld 0)).2 = None
  ∧ (∃ st', runLoop ([ProcessExited None] ++ [Selected SelCtxDone SelRespch])
              (enterLoop demoFS s')
            = (st', Returned (Some context_Canceled))
          ∧ stateOf st' = ReportedStateInactive ∧ noteOf st' = "")
  ∧ (∃ st', runLoop ([WriteFailed (Foreign "write |1: file already closed")] ++
                     ProcessExited None :: [] ++ [Selected SelErrCh SelRespch])
              (enterLoop demoFS s')
            = (st', Returned None)
          ∧ stateOf st' = ReportedStateInactive ∧ noteOf st' = "").
Proof.
  intros s'.
  destruct (stop_ends_run_inactive demoStopEnv (sessionAt activeWorld 0) demoCmd)
    as (Hr & _ & _ & Hctx & Hexit & _).
  - vm_compute. reflexivity.
  - by right.
  - vm_compute. discriminate.
  - split_and!; [exact Hr|by apply Hctx|by apply Hexit].
Defined.

Lemma stopped_run_logged_as_start_failure_witness :
  let w' := sdxRunner.runGoroutine demoProcEnv
              ([StderrLine "ready"; StopRequested; ContextCancelled] ++
               Selected SelCtxDone SelRespch
               :: [StderrEnded (Some (Foreign "read |0: file already closed"))])
              startedWorld in
  {| logLevel := LevelError; logMsg := "plugin start failed";
     logAttr := "context canceled" |} ∈ logs w'
  ∧ {| logLevel := LevelWarn; logMsg := "plugin stderr"; logAttr := "ready" |} ∈ logs w'
  ∧ {| logLevel := LevelError; logMsg := "stderr read error";
       logAttr := "read |0: file already closed" |} ∈ logs w'
  ∧ length (logs w') = 3
  ∧ reportedStateOf w' "p1" = Some ReportedStateInactive.
Proof.
  intros w'.
  set (out := startProcess demoProcEnv (files startedWorld)
                (newSDXSession (newSession [x01] demoManifest))).
  destruct (stopped_run_logged_as_start_failure demoProcEnv startedWorld "p1" 0 []
              (newSDXSession (newSession [x01] demoManifest)) out.1.1 out.1.2
              [StderrLine "ready"; StopRequested; ContextCancelled] SelRespch
              [StderrEnded (Some (Foreign "read |0: file already closed"))])
    as (Hl & s' & Hh & Hs & _); try (vm_compute; reflexivity).
  { apply elem_of_cons. right. apply elem_of_cons. right. by apply elem_of_cons; left. }
  assert (logs w' = [{| logLevel := LevelWarn; logMsg := "plugin stderr";
                        logAttr := "ready" |};
                     {| logLevel := LevelError; logMsg := "stderr read error";
                        logAttr := "read |0: file already closed" |};
                     {| logLevel := LevelError; logMsg := "plugin start failed";
                        logAttr := "context canceled" |}]) as Hlogs
    by (vm_compute; reflexivity).
  split_and!; [exact Hl|rewrite Hlogs; in_list|rewrite Hlogs; in_list
              |by rewrite Hlogs|]. subst w'.
  match goal with |- reportedStateOf ?w _ = _ =>
    assert (reportedStateOf w "p1" = (s ← heap w !! 0; Some (reportedState (session s))))
      as -> by (vm_compute; reflexivity)
  end.
  rewrite Hh. cbn. by rewrite Hs.
Defined.

Lemma Unload_reclaims_workdir_witness :
  files activeWorld !! "/tmp/storyden-sdx-42/plugin/main"
  = Some (FileNode 493 (ascii_bytes "ELF"))
  ∧ files (sdxRunner.Unload failingStopEnv activeWorld "p1").1
      !! "/tmp/storyden-sdx-42/plugin/main" = None
  ∧ files (sdxRunner.Unload failingStopEnv activeWorld "p1").1 !! "/tmp"
    = Some (DirNode 511).
Proof.
  destruct (Unload_reclaims_workdir failingStopEnv activeWorld "p1" 0
              (sessionAt activeWorld 0)) as (Hgone & Hkept & _);
    try (vm_compute; reflexivity).
  { vm_compute. discriminate. }
  split_and!; [vm_compute; reflexivity| |].
  - apply Hgone. right. vm_compute. reflexivity.
  - rewrite Hkept; [vm_compute; reflexivity|].
    intros [E|E]; vm_compute in E; discriminate.
Defined.

Lemma activate_over_sdxRunner_witness :
  let out := run (sdxHandler demoStopEnv demoStore)
               (Manager.SetActiveState "p1" ActiveStateActive) emptyWorld in
  out.1.1 = None
  ∧ sessions out.1.2 !! "p1" = Some 0
  ∧ goroutines out.1.2 = [("p1", 0)]
  ∧ run (sdxHandler demoStopEnv demoStore)
      (Manager.SetActiveState "p1" ActiveStateInactive) emptyWorld
    = (Some (WrapCtx (WrapCtx (New "plugin session not found"))), emptyWorld,
       [QuerierGet "p1"; RunnerStopPlugin "p1"]).
Proof.
  intros out.
  destruct (activate_over_sdxRunner demoStopEnv demoStore emptyWorld "p1"
              {| recordID := "r1"; recordManifest := demoManifest |} [x01] demoManifest)
    as (Hsame & _ & Hstop); try (vm_compute; reflexivity).
  destruct (Hsame eq_refl) as (H1 & H2 & _ & H4 & _).
  split_and!; [exact H1|exact H2|exact H4|exact Hstop].
Defined.

